(** * HttpRetryService: a shallow embedding of the retry engine

    The development follows [http-retry.service.ts] (the service),
    [retry-service.component.ts] (its caller, with the fields its template
    shows) and [server.js] (the test server the service polls).

    - JavaScript values are a small inductive type; objects are finite maps
      from property names to values ([gmap string JsVal]), object spread is
      map union, and objects that the code mutates live in a store.
    - The RxJS pipelines are modelled in virtual time: every pending
      subscription (an HTTP request in flight, a [timer]) is a task with a
      due time; the scheduler runs the task that is due first, and tasks that
      are due at the same time in the order in which they were subscribed.
    - What the subscriber of the returned stream observes is recorded in a
      trace, together with the GET requests handed to [HttpClient].
    - The engine reads its options from a record, for option objects that
      have the types [Required<RetryOptions>] declares; validation and [get]
      work on the objects themselves.
    - Numbers that the code computes in floating point are integers here,
      and [totalDelay / 1000] is a rational; the delay before a retry is
      given a second time as the double the code computes, with its
      overflow. *)

From Stdlib Require Import ZArith QArith Lia.
From stdpp Require Import base option list gmap strings pretty.

Set Warnings "-register-all".
Close Scope Q_scope.
Open Scope Z_scope.

(** ** JavaScript values *)

Inductive JsVal : Type :=
  | JUndefined
  | JNull
  | JBool (b : bool)
  | JNum (q : Q)
  | JNaN
  | JInfinity (negative : bool)
  | JStr (s : string)
  | JObj (props : gmap string JsVal).

(** [v?.k]: reading a property of [null], [undefined] or of a primitive
    gives [undefined], as does reading a property an object does not have. *)
Definition getProp (k : string) (v : JsVal) : JsVal :=
  match v with
  | JObj props => default JUndefined (props !! k)
  | _ => JUndefined
  end.

(** The own properties that [{...v}] copies. *)
Definition ownProps (v : JsVal) : gmap string JsVal :=
  match v with
  | JObj props => props
  | _ => ∅
  end.

(** [{...a, ...b}]: the properties of [b] win. *)
Definition spread (a b : gmap string JsVal) : gmap string JsVal := b ∪ a.

(** [v === true], [v === false] *)
Definition strictEqBool (v : JsVal) (b : bool) : bool :=
  match v with
  | JBool b' => Bool.eqb b' b
  | _ => false
  end.

(** [v !== undefined] *)
Definition isDefined (v : JsVal) : bool :=
  match v with
  | JUndefined => false
  | _ => true
  end.

(** [!!v] *)
Definition truthy (v : JsVal) : bool :=
  match v with
  | JUndefined | JNull | JNaN => false
  | JBool b => b
  | JNum q => negb (Qnum q =? 0)
  | JInfinity _ => true
  | JStr s => negb (String.eqb s EmptyString)
  | JObj _ => true
  end.

(** [Number.isInteger(v)], returning the integer. *)
Definition asInteger (v : JsVal) : option Z :=
  match v with
  | JNum q =>
      if Qnum q mod Zpos (Qden q) =? 0 then Some (Qnum q / Zpos (Qden q)) else None
  | _ => None
  end.

Definition JInt (z : Z) : JsVal := JNum (inject_Z z).

(** ** Transport outcomes and their classification *)

(** [HttpClient.get(url, {observe: 'response'})] delivers an [HttpResponse]
    on [next] or an [HttpErrorResponse] on [error]. *)
Inductive Outcome : Type :=
  | HttpResponse (status : Z) (body : JsVal)
  | HttpErrorResponse (status : Z) (error : JsVal).

Definition checkForValidResponse (status : Z) (body : JsVal) : bool :=
  (status =? 200)
  && strictEqBool (getProp "ready" body) true
  && isDefined (getProp "data" body).

Definition checkResponseForRetry (status : Z) (error : JsVal) : bool :=
  (status =? 404) && strictEqBool (getProp "ready" error) false.

Inductive Classification : Type :=
  | Ready (body : JsVal)
  | NotReadyRetryable
  | FormatInvalid
  | ServerFailure.

(** The branch [checkResponseObserver] takes for an outcome. *)
Definition classify (o : Outcome) : Classification :=
  match o with
  | HttpResponse status body =>
      if checkForValidResponse status body then Ready body else FormatInvalid
  | HttpErrorResponse status error =>
      if checkResponseForRetry status error then NotReadyRetryable else ServerFailure
  end.

(** ** Options, the object store and [get] *)

Definition MAX_RETRIES : Z := 10.
Definition MAX_RETRY_INTERVAL : Z := 60000.
Definition MAX_UPDATE_INTERVAL : Z := 10000.

(** The initial value of the [defaultOptions] field. *)
Definition defaultOptionsObject : gmap string JsVal :=
  {[ "retries" := JInt 3;
     "interval" := JInt 3000;
     "strategy" := JStr "linear";
     "updateInterval" := JInt 1000;
     "retryOnServerFailure" := JBool false;
     "retryOnUnexpectedFormat" := JBool false;
     "liveUpdates" := JBool true;
     "noUpdates" := JBool false ]}.

(** Objects that are passed by reference and assigned to are kept in a
    store; a reference is a key of the store. *)
Abbreviation loc := positive (only parsing).
Abbreviation Heap := (gmap positive (gmap string JsVal)) (only parsing).

Definition objectAt (l : loc) (h : Heap) : gmap string JsVal :=
  default ∅ (h !! l).

(** [l.k = v] *)
Definition setProp (l : loc) (k : string) (v : JsVal) (h : Heap) : Heap :=
  <[l := <[k := v]> (objectAt l h)]> h.

(** [l.k] *)
Definition readProp (l : loc) (k : string) (h : Heap) : JsVal :=
  default JUndefined (objectAt l h !! k).

Record HttpRetryService : Type := {
  defaultOptions : loc
}.

Inductive Thrown : Type :=
  | Error (message : string).

(** A name between double quotes, as the message of the last check has it. *)
Definition quoted (s : string) : string :=
  String (Ascii.ascii_of_nat 34) (s +:+ String (Ascii.ascii_of_nat 34) EmptyString).

(** [!Number.isInteger(v) || v < 0 || v > max] *)
Definition outOfBounds (v : JsVal) (max : Z) : bool :=
  match asInteger v with
  | None => true
  | Some z => (z <? 0) || (max <? z)
  end.

(** [names.includes(v)] for an array of strings. *)
Definition includes (names : list string) (v : JsVal) : bool :=
  match v with
  | JStr s => bool_decide (s ∈ names)
  | _ => false
  end.

Definition validateOptions (options : loc) (h : Heap) : Thrown + Heap :=
  let retries := readProp options "retries" h in
  let interval := readProp options "interval" h in
  let strategy := readProp options "strategy" h in
  let updateInterval := readProp options "updateInterval" h in
  if isDefined retries && outOfBounds retries MAX_RETRIES then
    inl (Error ("Invalid value for retries. It must be a non-negative integer less than "
                +:+ pretty MAX_RETRIES +:+ "."))
  else if isDefined interval && outOfBounds interval MAX_RETRY_INTERVAL then
    inl (Error ("Invalid value for interval. It must be a non-negative integer less than "
                +:+ pretty MAX_RETRY_INTERVAL +:+ "."))
  else if isDefined updateInterval && outOfBounds updateInterval MAX_UPDATE_INTERVAL then
    inl (Error ("Invalid value for updateInterval. It must be a non-negative integer less than "
                +:+ pretty MAX_UPDATE_INTERVAL +:+ "."))
  else if truthy strategy && negb (includes ["linear"; "exponential"] strategy) then
    inl (Error ("Invalid strategy. Valid values are " +:+ quoted "linear" +:+ " or "
                +:+ quoted "exponential" +:+ "."))
  else
    let h := setProp options "retryOnUnexpectedFormat"
               (JBool (truthy (readProp options "retryOnUnexpectedFormat" h))) h in
    let h := setProp options "retryOnServerFailure"
               (JBool (truthy (readProp options "retryOnServerFailure" h))) h in
    let h := setProp options "noUpdates"
               (JBool (truthy (readProp options "noUpdates" h))) h in
    let h := setProp options "liveUpdates"
               (JBool (truthy (readProp options "liveUpdates" h))) h in
    inr h.

(** What [request] captures in the closure of the stream it returns: the
    url, the merged options object, the start time and the counter of
    performed retries. *)
Record Operation : Type := {
  op_url : string;
  op_options : loc;
  op_startTime : Z;
  op_attempts : nat
}.

Definition request (url : string) (options : loc) (now : Z) : Operation :=
  {| op_url := url; op_options := options; op_startTime := now; op_attempts := 0 |}.

(** [get(url, options, cancelSignal)], called when the clock reads [now].
    The stream is cold: no request leaves before it is subscribed to. *)
Definition get (this : HttpRetryService) (url : string) (options : loc) (now : Z)
    (h : Heap) : Heap * (Thrown + Operation) :=
  let allOptions := fresh (dom h) in
  let h := <[allOptions := spread (objectAt (defaultOptions this) h) (objectAt options h)]> h in
  match validateOptions allOptions h with
  | inl e => (h, inl e)
  | inr h => (h, inr (request url allOptions now))
  end.

(** The options as the engine reads them, for an object that has the types
    [Required<RetryOptions>] declares. *)
Record RetryOptions : Type := {
  retries : Z;
  interval : Z;
  updateInterval : Z;
  strategy : string;
  retryOnServerFailure : bool;
  retryOnUnexpectedFormat : bool;
  liveUpdates : bool;
  noUpdates : bool
}.

Definition asString (v : JsVal) : option string :=
  match v with JStr s => Some s | _ => None end.

Definition asBool (v : JsVal) : option bool :=
  match v with JBool b => Some b | _ => None end.

Definition readOptions (o : gmap string JsVal) : option RetryOptions :=
  r ← asInteger (default JUndefined (o !! "retries"));
  i ← asInteger (default JUndefined (o !! "interval"));
  u ← asInteger (default JUndefined (o !! "updateInterval"));
  s ← asString (default JUndefined (o !! "strategy"));
  sf ← asBool (default JUndefined (o !! "retryOnServerFailure"));
  uf ← asBool (default JUndefined (o !! "retryOnUnexpectedFormat"));
  lu ← asBool (default JUndefined (o !! "liveUpdates"));
  nu ← asBool (default JUndefined (o !! "noUpdates"));
  Some {| retries := r; interval := i; updateInterval := u; strategy := s;
          retryOnServerFailure := sf; retryOnUnexpectedFormat := uf;
          liveUpdates := lu; noUpdates := nu |}.

(** ** Events *)

Inductive ErrorCodes : Type :=
  | UNEXPECTED_RESPONSE_FORMAT
  | DATA_NOT_READY_YET
  | UNKNOWN_ERROR.

Definition errorCodeValue (c : ErrorCodes) : Z :=
  match c with
  | UNEXPECTED_RESPONSE_FORMAT => 0
  | DATA_NOT_READY_YET => 1
  | UNKNOWN_ERROR => 2
  end.

Definition ErrorMessages (c : ErrorCodes) : string :=
  match c with
  | UNEXPECTED_RESPONSE_FORMAT => "Unexpected response format."
  | DATA_NOT_READY_YET => "Data not ready yet."
  | UNKNOWN_ERROR => "Server error."
  end.

Definition createErrorObject (errorCode : ErrorCodes) : gmap string JsVal :=
  {[ "errorCode" := JInt (errorCodeValue errorCode);
     "errorMessage" := JStr (ErrorMessages errorCode) ]}.

Definition buildErrorResponse (errorData : gmap string JsVal) : gmap string JsVal :=
  {[ "error" := JObj errorData ]}.

(** [{loading: true}] *)
Definition loadingEvent : JsVal := JObj {[ "loading" := JBool true ]}.

(** [{...serviceResponse, loading: false}] *)
Definition dataEvent (serviceResponse : JsVal) : JsVal :=
  JObj (spread (ownProps serviceResponse) {[ "loading" := JBool false ]}).

(** [{...buildErrorResponse({...createErrorObject(errorCode), ...additionalData}),
      loading: false}] *)
Definition errorEvent (errorCode : ErrorCodes) (additionalData : gmap string JsVal) : JsVal :=
  JObj (spread (buildErrorResponse (spread (createErrorObject errorCode) additionalData))
               {[ "loading" := JBool false ]}).

(** [Math.ceil(ms / 1000)] for a whole number of milliseconds. *)
Definition ceilSeconds (ms : Z) : Z := (ms + 999) / 1000.

(** [(ms / 1000).toFixed(0)] for a whole number of milliseconds: the nearest
    integer, a half rounded away from zero. *)
Definition toFixed0 (ms : Z) : string :=
  if ms <? 0 then "-" +:+ pretty ((- ms + 500) / 1000)
  else pretty ((ms + 500) / 1000).

Definition attemptsUpdateData (attempts : nat) (maxRetries : Z) : gmap string JsVal :=
  {[ "message" := JStr ("Attempt " +:+ pretty (Z.of_nat attempts) +:+ " of " +:+ pretty maxRetries);
     "attempts" := JInt (Z.of_nat attempts);
     "maxRetries" := JInt maxRetries ]}.

Definition liveUpdateData (remainingTime : Z) (attempts : nat) (maxRetries : Z)
    : gmap string JsVal :=
  {[ "message" := JStr ("Retrying in " +:+ pretty (ceilSeconds remainingTime)
                        +:+ " seconds... (Attempt " +:+ pretty (Z.of_nat attempts)
                        +:+ " of " +:+ pretty maxRetries +:+ ")");
     "attempts" := JInt (Z.of_nat attempts);
     "maxRetries" := JInt maxRetries;
     "delay" := JInt remainingTime ]}.

Definition maxRetriesData (totalDelay : Z) (attempts : nat) (maxRetries : Z)
    : gmap string JsVal :=
  {[ "message" := JStr ("Max retries reached. Retried " +:+ pretty maxRetries
                        +:+ " times over " +:+ toFixed0 totalDelay +:+ " seconds.");
     "attempts" := JInt (Z.of_nat attempts);
     "maxRetries" := JInt maxRetries;
     "totalDelay" := JNum (Qmake totalDelay 1000) ]}.

(** ** The engine *)

(** [delay] is a number of milliseconds, [attempts] the retries performed.
    The engine counts the delay as an integer. It is the number the code
    computes, [calculateDelayBeforeRetryDouble] below, wherever [exactDelay]
    holds, and so for all the options validation admits. *)
Definition calculateDelayBeforeRetry (interval : Z) (attempts : nat) (strategy : string) : Z :=
  if String.eqb strategy "linear" then interval else interval * 2 ^ Z.of_nat attempts.

(** The same computation in the arithmetic of the code, for an integer
    [interval] a double holds exactly (below [2^53] in magnitude):
    [Math.pow(2, attempts)] is exact up to [2^1023] and is [Infinity] from
    1024 on; a product that reaches [2^1024] overflows to an infinity; and
    [0 * Infinity] is [NaN]. *)
Definition calculateDelayBeforeRetryDouble (interval : Z) (attempts : nat) (strategy : string)
    : JsVal :=
  if String.eqb strategy "linear" then JInt interval
  else if 1024 <=? Z.of_nat attempts then
    if interval =? 0 then JNaN else JInfinity (interval <? 0)
  else if 2 ^ 1024 <=? Z.abs interval * 2 ^ Z.of_nat attempts then JInfinity (interval <? 0)
  else JInt (interval * 2 ^ Z.of_nat attempts).

(** Where the double is the integer of the engine. *)
Definition exactDelay (interval : Z) (attempts : nat) : Prop :=
  Z.abs interval < 2 ^ 53 ∧ Z.of_nat attempts < 1024
  ∧ Z.abs interval * 2 ^ Z.of_nat attempts < 2 ^ 1024.

(** What the world sees of one subscription: the notifications delivered to
    the subscriber and the requests handed to the transport. *)
Inductive Action : Type :=
  | Next (value : JsVal)
  | Complete
  | HttpGet (url : string).

(** Pending work. Every pipeline the service subscribes to is cut by
    [takeUntil(cancelSignal)]. A wait is identified by the value [attempts]
    had when it began. *)
Inductive TaskKind : Type :=
  | Response (o : Outcome)
      (* the GET of [fetchData], answered at the task's due time *)
  | RetryTimer
      (* [timer(delay)] of [retryFetchAfterDelay] *)
  | TickStop (wait : nat)
      (* [timer(delay)], the notifier of [takeUntil] in [sendLiveUpdates] *)
  | Tick (wait : nat) (retryEndTime : Z) (errorCode : ErrorCodes).
      (* the next emission of [timer(0, updateInterval)] in [sendLiveUpdates] *)

Record Task : Type := { due : Z; kind : TaskKind }.

Record State : Type := mkState {
  now : Z;                      (* Date.now() *)
  attempts : nat;               (* [let attempts] in [request] *)
  isStopped : bool;             (* the subscriber has completed *)
  requests : nat;               (* GETs issued so far *)
  tasks : list Task;            (* pending work, in order of subscription *)
  trace : list (Z * Action)     (* what happened, with the clock reading *)
}.

(** What one run of the stream closes over, and the transport: the [n]-th
    request, issued at time [t], is answered [fst (backend n t)]
    milliseconds later with the outcome [snd (backend n t)]. *)
Record Context : Type := {
  url : string;
  options : RetryOptions;
  startTime : Z;
  backend : nat → Z → Z * Outcome
}.

Definition setNow (t : Z) (s : State) : State :=
  mkState t (attempts s) (isStopped s) (requests s) (tasks s) (trace s).

Definition setTasks (ts : list Task) (s : State) : State :=
  mkState (now s) (attempts s) (isStopped s) (requests s) ts (trace s).

Definition record (a : Action) (s : State) : State :=
  mkState (now s) (attempts s) (isStopped s) (requests s) (tasks s) (trace s ++ [(now s, a)]).

(** Subscribing to [timer(d)...]: the task runs [max d 0] from now. *)
Definition schedule (d : Z) (k : TaskKind) (s : State) : State :=
  setTasks (tasks s ++ [{| due := now s + Z.max d 0; kind := k |}]) s.

(** [observer.next(value)]: a stopped subscriber drops it. *)
Definition sendResponse (serviceResponse : JsVal) (s : State) : State :=
  if isStopped s then s else record (Next serviceResponse) s.

(** [observer.complete()] *)
Definition completeOperation (s : State) : State :=
  if isStopped s then s
  else mkState (now s) (attempts s) true (requests s) (tasks s) (trace s ++ [(now s, Complete)]).

(** The period at which the host re-arms a repeating timer: the clock has
    a resolution of one millisecond, and a period of [0] is served at it. *)
Definition tickPeriod (updateInterval : Z) : Z := Z.max updateInterval 1.

(** The task that is due first; of several due at the same time, the one
    subscribed first. *)
Fixpoint pickNext (ts : list Task) : option (Task * list Task) :=
  match ts with
  | [] => None
  | t :: rest =>
      match pickNext rest with
      | None => Some (t, [])
      | Some (u, rest') =>
          if due u <? due t then Some (u, t :: rest') else Some (t, rest)
      end
  end.

Definition isTickOf (wait : nat) (t : Task) : bool :=
  match kind t with
  | Tick w _ _ => Nat.eqb w wait
  | _ => false
  end.

Section Engine.

Variable ctx : Context.

Let opts := options ctx.

Definition sendAndCompleteResponse (serviceResponse : JsVal) (s : State) : State :=
  completeOperation (sendResponse (dataEvent serviceResponse) s).

Definition sendErrorResponse (errorCode : ErrorCodes) (additionalData : gmap string JsVal)
    (s : State) : State :=
  sendResponse (errorEvent errorCode additionalData) s.

Definition sendErrorAndCompleteResponse (errorCode : ErrorCodes)
    (additionalData : gmap string JsVal) (s : State) : State :=
  completeOperation (sendErrorResponse errorCode additionalData s).

(** [computeTotalDelay(startTime)], in milliseconds *)
Definition computeTotalDelay (s : State) : Z := now s - startTime ctx.

Definition sendMaxRetriesError (errorCode : ErrorCodes) (s : State) : State :=
  let totalDelay := computeTotalDelay s in
  sendErrorAndCompleteResponse errorCode
    (maxRetriesData totalDelay (attempts s) (retries opts)) s.

Definition sendAttemptsUpdate (errorCode : ErrorCodes) (s : State) : State :=
  sendErrorResponse errorCode (attemptsUpdateData (attempts s) (retries opts)) s.

(** [timer(0, updateInterval).pipe(takeUntil(cancelSignal),
    takeUntil(timer(delay)), map(...))]: [takeUntil] subscribes to its
    notifier before its source. *)
Definition sendLiveUpdates (delay : Z) (errorCode : ErrorCodes) (s : State) : State :=
  let retryEndTime := now s + delay in
  schedule 0 (Tick (attempts s) retryEndTime errorCode)
    (schedule delay (TickStop (attempts s)) s).

(** One emission of the countdown. *)
Definition liveUpdate (wait : nat) (retryEndTime : Z) (errorCode : ErrorCodes)
    (s : State) : State :=
  let remainingTime := Z.max (retryEndTime - now s) 0 in
  sendResponse (errorEvent errorCode (liveUpdateData remainingTime wait (retries opts))) s.

(** [fetchData(...).subscribe(checkResponseObserver)] *)
Definition fetchData (s : State) : State :=
  let s := if noUpdates opts then s else sendResponse loadingEvent s in
  let answer := backend ctx (requests s) (now s) in
  mkState (now s) (attempts s) (isStopped s) (S (requests s))
          (tasks s ++ [{| due := now s + fst answer; kind := Response (snd answer) |}])
          (trace s ++ [(now s, HttpGet (url ctx))]).

Definition retryFetchAfterDelay (delay : Z) (s : State) : State :=
  schedule delay RetryTimer s.

Definition incrementAttempts (s : State) : State :=
  mkState (now s) (S (attempts s)) (isStopped s) (requests s) (tasks s) (trace s).

Definition scheduleRetry (errorCode : ErrorCodes) (s : State) : State :=
  if retries opts <=? Z.of_nat (attempts s) then sendMaxRetriesError errorCode s
  else
    let delayBeforeRetry :=
      calculateDelayBeforeRetry (interval opts) (attempts s) (strategy opts) in
    let s :=
      if noUpdates opts then s
      else if liveUpdates opts then sendLiveUpdates delayBeforeRetry errorCode s
      else sendAttemptsUpdate errorCode s in
    let s := incrementAttempts s in
    retryFetchAfterDelay delayBeforeRetry s.

Definition checkResponseObserver (o : Outcome) (s : State) : State :=
  match o with
  | HttpResponse status body =>
      if checkForValidResponse status body then sendAndCompleteResponse body s
      else if retryOnUnexpectedFormat opts then scheduleRetry UNEXPECTED_RESPONSE_FORMAT s
      else sendErrorAndCompleteResponse UNEXPECTED_RESPONSE_FORMAT ∅ s
  | HttpErrorResponse status error =>
      if checkResponseForRetry status error then scheduleRetry DATA_NOT_READY_YET s
      else if retryOnServerFailure opts then scheduleRetry UNKNOWN_ERROR s
      else sendErrorAndCompleteResponse UNKNOWN_ERROR ∅ s
  end.

(** Running a task that has come due. *)
Definition runTask (k : TaskKind) (s : State) : State :=
  match k with
  | Response o => checkResponseObserver o s
  | RetryTimer => fetchData s
  | TickStop wait => setTasks (List.filter (λ t, negb (isTickOf wait t)) (tasks s)) s
  | Tick wait retryEndTime errorCode =>
      schedule (tickPeriod (updateInterval opts)) (Tick wait retryEndTime errorCode)
        (liveUpdate wait retryEndTime errorCode s)
  end.

(** The scheduler: advance the clock to the next task and run it. *)
Definition step (s : State) : option State :=
  match pickNext (tasks s) with
  | None => None
  | Some (t, rest) => Some (runTask (kind t) (setTasks rest (setNow (due t) s)))
  end.

(** [cancelSignal] emits when the clock reads [t]: the subscription made in
    [request] completes the subscriber, then every [takeUntil(cancelSignal)]
    tears its pipeline down. *)
Definition cancel (t : Z) (s : State) : State :=
  setTasks [] (completeOperation (setNow t s)).

(** Subscribing, at time [t], to the stream [request] returned. *)
Definition subscribe (attempts0 : nat) (t : Z) : State :=
  fetchData (mkState t attempts0 false 0 [] []).

Fixpoint run (fuel : nat) (s : State) : State :=
  match fuel with
  | O => s
  | S fuel' =>
      match step s with
      | None => s
      | Some s' => run fuel' s'
      end
  end.

End Engine.

(** ** The caller: [RetryServiceComponent] *)

(** A stream the component subscribed to, with the transport that answers
    its requests. *)
Record Stream : Type := {
  st_ctx : Context;
  st_state : State
}.

(** The component passes the same [cancel$] subject to every [get], so all
    its streams listen to one cancel signal. [c_seen] is what happened, in
    the order in which it happened: the index of the stream, the clock
    reading and the action. *)
Record Component : Type := {
  c_url : string;               (* @Input url *)
  c_retryOptions : loc;         (* @Input retryOptions *)
  c_streams : list Stream;
  c_seen : list (nat * (Z * Action))
}.

(** What stream [i] did between two of its states. *)
Definition emitted (i : nat) (old new : State) : list (nat * (Z * Action)) :=
  map (pair i) (drop (length (trace old)) (trace new)).

(** [this.cancel$.next()]: the subject notifies its subscribers in the
    order in which they subscribed. *)
Fixpoint cancelFrom (i : nat) (t : Z) (streams : list Stream)
    : list Stream * list (nat * (Z * Action)) :=
  match streams with
  | [] => ([], [])
  | st :: rest =>
      let s' := cancel t (st_state st) in
      let r := cancelFrom (S i) t rest in
      ({| st_ctx := st_ctx st; st_state := s' |} :: r.1,
       emitted i (st_state st) s' ++ r.2)
  end.

(** Subscribing to the stream of an operation whose options object has the
    declared types; other option objects are outside this model. *)
Definition subscribeOperation (op : Operation) (h : Heap) (transport : nat → Z → Z * Outcome)
    (t : Z) : option Stream :=
  o ← readOptions (objectAt (op_options op) h);
  let ctx := {| url := op_url op; options := o; startTime := op_startTime op;
                backend := transport |} in
  Some {| st_ctx := ctx; st_state := subscribe ctx (op_attempts op) t |}.

(** [loadData()], called when the clock reads [t]. The result is the
    component, the store and the exception [get] threw, if any. *)
Definition loadData (service : HttpRetryService) (transport : nat → Z → Z * Outcome)
    (t : Z) (c : Component) (h : Heap) : option (Component * Heap * option Thrown) :=
  (* this.cancel$.next() *)
  let cancelled := cancelFrom 0 t (c_streams c) in
  let c1 := {| c_url := c_url c; c_retryOptions := c_retryOptions c;
               c_streams := cancelled.1; c_seen := c_seen c ++ cancelled.2 |} in
  (* this.httpRetryService.get(...).pipe(...).subscribe(...) *)
  match get service (c_url c) (c_retryOptions c) t h with
  | (h', inl e) => Some (c1, h', Some e)
  | (h', inr op) =>
      st ← subscribeOperation op h' transport t;
      Some ({| c_url := c_url c; c_retryOptions := c_retryOptions c;
               c_streams := c_streams c1 ++ [st];
               c_seen := c_seen c1
                         ++ map (pair (length (c_streams c1))) (trace (st_state st)) |},
            h', None)
  end.

(** Between two calls of the component, any of its streams may run its
    next task. *)
Inductive comp_step : Component → Component → Prop :=
  | comp_step_stream c i st s' :
      c_streams c !! i = Some st →
      step (st_ctx st) (st_state st) = Some s' →
      comp_step c
        {| c_url := c_url c; c_retryOptions := c_retryOptions c;
           c_streams := <[i := {| st_ctx := st_ctx st; st_state := s' |}]> (c_streams c);
           c_seen := c_seen c ++ emitted i (st_state st) s' |}.

Definition live (st : Stream) : bool := negb (isStopped (st_state st)).

(** A caller that invokes [get] and subscribes to the stream it returns,
    as the second statement of [loadData] does, without raising its cancel
    signal first: [get] raises no signal itself. *)
Definition getAndSubscribe (service : HttpRetryService) (transport : nat → Z → Z * Outcome)
    (t : Z) (c : Component) (h : Heap) : option (Component * Heap * option Thrown) :=
  match get service (c_url c) (c_retryOptions c) t h with
  | (h', inl e) => Some (c, h', Some e)
  | (h', inr op) =>
      st ← subscribeOperation op h' transport t;
      Some ({| c_url := c_url c; c_retryOptions := c_retryOptions c;
               c_streams := c_streams c ++ [st];
               c_seen := c_seen c
                         ++ map (pair (length (c_streams c))) (trace (st_state st)) |},
            h', None)
  end.

(** [this.cancel$.next()], the first statement of [loadData]. *)
Definition raiseCancel (t : Z) (c : Component) : Component :=
  let cancelled := cancelFrom 0 t (c_streams c) in
  {| c_url := c_url c; c_retryOptions := c_retryOptions c;
     c_streams := cancelled.1; c_seen := c_seen c ++ cancelled.2 |}.

(** Stream [i] of the component runs its next task: [comp_step] as a
    function. *)
Definition stepStream (i : nat) (c : Component) : option Component :=
  st ← c_streams c !! i;
  s' ← step (st_ctx st) (st_state st);
  Some {| c_url := c_url c; c_retryOptions := c_retryOptions c;
          c_streams := <[i := {| st_ctx := st_ctx st; st_state := s' |}]> (c_streams c);
          c_seen := c_seen c ++ emitted i (st_state st) s' |}.

(** ** Vocabulary of the statements *)

(** The value an option has after the merge [{...defaultOptions, ...options}]. *)
Definition mergedOption (this : HttpRetryService) (options : loc) (h : Heap) (k : string)
    : JsVal :=
  default JUndefined (spread (objectAt (defaultOptions this) h) (objectAt options h) !! k).

(** [v] is an integer between [0] and [max]. *)
Definition integerUpTo (max : Z) (v : JsVal) : Prop :=
  ∃ z, asInteger v = Some z ∧ 0 ≤ z ≤ max.

Definition isStrategyName (v : JsVal) : Prop :=
  v = JStr "linear" ∨ v = JStr "exponential".

Definition throws {A : Type} (r : Thrown + A) : Prop := ∃ e, r = inl e.

(** How the observer answers an outcome. *)
Inductive Verdict : Type :=
  | Deliver (body : JsVal)
  | Fail (errorCode : ErrorCodes)
  | Retry (errorCode : ErrorCodes).

Definition verdict (ctx : Context) (o : Outcome) : Verdict :=
  match classify o with
  | Ready body => Deliver body
  | NotReadyRetryable => Retry DATA_NOT_READY_YET
  | FormatInvalid =>
      if retryOnUnexpectedFormat (options ctx) then Retry UNEXPECTED_RESPONSE_FORMAT
      else Fail UNEXPECTED_RESPONSE_FORMAT
  | ServerFailure =>
      if retryOnServerFailure (options ctx) then Retry UNKNOWN_ERROR
      else Fail UNKNOWN_ERROR
  end.

(** A request is in flight and nothing else is pending: its outcome [o]
    arrives at time [d]. *)
Definition awaiting (s : State) (d : Z) (o : Outcome) : Prop :=
  isStopped s = false ∧ tasks s = [{| due := d; kind := Response o |}].

(** The state in which the observer handles the outcome that arrives at [d]. *)
Definition handling (d : Z) (s : State) : State := setTasks [] (setNow d s).

Definition isNext (e : Z * Action) : bool :=
  match e.2 with Next _ => true | _ => false end.

Definition isGet (e : Z * Action) : bool :=
  match e.2 with HttpGet _ => true | _ => false end.

(** The number of events delivered, and of requests issued. *)
Definition nexts (tr : list (Z * Action)) : nat := length (List.filter isNext tr).
Definition gets (tr : list (Z * Action)) : nat := length (List.filter isGet tr).

(** The times at which the requests were issued. *)
Definition requestTimes (tr : list (Z * Action)) : list Z := (List.filter isGet tr).*1.

(** The countdown of a wait that begins at [t0] and lasts [D]: tick [j]
    falls at [t0 + j * period], as long as that is before [t0 + D]. *)
Definition tickCount (D period : Z) : nat := Z.to_nat ((Z.max D 0 + period - 1) / period).

Definition tickEntry (ctx : Context) (errorCode : ErrorCodes) (attempts : nat) (t0 D : Z)
    (j : nat) : Z * Action :=
  let t := t0 + Z.of_nat j * tickPeriod (updateInterval (options ctx)) in
  (t, Next (errorEvent errorCode
              (liveUpdateData (Z.max (t0 + D - t) 0) attempts (retries (options ctx))))).

Definition countdown (ctx : Context) (errorCode : ErrorCodes) (attempts : nat) (t0 D : Z)
    (n : nat) : list (Z * Action) :=
  tickEntry ctx errorCode attempts t0 D <$> seq 0 n.

(** What a wait that begins at [t0] after [attempts] retries emits. *)
Definition updatesOfWait (ctx : Context) (errorCode : ErrorCodes) (attempts : nat) (t0 : Z)
    : list (Z * Action) :=
  let D := calculateDelayBeforeRetry (interval (options ctx)) attempts
             (strategy (options ctx)) in
  if noUpdates (options ctx) then []
  else if liveUpdates (options ctx) then
    countdown ctx errorCode attempts t0 D
      (tickCount D (tickPeriod (updateInterval (options ctx))))
  else [(t0, Next (errorEvent errorCode (attemptsUpdateData attempts (retries (options ctx)))))].

(** The state in which the next request is in flight, after the wait that
    the outcome handled in [s] begins. *)
Definition nextRound (ctx : Context) (errorCode : ErrorCodes) (s : State) : State :=
  let D := calculateDelayBeforeRetry (interval (options ctx)) (attempts s)
             (strategy (options ctx)) in
  fetchData ctx
    (mkState (now s + Z.max D 0) (S (attempts s)) false (requests s) []
             (trace s ++ updatesOfWait ctx errorCode (attempts s) (now s))).

(** The outcomes that end the run: those that are not retried, and any
    outcome once the retries are used up. *)
Definition final (ctx : Context) (o : Outcome) (s : State) : Prop :=
  ∀ errorCode, verdict ctx o = Retry errorCode → retries (options ctx) ≤ Z.of_nat (attempts s).

(** Options within the bounds validation enforces. *)
Definition validOptions (o : RetryOptions) : Prop :=
  0 ≤ retries o ≤ MAX_RETRIES
  ∧ 0 ≤ interval o ≤ MAX_RETRY_INTERVAL
  ∧ 0 ≤ updateInterval o ≤ MAX_UPDATE_INTERVAL
  ∧ (strategy o = "linear" ∨ strategy o = "exponential").

(** The not-ready answer of the backend: status 404, [ready: false]. *)
Definition notReady (o : Outcome) : Prop :=
  ∃ error, o = HttpErrorResponse 404 error ∧ getProp "ready" error = JBool false.

(** An entry of the trace before the end of the run: not the completion,
    and not an event that reports a total delay. *)
Definition intermediate (e : Z * Action) : Prop :=
  match e.2 with
  | Next v => getProp "totalDelay" (getProp "error" v) = JUndefined
  | Complete => False
  | HttpGet _ => True
  end.

(** A [{loading: true}] event *)
Definition isLoading (e : Z * Action) : bool :=
  match e.2 with
  | Next v => strictEqBool (getProp "loading" v) true
  | _ => false
  end.

Definition loadings (tr : list (Z * Action)) : nat := length (List.filter isLoading tr).

(** The request after request [k] leaves when the answer to request [k]
    has arrived and the delay computed for [k] performed retries is over. *)
Definition spaced (ctx : Context) (times : list Z) : Prop :=
  ∀ (k : nat) (t t' : Z),
    times !! k = Some t → times !! S k = Some t' →
    t' = t + (backend ctx k t).1
         + calculateDelayBeforeRetry (interval (options ctx)) k (strategy (options ctx)).

(** What an update that reports [a] retries performed out of [M] carries,
    read off the event itself: the count, the maximum, no total delay, and
    the message, which in a countdown also tells the seconds that remain. *)
Definition reportsAttempt (liveUpdates : bool) (a : nat) (M : Z) (v : JsVal) : Prop :=
  let e := getProp "error" v in
  getProp "attempts" e = JInt (Z.of_nat a)
  ∧ getProp "maxRetries" e = JInt M
  ∧ getProp "totalDelay" e = JUndefined
  ∧ if liveUpdates
    then ∃ rem, 0 ≤ rem
           ∧ getProp "delay" e = JInt rem
           ∧ getProp "message" e
             = JStr ("Retrying in " +:+ pretty (ceilSeconds rem)
                     +:+ " seconds... (Attempt " +:+ pretty (Z.of_nat a)
                     +:+ " of " +:+ pretty M +:+ ")")
    else getProp "delay" e = JUndefined
         ∧ getProp "message" e
           = JStr ("Attempt " +:+ pretty (Z.of_nat a) +:+ " of " +:+ pretty M).

(** An event that comes before the end of a run, [k] requests having been
    issued: the [{loading: true}] of the next request, or an update of the
    wait before retry [k]. *)
Definition updateAfter (ctx : Context) (k : nat) (v : JsVal) : Prop :=
  v = loadingEvent
  ∨ ((1 ≤ k)%nat ∧ noUpdates (options ctx) = false
     ∧ reportsAttempt (liveUpdates (options ctx)) (pred k) (retries (options ctx)) v).

Fixpoint updates (ctx : Context) (k : nat) (tr : list (Z * Action)) : Prop :=
  match tr with
  | [] => True
  | (_, Next v) :: tr' => updateAfter ctx k v ∧ updates ctx k tr'
  | (_, Complete) :: _ => False
  | (_, HttpGet _) :: tr' => updates ctx (S k) tr'
  end.

(** The update of the wait before retry [k] is in the trace, and a request
    follows it. *)
Definition updateBefore (ctx : Context) (k : nat) (tr : list (Z * Action)) : Prop :=
  ∃ pre t v post,
    tr = pre ++ (t, Next v) :: post ∧ gets pre = k ∧ gets post ≠ 0%nat
    ∧ getProp "loading" v ≠ JBool true
    ∧ reportsAttempt (liveUpdates (options ctx)) (pred k) (retries (options ctx)) v.

(** How a run that is not cancelled is laid out: updates up to the last
    request, then the last event and the completion. *)
Definition laidOut (ctx : Context) (s : State) : Prop :=
  ∃ pre d v,
    trace s = pre ++ [(d, Next v); (d, Complete)]
    ∧ updates ctx 0 pre
    ∧ gets pre = S (attempts s)
    ∧ (∃ before t u, pre = before ++ [(t, HttpGet u)])
    ∧ (noUpdates (options ctx) = false →
       liveUpdates (options ctx) = false ∨ 0 < interval (options ctx) →
       ∀ k, (1 ≤ k ≤ attempts s)%nat → updateBefore ctx k pre)
    ∧ (getProp "ready" v = JBool true
       ∨ getProp "totalDelay" (getProp "error" v) = JUndefined
       ∨ (getProp "attempts" (getProp "error" v) = JInt (Z.of_nat (attempts s))
          ∧ getProp "maxRetries" (getProp "error" v) = JInt (retries (options ctx)))).

(** An event that comes before the last one when only the attempts are
    reported. *)
Definition plainUpdate (ctx : Context) (e : Z * Action) : Prop :=
  ∀ v, e.2 = Next v →
    v = loadingEvent
    ∨ ∃ errorCode a,
        v = errorEvent errorCode (attemptsUpdateData a (retries (options ctx))).

(** [s'] continues the trace of [s]. *)
Definition extends (s s' : State) : Prop := ∃ l, trace s' = trace s ++ l.

(** A stream that has ended and has nothing pending. *)
Definition ended (st : Stream) : Prop :=
  isStopped (st_state st) = true ∧ tasks (st_state st) = [].

(** The streams before index [n0] have ended and at most one follows. *)
Definition superseded (n0 : nat) (c : Component) : Prop :=
  Forall ended (take n0 (c_streams c)) ∧ (length (c_streams c) ≤ S n0)%nat.

(** The completions a cancel signal raised at [t] delivers: one for each
    live stream, in the order of the streams. *)
Definition completionsAt (t : Z) (streams : list Stream) : list (nat * (Z * Action)) :=
  mjoin (imap (λ i st, if live st then [(i, (t, Complete))] else []) streams).

(** The stream after the cancel signal. *)
Definition afterCancel (t : Z) (st : Stream) : Stream :=
  {| st_ctx := st_ctx st; st_state := cancel t (st_state st) |}.

(** ** The states of a run *)

(** The states a stream goes through once it is subscribed to at [t0]: the
    scheduler runs the next task, or the cancel signal emits, not before
    the clock reading of the last task that ran. *)
Inductive reachable (ctx : Context) (t0 : Z) : State → Prop :=
  | reachable_subscribe :
      reachable ctx t0 (subscribe ctx 0 t0)
  | reachable_step s s' :
      reachable ctx t0 s → step ctx s = Some s' → reachable ctx t0 s'
  | reachable_cancel s t :
      reachable ctx t0 s → now s ≤ t → reachable ctx t0 (cancel t s).

(** What can be pending on a stream: one request and nothing else; the
    retry timer, alone or with the two timers of the countdown of the wait
    in progress; or, once the subscriber has completed, nothing. *)
Inductive phase : State → Prop :=
  | phase_request t a tr d o :
      phase (mkState t a false (S a) [{| due := d; kind := Response o |}] tr)
  | phase_retry t a tr e :
      phase (mkState t (S a) false (S a) [{| due := e; kind := RetryTimer |}] tr)
  | phase_countdown_first t a tr e d re code :
      phase (mkState t (S a) false (S a)
               [{| due := e; kind := TickStop a |};
                {| due := d; kind := Tick a re code |};
                {| due := e; kind := RetryTimer |}] tr)
  | phase_countdown t a tr e d re code :
      phase (mkState t (S a) false (S a)
               [{| due := e; kind := TickStop a |};
                {| due := e; kind := RetryTimer |};
                {| due := d; kind := Tick a re code |}] tr)
  | phase_ended t a r tr :
      (a ≤ r ≤ S a)%nat → phase (mkState t a true r [] tr).

(** The event that ends the run when the outcome [o] is handled at time
    [d], after [a] retries. *)
Definition lastEvent (ctx : Context) (o : Outcome) (d : Z) (a : nat) : JsVal :=
  match verdict ctx o with
  | Deliver body => dataEvent body
  | Fail errorCode => errorEvent errorCode ∅
  | Retry errorCode =>
      errorEvent errorCode (maxRetriesData (d - startTime ctx) a (retries (options ctx)))
  end.

(** One step of the scheduler, phase by phase. *)
Inductive moves (ctx : Context) : State → State → Prop :=
  | moves_final t a tr d o :
      (∀ errorCode, verdict ctx o = Retry errorCode → retries (options ctx) ≤ Z.of_nat a) →
      moves ctx
        (mkState t a false (S a) [{| due := d; kind := Response o |}] tr)
        (mkState d a true (S a) []
           (tr ++ [(d, Next (lastEvent ctx o d a)); (d, Complete)]))
  | moves_wait_silent t a tr d o code :
      verdict ctx o = Retry code → Z.of_nat a < retries (options ctx) →
      noUpdates (options ctx) = true →
      let D := calculateDelayBeforeRetry (interval (options ctx)) a (strategy (options ctx)) in
      moves ctx
        (mkState t a false (S a) [{| due := d; kind := Response o |}] tr)
        (mkState d (S a) false (S a) [{| due := d + Z.max D 0; kind := RetryTimer |}] tr)
  | moves_wait_update t a tr d o code :
      verdict ctx o = Retry code → Z.of_nat a < retries (options ctx) →
      noUpdates (options ctx) = false → liveUpdates (options ctx) = false →
      let D := calculateDelayBeforeRetry (interval (options ctx)) a (strategy (options ctx)) in
      moves ctx
        (mkState t a false (S a) [{| due := d; kind := Response o |}] tr)
        (mkState d (S a) false (S a) [{| due := d + Z.max D 0; kind := RetryTimer |}]
           (tr ++ [(d, Next (errorEvent code (attemptsUpdateData a (retries (options ctx)))))]))
  | moves_wait_live t a tr d o code :
      verdict ctx o = Retry code → Z.of_nat a < retries (options ctx) →
      noUpdates (options ctx) = false → liveUpdates (options ctx) = true →
      let D := calculateDelayBeforeRetry (interval (options ctx)) a (strategy (options ctx)) in
      moves ctx
        (mkState t a false (S a) [{| due := d; kind := Response o |}] tr)
        (mkState d (S a) false (S a)
           [{| due := d + Z.max D 0; kind := TickStop a |};
            {| due := d + Z.max 0 0; kind := Tick a (d + D) code |};
            {| due := d + Z.max D 0; kind := RetryTimer |}] tr)
  | moves_tick t a tr e d re code ts :
      d < e →
      ts = [{| due := e; kind := TickStop a |}; {| due := d; kind := Tick a re code |};
            {| due := e; kind := RetryTimer |}]
      ∨ ts = [{| due := e; kind := TickStop a |}; {| due := e; kind := RetryTimer |};
              {| due := d; kind := Tick a re code |}] →
      moves ctx
        (mkState t (S a) false (S a) ts tr)
        (mkState d (S a) false (S a)
           [{| due := e; kind := TickStop a |}; {| due := e; kind := RetryTimer |};
            {| due := d + tickPeriod (updateInterval (options ctx));
               kind := Tick a re code |}]
           (tr ++ [(d, Next (errorEvent code
                               (liveUpdateData (Z.max (re - d) 0) a (retries (options ctx)))))]))
  | moves_stop t a tr e d re code ts :
      e ≤ d →
      ts = [{| due := e; kind := TickStop a |}; {| due := d; kind := Tick a re code |};
            {| due := e; kind := RetryTimer |}]
      ∨ ts = [{| due := e; kind := TickStop a |}; {| due := e; kind := RetryTimer |};
              {| due := d; kind := Tick a re code |}] →
      moves ctx
        (mkState t (S a) false (S a) ts tr)
        (mkState e (S a) false (S a) [{| due := e; kind := RetryTimer |}] tr)
  | moves_fetch t a tr e :
      moves ctx
        (mkState t (S a) false (S a) [{| due := e; kind := RetryTimer |}] tr)
        (mkState e (S a) false (S (S a))
           [{| due := e + (backend ctx (S a) e).1; kind := Response (backend ctx (S a) e).2 |}]
           (tr ++ (if noUpdates (options ctx) then [] else [(e, Next loadingEvent)])
               ++ [(e, HttpGet (url ctx))])).


(** Every request is announced: unless [noUpdates] is set, the entry before
    a GET is the [{loading: true}] event of the same instant; and a
    [{loading: true}] event is followed at once by its GET. *)
Definition announced (ctx : Context) (tr : list (Z * Action)) : Prop :=
  (∀ i t u, tr !! i = Some (t, HttpGet u) →
     u = url ctx
     ∧ (noUpdates (options ctx) = false →
        ∃ j, i = S j ∧ tr !! j = Some (t, Next loadingEvent)))
  ∧ (∀ j t v, tr !! j = Some (t, Next v) → getProp "loading" v = JBool true →
       noUpdates (options ctx) = false ∧ v = loadingEvent
       ∧ tr !! S j = Some (t, HttpGet (url ctx))).

(** The entries of a trace are in the order of their times. *)
Definition chronological (tr : list (Z * Action)) : Prop :=
  ∀ (i j : nat) e e', (i ≤ j)%nat → tr !! i = Some e → tr !! j = Some e' → e.1 ≤ e'.1.

(** ** How a run ends *)

(** The state in which a run has ended by itself: the answers to all the
    requests but the last were retried, the answer to the last one, which
    arrived at the last clock reading, was not, and the event it calls for
    and the completion close the trace. *)
Definition settled (ctx : Context) (s : State) : Prop :=
  ∃ pre t,
    let k := attempts s in
    let o := (backend ctx k t).2 in
    requests s = S k
    ∧ length (requestTimes (trace s)) = S k
    ∧ requestTimes (trace s) !! k = Some t
    ∧ now s = t + (backend ctx k t).1
    ∧ final ctx o s
    ∧ trace s = pre ++ [(now s, Next (lastEvent ctx o (now s) k)); (now s, Complete)]
    ∧ Z.of_nat k ≤ Z.max (retries (options ctx)) 0
    ∧ ∀ j tj, (j < k)%nat → requestTimes (trace s) !! j = Some tj →
        ∃ errorCode, verdict ctx (backend ctx j tj).2 = Retry errorCode.

(** The time spent waiting before request [k] (from 0): [k] intervals
    under the linear strategy, and [interval * (1 + 2 + ... + 2^(k-1))]
    otherwise. *)
Definition waitedBefore (o : RetryOptions) (k : nat) : Z :=
  if String.eqb (strategy o) "linear" then Z.of_nat k * interval o
  else interval o * (2 ^ Z.of_nat k - 1).

(** A later subscription to the stream of the same operation: [attempts] is
    a variable of [request], which all the subscriptions of the stream it
    returns share, so the new one starts from the count [earlier] left. *)
Definition resubscribe (ctx : Context) (earlier : State) (t : Z) : State :=
  subscribe ctx (attempts earlier) t.

(** ** Unsubscribing *)

(** [subscription.unsubscribe()]: the function [request] passes to
    [new Observable] returns no teardown and adds none to the subscriber, so
    unsubscribing closes the subscriber, which then drops what it is sent,
    and leaves the pipelines the stream has subscribed to as they are. *)
Definition unsubscribe (s : State) : State :=
  mkState (now s) (attempts s) true (requests s) (tasks s) (trace s).

(** What the engine decides by: the clock, the counters and the pending
    tasks. *)
Definition control (s : State) : Z * nat * nat * list Task :=
  (now s, attempts s, requests s, tasks s).

(** ** Validation *)

(** The four options validation coerces to booleans. *)
Definition flagNames : list string :=
  ["retryOnUnexpectedFormat"; "retryOnServerFailure"; "noUpdates"; "liveUpdates"].

(** A number option that passes its check: [undefined], or an integer
    between [0] and [max]. *)
Definition numberAccepted (max : Z) (v : JsVal) : Prop :=
  v = JUndefined ∨ integerUpTo max v.

(** ** The fields of [RetryServiceComponent] *)

(** [String(v)] for the values of this model; the decimal expansion of a
    number that is not an integer below [10^21] in magnitude is outside it. *)
Definition toStringJs (v : JsVal) : option string :=
  match v with
  | JUndefined => Some "undefined"
  | JNull => Some "null"
  | JBool b => Some (if b then "true" else "false")
  | JNum _ =>
      match asInteger v with
      | Some z => if Z.abs z <? 10 ^ 21 then Some (pretty z) else None
      | None => None
      end
  | JNaN => Some "NaN"
  | JInfinity negative => Some (if negative then "-Infinity" else "Infinity")
  | JStr s => Some s
  | JObj _ => Some "[object Object]"
  end.

(** [v || ''] *)
Definition orEmpty (v : JsVal) : JsVal := if truthy v then v else JStr EmptyString.

(** [v] is [null] or [undefined]: reading a property of it throws. *)
Definition isNullish (v : JsVal) : bool :=
  match v with
  | JUndefined | JNull => true
  | _ => false
  end.

(** What the template of the component shows. *)
Record Fields : Type := {
  data : JsVal;
  errorMessage : string;
  operationInProgress : bool;
  requestLoading : JsVal
}.

(** The fields of a new component. *)
Definition initialFields : Fields :=
  {| data := JNull; errorMessage := EmptyString;
     operationInProgress := false; requestLoading := JBool false |}.

(** The [next] callback [loadData] subscribes with. *)
Definition next (response : JsVal) (c : Fields) : option Fields :=
  if isNullish response then None
  else
    let requestLoading' :=
      if isDefined (getProp "loading" response) then getProp "loading" response
      else requestLoading c in
    if truthy (getProp "ready" response) then
      Some {| data := getProp "data" response; errorMessage := EmptyString;
              operationInProgress := operationInProgress c;
              requestLoading := requestLoading' |}
    else
      errorMessage' ←
        (if truthy (getProp "error" response) then
           a ← toStringJs (orEmpty (getProp "errorMessage" (getProp "error" response)));
           b ← toStringJs (orEmpty (getProp "message" (getProp "error" response)));
           Some (a +:+ (" " +:+ b))
         else Some (errorMessage c));
      Some {| data := JNull; errorMessage := errorMessage';
              operationInProgress := operationInProgress c;
              requestLoading := requestLoading' |}.

(** The [complete] callback. *)
Definition complete (c : Fields) : Fields :=
  {| data := data c; errorMessage := errorMessage c;
     operationInProgress := false; requestLoading := JBool false |}.

(** What an entry of the history does to the fields: the notifications
    reach the callbacks, a request is none. *)
Definition notify (a : Action) (c : Fields) : option Fields :=
  match a with
  | Next value => next value c
  | Complete => Some (complete c)
  | HttpGet _ => Some c
  end.

Fixpoint deliver (seen : list (nat * (Z * Action))) (c : Fields) : option Fields :=
  match seen with
  | [] => Some c
  | e :: rest => c' ← notify e.2.2 c; deliver rest c'
  end.

(** What a call added to the history of the component. *)
Definition added (c c' : Component) : list (nat * (Z * Action)) :=
  drop (length (c_seen c)) (c_seen c').

(** [loadData()] with the fields of the component: the flag is set before
    the cancel signal is raised, and the callbacks run as the signal
    completes the earlier streams and as the new stream starts. *)
Definition loadDataFields (service : HttpRetryService) (transport : nat → Z → Z * Outcome)
    (t : Z) (c : Component) (h : Heap) (f : Fields)
    : option (Component * Heap * option Thrown * Fields) :=
  let f := {| data := data f; errorMessage := errorMessage f;
              operationInProgress := true; requestLoading := requestLoading f |} in
  r ← loadData service transport t c h;
  f' ← deliver (added c r.1.1) f;
  Some (r, f').

(** [stopLoading()], called when the clock reads [t]. *)
Definition stopLoading (t : Z) (c : Component) (f : Fields) : option (Component * Fields) :=
  (* this.cancel$.next() *)
  let cancelled := cancelFrom 0 t (c_streams c) in
  f' ← deliver cancelled.2 f;
  Some ({| c_url := c_url c; c_retryOptions := c_retryOptions c;
           c_streams := cancelled.1; c_seen := c_seen c ++ cancelled.2 |},
        {| data := JNull; errorMessage := EmptyString;
           operationInProgress := operationInProgress f';
           requestLoading := requestLoading f' |}).

(** [ngOnDestroy()]: the cancel signal completes every stream before
    [unsubscribe$] emits, so that [takeUntil(this.unsubscribe$)] finds
    nothing left to cut. *)
Definition ngOnDestroy (t : Z) (c : Component) (f : Fields) : option (Component * Fields) :=
  let cancelled := cancelFrom 0 t (c_streams c) in
  f' ← deliver cancelled.2 f;
  Some ({| c_url := c_url c; c_retryOptions := c_retryOptions c;
           c_streams := cancelled.1; c_seen := c_seen c ++ cancelled.2 |},
        f').

(** The events a stream sends. *)
Inductive serviceEvent (ctx : Context) : JsVal → Prop :=
  | event_loading :
      serviceEvent ctx loadingEvent
  | event_data body :
      getProp "ready" body = JBool true → getProp "data" body ≠ JUndefined →
      serviceEvent ctx (dataEvent body)
  | event_error errorCode :
      serviceEvent ctx (errorEvent errorCode ∅)
  | event_attempts errorCode a :
      serviceEvent ctx (errorEvent errorCode (attemptsUpdateData a (retries (options ctx))))
  | event_tick errorCode remainingTime a :
      serviceEvent ctx
        (errorEvent errorCode (liveUpdateData remainingTime a (retries (options ctx))))
  | event_max errorCode totalDelay a :
      serviceEvent ctx
        (errorEvent errorCode (maxRetriesData totalDelay a (retries (options ctx)))).

(** A request is in flight. *)
Definition inFlight (s : State) : bool :=
  match tasks s with
  | [{| due := _; kind := Response _ |}] => true
  | _ => false
  end.

(** No stream of the list is live. *)
Definition allStopped (streams : list Stream) : bool :=
  forallb (λ st, isStopped (st_state st)) streams.

(** ** The test server *)

(** What a route answers: [res.status(...).jsonp(...)]. *)
Record Reply : Type := {
  reply_status : Z;
  reply_body : JsVal
}.

(** The state of the server: [let firstRequestTime = null]. *)
Record Server : Type := {
  firstRequestTime : option Z
}.

Definition newServer : Server := {| firstRequestTime := None |}.

Definition welcome : JsVal :=
  JObj {[ "ready" := JBool true; "data" := JStr "Welcome to Trimble" ]}.

(** [!firstRequestTime]: [null] is falsy, and so is the number 0. *)
Definition unset (firstRequestTime : option Z) : bool :=
  match firstRequestTime with
  | None => true
  | Some t => t =? 0
  end.

(** The handler of [GET path], run when the clock of the server reads
    [currentTime]. A path that has no route of its own is left to
    json-server, outside this model. *)
Definition route (path : string) (currentTime : Z) (server : Server)
    : option (Server * Reply) :=
  if String.eqb path "/valid-data" then
    Some (server, {| reply_status := 200; reply_body := welcome |})
  else if String.eqb path "/data-not-ready" then
    Some (server,
          {| reply_status := 404; reply_body := JObj {[ "ready" := JBool false ]} |})
  else if String.eqb path "/data-not-ready-then-ready" then
    if unset (firstRequestTime server) then
      Some ({| firstRequestTime := Some currentTime |},
            {| reply_status := 404; reply_body := JObj {[ "ready" := JBool false ]} |})
    else if 10000 <=? currentTime - default 0 (firstRequestTime server) then
      Some (server, {| reply_status := 200; reply_body := welcome |})
    else
      Some (server,
            {| reply_status := 404; reply_body := JObj {[ "ready" := JBool false ]} |})
  else if String.eqb path "/invalid-format-404" then
    Some (server, {| reply_status := 404; reply_body := welcome |})
  else if String.eqb path "/invalid-format-200" then
    Some (server,
          {| reply_status := 200;
             reply_body := JObj {[ "ready" := JBool false;
                                   "data" := JStr "Welcome to Trimble" ]} |})
  else if String.eqb path "/server-error-500" then
    Some (server,
          {| reply_status := 500; reply_body := JObj {[ "error" := JStr "500 error" ]} |})
  else None.

(** How [HttpClient] hands a reply to the observer: a status from 200 to
    299 on [next], any other on [error], with the parsed body. *)
Definition received (r : Reply) : Outcome :=
  if (200 <=? reply_status r) && (reply_status r <? 300)
  then HttpResponse (reply_status r) (reply_body r)
  else HttpErrorResponse (reply_status r) (reply_body r).

(** The replies to requests for one path that the server handles at the
    given times, one after the other. *)
Fixpoint poll (path : string) (times : list Z) (server : Server)
    : option (Server * list Reply) :=
  match times with
  | [] => Some (server, [])
  | t :: rest =>
      r ← route path t server;
      rs ← poll path rest r.1;
      Some (rs.1, r.2 :: rs.2)
  end.

(** A stream that polls [/data-not-ready-then-ready] on a server no one has
    asked before: request [n], issued at [t], reaches the server [upstream]
    milliseconds later and is answered [latency] after it was issued; the
    first request of the stream was issued at [t0]. *)
Definition thenReadyBackend (upstream latency t0 : Z) : nat → Z → Z * Outcome :=
  λ n t,
    let server :=
      if Nat.eqb n 0 then newServer else {| firstRequestTime := Some (t0 + upstream) |} in
    match route "/data-not-ready-then-ready" (t + upstream) server with
    | Some (_, r) => (latency, received r)
    | None => (latency, HttpErrorResponse 404 JNull)
    end.

(** The time between the first request of a stream and its request [k],
    when every answer takes [latency]. *)
Definition offset (o : RetryOptions) (latency : Z) (k : nat) : Z :=
  Z.of_nat k * latency + waitedBefore o k.

Definition thenReadyContext (o : RetryOptions) (start upstream latency t0 : Z) : Context :=
  {| url := "/data-not-ready-then-ready"; options := o; startTime := start;
     backend := thenReadyBackend upstream latency t0 |}.

(** ** Sample inputs *)

Definition notReadyBody : JsVal := JObj {[ "ready" := JBool false ]}.

(** The [/data-not-ready] route of the test server, answered after 10 ms. *)
Definition neverReady : nat → Z → Z * Outcome :=
  λ _ _, (10, HttpErrorResponse 404 notReadyBody).

Definition sampleOptions (liveUpdates noUpdates : bool) : RetryOptions :=
  {| retries := 2; interval := 2000; updateInterval := 1000; strategy := "exponential";
     retryOnServerFailure := false; retryOnUnexpectedFormat := false;
     liveUpdates := liveUpdates; noUpdates := noUpdates |}.

Definition sampleContext (liveUpdates noUpdates : bool) : Context :=
  {| url := "/data-not-ready"; options := sampleOptions liveUpdates noUpdates;
     startTime := 0; backend := neverReady |}.

(** A store with the defaults of the service at reference 1 and the
    caller's options at reference 2. *)
Definition sampleService : HttpRetryService := {| defaultOptions := 1%positive |}.

Definition sampleHeap (callerOptions : gmap string JsVal) : Heap :=
  {[ 1%positive := defaultOptionsObject; 2%positive := callerOptions ]}.

(** A caller that has not called the service yet. *)
Definition sampleCaller : Component :=
  {| c_url := "/data-not-ready"; c_retryOptions := 2%positive;
     c_streams := []; c_seen := [] |}.

(** A backend that is ready at the second request, and one that fails. *)
Definition readyOnSecond : nat → Z → Z * Outcome :=
  λ n _, (10, if Nat.eqb n 0 then HttpErrorResponse 404 notReadyBody
              else HttpResponse 200 welcome).

Definition serverError : nat → Z → Z * Outcome :=
  λ _ _, (10, HttpErrorResponse 500 (JObj {[ "error" := JStr "500 error" ]})).

Definition sampleContextOf (transport : nat → Z → Z * Outcome) : Context :=
  {| url := "/sample"; options := sampleOptions false false;
     startTime := 0; backend := transport |}.

(** The sample stream with live updates, subscribed to at 5, after [n]
    steps of the scheduler, and cancelled at 20 after two steps. *)
Definition sampleRun (n : nat) : State :=
  run (sampleContext true false) n (subscribe (sampleContext true false) 0 5).

Definition sampleCancelled : State := cancel 20 (sampleRun 2).

(** The options of the service's defaults. *)
Definition defaultRetryOptions : RetryOptions :=
  {| retries := 3; interval := 3000; updateInterval := 1000; strategy := "linear";
     retryOnServerFailure := false; retryOnUnexpectedFormat := false;
     liveUpdates := true; noUpdates := false |}.

(** * Properties *)

(** ** Classification *)

Lemma checkForValidResponse_true status body :
  checkForValidResponse status body = true ↔
  status = 200 ∧ getProp "ready" body = JBool true ∧ getProp "data" body ≠ JUndefined.
Proof.
  unfold checkForValidResponse. rewrite !andb_true_iff, Z.eqb_eq.
  destruct (getProp "ready" body) as [| |[]| | | | |];
    destruct (getProp "data" body); cbn; intuition congruence.
Qed.

Lemma checkResponseForRetry_true status error :
  checkResponseForRetry status error = true ↔
  status = 404 ∧ getProp "ready" error = JBool false.
Proof.
  unfold checkResponseForRetry. rewrite andb_true_iff, Z.eqb_eq.
  destruct (getProp "ready" error) as [| |[]| | | | |]; cbn; intuition congruence.
Qed.

(** C1, as amended: the classification is decided by the channel the
    outcome arrives on. A response on [next] is [Ready] exactly when its
    status is 200, its body's [ready] is [true] and its [data] is defined, and
    [FormatInvalid] otherwise, whatever its status; a response on [error] is
    [NotReadyRetryable] exactly when its status is 404 and its body's [ready]
    is [false], and [ServerFailure] otherwise. *)
Theorem classify_exact (o : Outcome) :
  match o with
  | HttpResponse status body =>
      (status = 200 ∧ getProp "ready" body = JBool true ∧ getProp "data" body ≠ JUndefined
       → classify o = Ready body)
      ∧ (¬ (status = 200 ∧ getProp "ready" body = JBool true
            ∧ getProp "data" body ≠ JUndefined)
         → classify o = FormatInvalid)
  | HttpErrorResponse status error =>
      (status = 404 ∧ getProp "ready" error = JBool false → classify o = NotReadyRetryable)
      ∧ (¬ (status = 404 ∧ getProp "ready" error = JBool false)
         → classify o = ServerFailure)
  end.
Proof.
  destruct o as [status body | status error]; cbn [classify].
  - pose proof (checkForValidResponse_true status body) as H.
    destruct (checkForValidResponse status body); split; intros Hc; try done.
    + destruct Hc. by apply H.
    + apply H in Hc. discriminate.
  - pose proof (checkResponseForRetry_true status error) as H.
    destruct (checkResponseForRetry status error); split; intros Hc; try done.
    + destruct Hc. by apply H.
    + apply H in Hc. discriminate.
Qed.

(** C1 as stated fails: a response delivered on [next] with a status other
    than 200 (here 204, no content) is neither a status-200 success nor a
    404 failure, yet it is classified [FormatInvalid], not [ServerFailure]. *)
Lemma classify_remaining_counterexample :
  ¬ (∀ o : Outcome,
       (∀ body, o ≠ HttpResponse 200 body) →
       (∀ error, o = HttpErrorResponse 404 error → getProp "ready" error ≠ JBool false) →
       classify o = ServerFailure).
Proof.
  intros H. specialize (H (HttpResponse 204 JNull)).
  cbn in H. discriminate H; [intros body Hb | intros error He]; discriminate.
Qed.

(** ** Validation *)

Lemma outOfBounds_true v max :
  isDefined v && outOfBounds v max = true ↔ v ≠ JUndefined ∧ ¬ integerUpTo max v.
Proof.
  unfold outOfBounds, integerUpTo. rewrite andb_true_iff. split.
  - intros [Hd Hb]. split; [by destruct v |].
    intros (z & Hz & Hr). rewrite Hz in Hb. lia.
  - intros [Hd Hn]. split; [by destruct v |].
    destruct (asInteger v) as [z|]; [| done].
    destruct ((z <? 0) || (max <? z)) eqn:E; [done |].
    exfalso. apply Hn. exists z. split; [done | lia].
Qed.

Lemma strategy_rejected v :
  truthy v && negb (includes ["linear"; "exponential"] v) = true ↔
  truthy v = true ∧ ¬ isStrategyName v.
Proof.
  unfold isStrategyName. rewrite andb_true_iff, negb_true_iff.
  split; intros [Ht Hn]; (split; [done |]).
  - intros [-> | ->]; vm_compute in Hn; discriminate.
  - destruct v; try done. cbn. apply bool_decide_eq_false.
    intros Hin. apply Hn.
    apply elem_of_cons in Hin as [-> | Hin]; [by left |].
    apply elem_of_cons in Hin as [-> | Hin]; [by right |].
    by apply elem_of_nil in Hin.
Qed.

Lemma readProp_insert l o k (h : Heap) :
  readProp l k (<[l := o]> h) = default JUndefined (o !! k).
Proof. unfold readProp, objectAt. by rewrite lookup_insert_eq. Qed.

Lemma setProp_other l l' k v (h : Heap) : l ≠ l' → setProp l k v h !! l' = h !! l'.
Proof. intros Hne. unfold setProp. by rewrite lookup_insert_ne. Qed.

Lemma validateOptions_other l l' (h h' : Heap) :
  validateOptions l h = inr h' → l ≠ l' → h' !! l' = h !! l'.
Proof.
  unfold validateOptions. intros H Hne.
  repeat match type of H with (if ?c then _ else _) = _ => destruct c; [discriminate |] end.
  injection H as <-. by rewrite !setProp_other.
Qed.

Lemma validateOptions_inl l (h : Heap) :
  throws (validateOptions l h) ↔
  isDefined (readProp l "retries" h) && outOfBounds (readProp l "retries" h) MAX_RETRIES = true
  ∨ isDefined (readProp l "interval" h)
    && outOfBounds (readProp l "interval" h) MAX_RETRY_INTERVAL = true
  ∨ isDefined (readProp l "updateInterval" h)
    && outOfBounds (readProp l "updateInterval" h) MAX_UPDATE_INTERVAL = true
  ∨ truthy (readProp l "strategy" h)
    && negb (includes ["linear"; "exponential"] (readProp l "strategy" h)) = true.
Proof.
  unfold validateOptions, throws.
  repeat match goal with
         | |- context [if ?c then _ else _] => destruct c eqn:?
         end; split; intros H; eauto 6.
  - destruct H as [e He]. discriminate.
  - intuition discriminate.
Qed.

(** C6, as amended: [get] throws, and so returns no stream that could be
    subscribed to and issue a request, exactly when, after the merge with
    the defaults, [retries], [interval] or [updateInterval] is defined and
    is not an integer within its bounds, or [strategy] is truthy and is
    neither ['linear'] nor ['exponential']; when all four are within bounds
    [get] returns the stream. The checks skip an option that is [undefined]
    and a strategy that is falsy. *)
Theorem get_validation (this : HttpRetryService) (url : string) (options : loc) (now : Z)
    (h : Heap) :
  let v := mergedOption this options h in
  (throws (get this url options now h).2 ↔
     (v "retries" ≠ JUndefined ∧ ¬ integerUpTo MAX_RETRIES (v "retries"))
     ∨ (v "interval" ≠ JUndefined ∧ ¬ integerUpTo MAX_RETRY_INTERVAL (v "interval"))
     ∨ (v "updateInterval" ≠ JUndefined
        ∧ ¬ integerUpTo MAX_UPDATE_INTERVAL (v "updateInterval"))
     ∨ (truthy (v "strategy") = true ∧ ¬ isStrategyName (v "strategy")))
  ∧ (integerUpTo MAX_RETRIES (v "retries") →
     integerUpTo MAX_RETRY_INTERVAL (v "interval") →
     integerUpTo MAX_UPDATE_INTERVAL (v "updateInterval") →
     isStrategyName (v "strategy") →
     ∃ op, (get this url options now h).2 = inr op ∧ op_startTime op = now).
Proof.
  intros v.
  assert (Hiff : throws (get this url options now h).2 ↔
     (v "retries" ≠ JUndefined ∧ ¬ integerUpTo MAX_RETRIES (v "retries"))
     ∨ (v "interval" ≠ JUndefined ∧ ¬ integerUpTo MAX_RETRY_INTERVAL (v "interval"))
     ∨ (v "updateInterval" ≠ JUndefined
        ∧ ¬ integerUpTo MAX_UPDATE_INTERVAL (v "updateInterval"))
     ∨ (truthy (v "strategy") = true ∧ ¬ isStrategyName (v "strategy"))).
  { rewrite <- !outOfBounds_true, <- strategy_rejected.
    unfold get, v, mergedOption.
    set (l := fresh (dom h)).
    set (m := spread _ _).
    rewrite <- !(readProp_insert l m _ h).
    rewrite <- validateOptions_inl.
    unfold throws.
    destruct (validateOptions l (<[l:=m]> h)); cbn; split; intros [e He];
      try discriminate; eauto. }
  split; [exact Hiff |].
  intros Hr Hi Hu Hs.
  unfold get in *. destruct (validateOptions _ _) as [e | h'] eqn:E; cbn in *.
  - exfalso. assert (Ht : throws (inl e : Thrown + Operation)) by (by exists e).
    apply Hiff in Ht. destruct Hs as [Hs | Hs].
    + destruct Ht as [[_ []]|[[_ []]|[[_ []]|[_ []]]]]; try done. by left.
    + destruct Ht as [[_ []]|[[_ []]|[[_ []]|[_ []]]]]; try done. by right.
  - eexists. split; [reflexivity | done].
Qed.

(** ** The frame of [get] *)

(** C9: [get] changes no object that exists when it is called, neither the
    caller's options object nor the service's defaults: the merged object
    is allocated at a new reference, and validation assigns to that object
    only. *)
Theorem get_frame (this : HttpRetryService) (url : string) (options : loc) (now : Z)
    (h : Heap) (l : loc) (o : gmap string JsVal) :
  h !! l = Some o →
  (get this url options now h).1 !! l = Some o
  ∧ (∀ op, (get this url options now h).2 = inr op → op_options op ≠ l).
Proof.
  intros Hl. unfold get.
  assert (Hfresh : fresh (dom h) ≠ l).
  { intros <-. apply (is_fresh (dom h)). apply elem_of_dom. by eexists. }
  destruct (validateOptions _ _) as [e | h'] eqn:E; cbn.
  - split; [by rewrite lookup_insert_ne | discriminate].
  - split.
    + rewrite (validateOptions_other _ l _ _ E) by done. by rewrite lookup_insert_ne.
    + intros op [= <-]. done.
Qed.

(** ** From the options [get] accepts to the options of the engine *)

Lemma objectAt_setProp l k v (h : Heap) :
  objectAt l (setProp l k v h) = <[k := v]> (objectAt l h).
Proof. unfold objectAt, setProp. by rewrite lookup_insert_eq. Qed.

Lemma inBounds_of_check v max z :
  isDefined v && outOfBounds v max = false → asInteger v = Some z → 0 ≤ z ≤ max.
Proof.
  unfold outOfBounds. intros Hc Hz. rewrite Hz in Hc.
  destruct v; try discriminate. cbn in Hc. lia.
Qed.

Lemma strategy_of_check v s :
  truthy v && negb (includes ["linear"; "exponential"] v) = false → asString v = Some s →
  s = "linear" ∨ s = "exponential" ∨ s = EmptyString.
Proof.
  intros Hc Hs. destruct v as [| | b | q | | neg | s' | props]; try discriminate Hs.
  injection Hs as Hs. subst s'. cbn in Hc.
  destruct (String.eqb_spec s EmptyString) as [Heq | Hne]; [right; by right |].
  cbn in Hc. apply negb_false_iff, bool_decide_eq_true in Hc.
  apply elem_of_cons in Hc as [Heq | Hc]; [by left |].
  apply elem_of_cons in Hc as [Heq | Hc]; [right; by left |].
  by apply elem_of_nil in Hc.
Qed.

Lemma validateOptions_inr l (h h' : Heap) :
  validateOptions l h = inr h' →
  isDefined (readProp l "retries" h) && outOfBounds (readProp l "retries" h) MAX_RETRIES
  = false
  ∧ isDefined (readProp l "interval" h)
    && outOfBounds (readProp l "interval" h) MAX_RETRY_INTERVAL = false
  ∧ isDefined (readProp l "updateInterval" h)
    && outOfBounds (readProp l "updateInterval" h) MAX_UPDATE_INTERVAL = false
  ∧ truthy (readProp l "strategy" h)
    && negb (includes ["linear"; "exponential"] (readProp l "strategy" h)) = false
  ∧ ∀ k, k ≠ "retryOnUnexpectedFormat" → k ≠ "retryOnServerFailure" →
         k ≠ "noUpdates" → k ≠ "liveUpdates" →
         readProp l k h' = readProp l k h.
Proof.
  unfold validateOptions. intros H.
  repeat match type of H with
         | (if ?c then _ else _) = _ => destruct c eqn:?; [discriminate H |]
         end.
  injection H as <-. repeat split; try done.
  intros k H1 H2 H3 H4. unfold readProp at 1.
  rewrite !objectAt_setProp, !lookup_insert_ne by done. reflexivity.
Qed.

(** The options the engine reads from the object [get] validated are
    within the bounds, and the strategy is one of the two names, or empty. *)
Lemma get_options_valid (this : HttpRetryService) (url : string) (options : loc) (now : Z)
    (h : Heap) (op : Operation) (o : RetryOptions) :
  (get this url options now h).2 = inr op →
  readOptions (objectAt (op_options op) (get this url options now h).1) = Some o →
  0 ≤ retries o ≤ MAX_RETRIES
  ∧ 0 ≤ interval o ≤ MAX_RETRY_INTERVAL
  ∧ 0 ≤ updateInterval o ≤ MAX_UPDATE_INTERVAL
  ∧ (strategy o = "linear" ∨ strategy o = "exponential" ∨ strategy o = EmptyString).
Proof.
  unfold get. destruct (validateOptions _ _) as [e | h'] eqn:E; [discriminate |].
  cbn [fst snd]. intros [= <-]. cbn [op_options request].
  apply validateOptions_inr in E as (Hr & Hi & Hu & Hs & Hsame).
  unfold readOptions. fold (readProp (fresh (dom h)) "retries" h').
  fold (readProp (fresh (dom h)) "interval" h').
  fold (readProp (fresh (dom h)) "updateInterval" h').
  fold (readProp (fresh (dom h)) "strategy" h').
  rewrite !Hsame by done.
  intros Ho.
  destruct (asInteger (readProp _ "retries" _)) as [r |] eqn:Er; [| discriminate Ho].
  destruct (asInteger (readProp _ "interval" _)) as [i |] eqn:Ei; [| discriminate Ho].
  destruct (asInteger (readProp _ "updateInterval" _)) as [u |] eqn:Eu; [| discriminate Ho].
  destruct (asString (readProp _ "strategy" _)) as [s |] eqn:Es; [| discriminate Ho].
  cbn [mbind option_bind] in Ho.
  assert (retries o = r ∧ interval o = i ∧ updateInterval o = u ∧ strategy o = s)
    as (-> & -> & -> & ->).
  { repeat match type of Ho with
           | context [asBool ?x] => destruct (asBool x); [| discriminate Ho]
           end.
    cbn [mbind option_bind] in Ho. by injection Ho as <-. }
  split; [by apply (inBounds_of_check _ _ _ Hr) |].
  split; [by apply (inBounds_of_check _ _ _ Hi) |].
  split; [by apply (inBounds_of_check _ _ _ Hu) |].
  by apply (strategy_of_check _ _ Hs).
Qed.

(** With no option given the engine runs with the defaults. *)
Example get_defaults :
  readOptions
    (objectAt 3 (get sampleService "/valid-data" 2 0 (sampleHeap ∅)).1)
  = Some {| retries := 3; interval := 3000; updateInterval := 1000; strategy := "linear";
            retryOnServerFailure := false; retryOnUnexpectedFormat := false;
            liveUpdates := true; noUpdates := false |}.
Proof. vm_compute. reflexivity. Qed.

(** ** Running the scheduler *)

Ltac pick_next :=
  cbn [pickNext due kind tasks];
  repeat (match goal with
          | |- context [?x <? ?y] => destruct (Z.ltb_spec x y); try lia
          end; cbn [pickNext due kind tasks]).

Section EngineFacts.

Variable ctx : Context.

Abbreviation T' := (tickPeriod (updateInterval (options ctx))).
Abbreviation M := (retries (options ctx)).

Lemma run_step n s s' : step ctx s = Some s' → run ctx (S n) s = run ctx n s'.
Proof. intros H. cbn. by rewrite H. Qed.

Lemma run_idle n s : tasks s = [] → run ctx n s = s.
Proof. intros H. destruct n; [done |]. cbn. unfold step. by rewrite H. Qed.

Lemma run_add n m s : run ctx (n + m) s = run ctx m (run ctx n s).
Proof.
  revert s. induction n as [| n IH]; intros s; [done |].
  cbn. destruct (step ctx s) as [s' |] eqn:E; [apply IH |].
  destruct m; [done |]. cbn. by rewrite E.
Qed.

Lemma tickPeriod_pos : 1 ≤ T'.
Proof. unfold tickPeriod. lia. Qed.

Lemma step_awaiting s d o :
  awaiting s d o → step ctx s = Some (checkResponseObserver ctx o (handling d s)).
Proof. intros [_ Ht]. unfold step. by rewrite Ht. Qed.

Lemma checkResponseObserver_verdict o s :
  checkResponseObserver ctx o s =
  match verdict ctx o with
  | Deliver body => sendAndCompleteResponse body s
  | Fail errorCode => sendErrorAndCompleteResponse errorCode ∅ s
  | Retry errorCode => scheduleRetry ctx errorCode s
  end.
Proof.
  unfold verdict, classify, checkResponseObserver.
  destruct o as [status body | status error].
  - destruct (checkForValidResponse status body); [done |].
    by destruct (retryOnUnexpectedFormat (options ctx)).
  - destruct (checkResponseForRetry status error); [done |].
    by destruct (retryOnServerFailure (options ctx)).
Qed.

Lemma step_retry t a r tr e :
  step ctx (mkState t a false r [{| due := e; kind := RetryTimer |}] tr) =
  Some (fetchData ctx (mkState e a false r [] tr)).
Proof. reflexivity. Qed.

(** *** The countdown *)

Section Countdown.

(** A wait of [D] that begins at [t0], after [w] retries. *)
Variables (t0 D : Z) (w : nat) (code : ErrorCodes).

Abbreviation stop e := {| due := e; kind := TickStop w |}.
Abbreviation retry e := {| due := e; kind := RetryTimer |}.
Abbreviation tick d := {| due := d; kind := Tick w (t0 + D) code |}.
Abbreviation tickEvent d :=
  (Next (errorEvent code (liveUpdateData (Z.max (t0 + D - d) 0) w M))).

Lemma step_tick_first t a r tr d e :
  d < e →
  step ctx (mkState t a false r [stop e; tick d; retry e] tr) =
  Some (mkState d a false r [stop e; retry e; tick (d + T')] (tr ++ [(d, tickEvent d)])).
Proof.
  intros Hd. pose proof tickPeriod_pos. unfold step. pick_next.
  unfold runTask, liveUpdate, sendResponse, schedule, record, setTasks, setNow.
  cbn [now attempts isStopped requests tasks trace due kind app].
  rewrite (Z.max_l T' 0) by lia. reflexivity.
Qed.

Lemma step_tick_next t a r tr d e :
  d < e →
  step ctx (mkState t a false r [stop e; retry e; tick d] tr) =
  Some (mkState d a false r [stop e; retry e; tick (d + T')] (tr ++ [(d, tickEvent d)])).
Proof.
  intros Hd. pose proof tickPeriod_pos. unfold step. pick_next.
  unfold runTask, liveUpdate, sendResponse, schedule, record, setTasks, setNow.
  cbn [now attempts isStopped requests tasks trace due kind app].
  rewrite (Z.max_l T' 0) by lia. reflexivity.
Qed.

Lemma step_stop_first t a r tr d e :
  e ≤ d →
  step ctx (mkState t a false r [stop e; tick d; retry e] tr) =
  Some (mkState e a false r [retry e] tr).
Proof.
  intros Hd. unfold step. pick_next.
  all: unfold runTask, setTasks, setNow;
    cbn [now attempts isStopped requests tasks trace due kind List.filter];
    cbv [isTickOf kind]; rewrite Nat.eqb_refl; reflexivity.
Qed.

Lemma step_stop_next t a r tr d e :
  e ≤ d →
  step ctx (mkState t a false r [stop e; retry e; tick d] tr) =
  Some (mkState e a false r [retry e] tr).
Proof.
  intros Hd. unfold step. pick_next.
  all: unfold runTask, setTasks, setNow;
    cbn [now attempts isStopped requests tasks trace due kind List.filter];
    cbv [isTickOf kind]; rewrite Nat.eqb_refl; reflexivity.
Qed.

Lemma tickEntry_eq j :
  tickEntry ctx code w t0 D j =
  (t0 + Z.of_nat j * T', tickEvent (t0 + Z.of_nat j * T')).
Proof. reflexivity. Qed.

(** [k] ticks in a row, from tick number [i] on. *)
Lemma run_ticks k : ∀ i t a r tr e,
  (k = 0%nat ∨ t0 + (Z.of_nat i + Z.of_nat k - 1) * T' < e) →
  run ctx k (mkState t a false r [stop e; retry e; tick (t0 + Z.of_nat i * T')] tr) =
  mkState (match k with O => t | S k' => t0 + Z.of_nat (i + k') * T' end) a false r
          [stop e; retry e; tick (t0 + Z.of_nat (i + k) * T')]
          (tr ++ (tickEntry ctx code w t0 D <$> seq i k)).
Proof.
  pose proof tickPeriod_pos.
  induction k as [| k IH]; intros i t a r tr e Hk.
  - cbn [run seq fmap list_fmap]. rewrite Nat.add_0_r, app_nil_r. reflexivity.
  - destruct Hk as [Hk | Hk]; [lia |].
    assert (Hlt : t0 + Z.of_nat i * T' < e) by nia.
    rewrite (run_step _ _ _ (step_tick_next t a r tr _ e Hlt)).
    replace (t0 + Z.of_nat i * T' + T') with (t0 + Z.of_nat (S i) * T') by lia.
    rewrite IH by (destruct k; [by left | right; nia]).
    rewrite <- app_assoc.
    replace (S i + k)%nat with (i + S k)%nat by lia.
    f_equal. destruct k; f_equal; lia.
Qed.

Lemma tickCount_spec :
  let n := tickCount D T' in
  (D ≤ 0 → n = 0%nat) ∧ (0 < D → (Z.of_nat n - 1) * T' < D ≤ Z.of_nat n * T').
Proof.
  pose proof tickPeriod_pos as HT. unfold tickCount. cbn zeta. split; intros HD.
  - rewrite Z.max_r by lia. rewrite Z.div_small by lia. reflexivity.
  - rewrite Z.max_l by lia.
    pose proof (Z.div_mod (D + T' - 1) T' ltac:(lia)) as Hdm.
    pose proof (Z.mod_pos_bound (D + T' - 1) T' ltac:(lia)) as Hmod.
    assert (0 ≤ (D + T' - 1) / T') by (apply Z.div_pos; lia).
    rewrite Z2Nat.id by done. nia.
Qed.

Abbreviation waiting a r tr :=
  (mkState t0 a false r
     [stop (t0 + Z.max D 0); tick (t0 + Z.max 0 0); retry (t0 + Z.max D 0)] tr).

(** The first [k] ticks of the wait. *)
Lemma run_wait_ticks a r tr k :
  (k ≤ tickCount D T')%nat →
  ∃ ts,
    run ctx k (waiting a r tr) =
    mkState (t0 + Z.of_nat (pred k) * T') a false r ts (tr ++ countdown ctx code w t0 D k)
    ∧ (k = 0%nat → ts = tasks (waiting a r tr))
    ∧ ((0 < k)%nat →
       ts = [stop (t0 + Z.max D 0); retry (t0 + Z.max D 0); tick (t0 + Z.of_nat k * T')]).
Proof.
  pose proof tickPeriod_pos as HT.
  destruct tickCount_spec as [H0 Hpos]. intros Hk.
  destruct k as [| k].
  - eexists. split; [| split; [done | lia]].
    unfold countdown. cbn [run seq fmap list_fmap pred]. rewrite app_nil_r.
    f_equal. lia.
  - assert (HD : 0 < D) by (destruct (Z_le_gt_dec D 0); [rewrite H0 in Hk |]; lia).
    specialize (Hpos HD). clear H0.
    assert (Hlt : t0 + Z.max 0 0 < t0 + Z.max D 0) by lia.
    rewrite (run_step _ _ _ (step_tick_first _ _ _ _ _ _ Hlt)).
    replace (t0 + Z.max 0 0 + T') with (t0 + Z.of_nat 1 * T') by lia.
    rewrite run_ticks by (destruct k; [by left | right; nia]).
    eexists. split; [| split; [lia | reflexivity]].
    rewrite <- app_assoc. unfold countdown.
    cbn [seq fmap list_fmap app pred]. rewrite tickEntry_eq.
    replace (t0 + Z.of_nat 0 * T') with (t0 + Z.max 0 0) by lia.
    f_equal. destruct k; lia.
Qed.

(** When [D] has elapsed the countdown is over. *)
Lemma run_wait_stop a r tr :
  run ctx (S (tickCount D T')) (waiting a r tr) =
  mkState (t0 + Z.max D 0) a false r [retry (t0 + Z.max D 0)]
          (tr ++ countdown ctx code w t0 D (tickCount D T')).
Proof.
  pose proof tickPeriod_pos as HT.
  destruct tickCount_spec as [H0 Hpos].
  destruct (run_wait_ticks a r tr (tickCount D T') ltac:(lia)) as (ts & Hrun & Hts0 & Hts).
  replace (S (tickCount D T')) with (tickCount D T' + 1)%nat by lia.
  rewrite run_add, Hrun.
  destruct (tickCount D T') as [| m] eqn:En.
  - rewrite (Hts0 eq_refl). cbn [tasks].
    assert (HD : D ≤ 0) by (destruct (Z_le_gt_dec D 0); lia).
    assert (Hle : t0 + Z.max D 0 ≤ t0 + Z.max 0 0) by lia.
    by rewrite (run_step _ _ _ (step_stop_first _ _ _ _ _ _ Hle)).
  - rewrite (Hts ltac:(lia)).
    assert (HD : 0 < D) by (destruct (Z_le_gt_dec D 0); [rewrite H0 in En |]; lia).
    specialize (Hpos HD).
    assert (Hle : t0 + Z.max D 0 ≤ t0 + Z.of_nat (S m) * T') by lia.
    by rewrite (run_step _ _ _ (step_stop_next _ _ _ _ _ _ Hle)).
Qed.

(** The whole wait in live mode: the countdown, its end, the retry
    timer and the next request. *)
Lemma run_wait_live a r tr :
  run ctx (S (S (tickCount D T'))) (waiting a r tr) =
  fetchData ctx
    (mkState (t0 + Z.max D 0) a false r []
             (tr ++ countdown ctx code w t0 D (tickCount D T'))).
Proof.
  replace (S (S (tickCount D T'))) with (S (tickCount D T') + 1)%nat by lia.
  rewrite run_add, run_wait_stop. reflexivity.
Qed.

End Countdown.

(** *** One round: an outcome, the wait, the next request *)

Lemma round_retry s d o code :
  awaiting s d o → verdict ctx o = Retry code → Z.of_nat (attempts s) < M →
  ∃ n, run ctx (S n) s = nextRound ctx code (handling d s).
Proof.
  intros Ha Hv Hlt. destruct s as [t a st r ts tr].
  destruct Ha as [Hst Hts]. cbn in Hst, Hts, Hlt. subst st ts.
  pose proof (step_awaiting _ d o (conj eq_refl eq_refl : awaiting (mkState t a false r _ tr) d o))
    as Hstep.
  rewrite checkResponseObserver_verdict, Hv in Hstep.
  unfold scheduleRetry, handling, setTasks, setNow in Hstep.
  cbn [now attempts isStopped requests tasks trace] in Hstep.
  destruct (Z.leb_spec M (Z.of_nat a)) as [| _]; [lia |].
  unfold nextRound, updatesOfWait, handling, setTasks, setNow.
  cbn [now attempts isStopped requests tasks trace].
  set (D := calculateDelayBeforeRetry _ _ _) in *.
  destruct (noUpdates (options ctx)); [| destruct (liveUpdates (options ctx))].
  - exists 1%nat. rewrite (run_step _ _ _ Hstep).
    unfold retryFetchAfterDelay, incrementAttempts, schedule, setTasks.
    cbn [now attempts isStopped requests tasks trace app].
    rewrite (run_step _ _ _ (step_retry _ _ _ _ _)). by rewrite app_nil_r.
  - eexists. rewrite (run_step _ _ _ Hstep). apply run_wait_live.
  - exists 1%nat. rewrite (run_step _ _ _ Hstep).
    unfold retryFetchAfterDelay, incrementAttempts, schedule, setTasks,
      sendAttemptsUpdate, sendErrorResponse, sendResponse, record.
    cbn [now attempts isStopped requests tasks trace app].
    rewrite (run_step _ _ _ (step_retry _ _ _ _ _)). reflexivity.
Qed.

Lemma nextRound_awaiting code s :
  awaiting (nextRound ctx code s)
    (now (nextRound ctx code s) + (backend ctx (requests s) (now (nextRound ctx code s))).1)
    (backend ctx (requests s) (now (nextRound ctx code s))).2.
Proof.
  unfold nextRound, fetchData, awaiting.
  destruct (noUpdates (options ctx)); cbn; done.
Qed.

Lemma subscribe_awaiting a0 t :
  awaiting (subscribe ctx a0 t) (t + (backend ctx 0 t).1) (backend ctx 0 t).2.
Proof.
  unfold subscribe, fetchData, awaiting.
  destruct (noUpdates (options ctx)); cbn; done.
Qed.

Lemma final_stopped s d o :
  awaiting s d o → final ctx o s →
  let s' := checkResponseObserver ctx o (handling d s) in
  tasks s' = [] ∧ isStopped s' = true.
Proof.
  intros [Hst _] Hf. rewrite checkResponseObserver_verdict.
  unfold final in Hf. destruct s as [t a st r ts tr]. cbn in Hst, Hf. subst st.
  destruct (verdict ctx o) as [body | code | code].
  - done.
  - done.
  - specialize (Hf code eq_refl).
    unfold scheduleRetry, handling. cbn [attempts setTasks setNow].
    destruct (Z.leb_spec M (Z.of_nat a)); [done | lia].
Qed.

Section CompleteRun.

(** [I] holds whenever a request is in flight, [F] of the state the
    run ends in. *)
Variables I F : State → Prop.

Hypothesis Hfinal : ∀ s d o,
  awaiting s d o → I s → final ctx o s → F (checkResponseObserver ctx o (handling d s)).

Hypothesis Hround : ∀ s d o code,
  awaiting s d o → I s → verdict ctx o = Retry code → Z.of_nat (attempts s) < M →
  I (nextRound ctx code (handling d s)).

Lemma complete_run_from (k : nat) : ∀ s d o,
  awaiting s d o → I s → M - Z.of_nat (attempts s) ≤ Z.of_nat k →
  ∃ n, ∀ fuel, (n ≤ fuel)%nat →
    F (run ctx fuel s) ∧ tasks (run ctx fuel s) = [] ∧ isStopped (run ctx fuel s) = true.
Proof.
  induction k as [| k IH]; intros s d o Ha HI Hk.
  - exists 1%nat. intros fuel Hfuel.
    assert (Hf : final ctx o s) by (intros code _; lia).
    destruct (final_stopped s d o Ha Hf) as [Ht Hs].
    destruct fuel as [| fuel]; [lia |].
    rewrite (run_step _ _ _ (step_awaiting s d o Ha)), (run_idle _ _ Ht). eauto.
  - destruct (verdict ctx o) as [body | code | code] eqn:Hv;
      [| | destruct (Z_lt_le_dec (Z.of_nat (attempts s)) M) as [Hlt | Hge]].
    1,2,4: (exists 1%nat; intros fuel Hfuel;
      assert (Hf : final ctx o s) by (intros c Hc; (congruence || lia));
      destruct (final_stopped s d o Ha Hf) as [Ht Hs];
      destruct fuel as [| fuel]; [lia |];
      rewrite (run_step _ _ _ (step_awaiting s d o Ha)), (run_idle _ _ Ht); eauto).
    destruct (round_retry s d o code Ha Hv Hlt) as [n1 Hn1].
    destruct (IH _ _ _ (nextRound_awaiting code (handling d s))
                 (Hround s d o code Ha HI Hv Hlt)) as [n2 Hn2].
    { unfold nextRound, fetchData. destruct (noUpdates (options ctx)); cbn; lia. }
    exists (S n1 + n2)%nat. intros fuel Hfuel.
    replace fuel with (S n1 + (fuel - S n1))%nat by lia.
    rewrite run_add, Hn1. apply Hn2. lia.
Qed.

Lemma complete_run t :
  I (subscribe ctx 0 t) →
  ∃ n, ∀ fuel, (n ≤ fuel)%nat →
    let s := run ctx fuel (subscribe ctx 0 t) in
    F s ∧ tasks s = [] ∧ isStopped s = true.
Proof.
  intros HI.
  apply (complete_run_from (Z.to_nat M) _ _ _ (subscribe_awaiting 0 t) HI).
  unfold subscribe, fetchData. destruct (noUpdates (options ctx)); cbn; lia.
Qed.

End CompleteRun.

End EngineFacts.

(** ** Traces *)

Lemma nexts_app tr1 tr2 : nexts (tr1 ++ tr2) = (nexts tr1 + nexts tr2)%nat.
Proof. unfold nexts. by rewrite List.filter_app, length_app. Qed.

Lemma gets_app tr1 tr2 : gets (tr1 ++ tr2) = (gets tr1 + gets tr2)%nat.
Proof. unfold gets. by rewrite List.filter_app, length_app. Qed.

Lemma loadings_app tr1 tr2 : loadings (tr1 ++ tr2) = (loadings tr1 + loadings tr2)%nat.
Proof. unfold loadings. by rewrite List.filter_app, length_app. Qed.

Lemma requestTimes_app tr1 tr2 :
  requestTimes (tr1 ++ tr2) = requestTimes tr1 ++ requestTimes tr2.
Proof. unfold requestTimes. by rewrite List.filter_app, fmap_app. Qed.

Lemma gets_nil : gets [] = 0%nat.
Proof. reflexivity. Qed.

Lemma gets_cons_next t v tr : gets ((t, Next v) :: tr) = gets tr.
Proof. reflexivity. Qed.

Lemma gets_cons_complete t tr : gets ((t, Complete) :: tr) = gets tr.
Proof. reflexivity. Qed.

Lemma gets_cons_get t u tr : gets ((t, HttpGet u) :: tr) = S (gets tr).
Proof. reflexivity. Qed.

Lemma nexts_nil : nexts [] = 0%nat.
Proof. reflexivity. Qed.

Lemma nexts_cons_next t v tr : nexts ((t, Next v) :: tr) = S (nexts tr).
Proof. reflexivity. Qed.

Lemma nexts_cons_complete t tr : nexts ((t, Complete) :: tr) = nexts tr.
Proof. reflexivity. Qed.

Lemma nexts_cons_get t u tr : nexts ((t, HttpGet u) :: tr) = nexts tr.
Proof. reflexivity. Qed.

Lemma loadings_nil : loadings [] = 0%nat.
Proof. reflexivity. Qed.

Lemma loadings_cons_complete t tr : loadings ((t, Complete) :: tr) = loadings tr.
Proof. reflexivity. Qed.

Lemma loadings_cons_get t u tr : loadings ((t, HttpGet u) :: tr) = loadings tr.
Proof. reflexivity. Qed.

Lemma loadings_cons_next t v tr :
  loadings ((t, Next v) :: tr) =
  ((if strictEqBool (getProp "loading" v) true then 1 else 0) + loadings tr)%nat.
Proof.
  unfold loadings. cbn [List.filter]. unfold isLoading at 1. cbn [snd].
  by destruct (strictEqBool (getProp "loading" v) true).
Qed.

Create Rewrite HintDb counts.
#[local] Hint Rewrite gets_app gets_nil gets_cons_next gets_cons_complete gets_cons_get
  nexts_app nexts_nil nexts_cons_next nexts_cons_complete nexts_cons_get
  loadings_app loadings_nil loadings_cons_next loadings_cons_complete loadings_cons_get
  : counts.

(** What holds of the update of a non-live wait and of every tick of a
    live one holds of all a wait emits. *)
Lemma Forall_updatesOfWait (P : Z * Action → Prop) ctx code a t0 :
  (∀ t, P (t, Next (errorEvent code (attemptsUpdateData a (retries (options ctx)))))) →
  (∀ t rem, P (t, Next (errorEvent code (liveUpdateData rem a (retries (options ctx)))))) →
  Forall P (updatesOfWait ctx code a t0).
Proof.
  intros Hu Ht. unfold updatesOfWait.
  destruct (noUpdates (options ctx)); [constructor |].
  destruct (liveUpdates (options ctx)).
  - unfold countdown. apply Forall_fmap, Forall_forall. intros j _. apply Ht.
  - repeat constructor. apply Hu.
Qed.

Lemma filter_none {A} (f : A → bool) (l : list A) :
  Forall (λ x, f x = false) l → List.filter f l = [].
Proof.
  induction 1 as [| x l Hx _ IH]; [done |]. cbn. by rewrite Hx.
Qed.

Lemma gets_updatesOfWait ctx code a t0 : gets (updatesOfWait ctx code a t0) = 0%nat.
Proof.
  unfold gets. rewrite filter_none; [done |].
  by apply Forall_updatesOfWait.
Qed.

Lemma requestTimes_updatesOfWait ctx code a t0 :
  requestTimes (updatesOfWait ctx code a t0) = [].
Proof.
  unfold requestTimes. rewrite filter_none; [done |].
  by apply Forall_updatesOfWait.
Qed.

(** The trace of the state in which the next request is in flight. *)
Lemma trace_nextRound ctx code s :
  trace (nextRound ctx code s) =
  trace s ++ updatesOfWait ctx code (attempts s) (now s)
  ++ (if noUpdates (options ctx) then []
      else [(now (nextRound ctx code s), Next loadingEvent)])
  ++ [(now (nextRound ctx code s), HttpGet (url ctx))].
Proof.
  unfold nextRound, fetchData, sendResponse, record.
  destruct (noUpdates (options ctx)); cbn [trace now isStopped app];
    by rewrite <- ?app_assoc.
Qed.

Lemma trace_subscribe ctx a t :
  trace (subscribe ctx a t) =
  (if noUpdates (options ctx) then [] else [(t, Next loadingEvent)])
  ++ [(t, HttpGet (url ctx))].
Proof.
  unfold subscribe, fetchData, sendResponse, record.
  by destruct (noUpdates (options ctx)).
Qed.

(** The trace when an outcome ends the run. *)
Lemma trace_final ctx s d o :
  awaiting s d o → final ctx o s →
  ∃ v, trace (checkResponseObserver ctx o (handling d s)) =
       trace s ++ [(d, Next v); (d, Complete)]
     ∧ now (checkResponseObserver ctx o (handling d s)) = d
     ∧ attempts (checkResponseObserver ctx o (handling d s)) = attempts s
     ∧ requests (checkResponseObserver ctx o (handling d s)) = requests s
     ∧ v = match verdict ctx o with
           | Deliver body => dataEvent body
           | Fail code => errorEvent code ∅
           | Retry code =>
               errorEvent code
                 (maxRetriesData (d - startTime ctx) (attempts s) (retries (options ctx)))
           end.
Proof.
  intros [Hst _] Hf. rewrite checkResponseObserver_verdict.
  unfold final in Hf. destruct s as [t a st r ts tr]. cbn in Hst, Hf. subst st.
  destruct (verdict ctx o) as [body | code | code].
  - eexists. repeat split. cbn. by rewrite <- app_assoc.
  - eexists. repeat split. cbn. by rewrite <- app_assoc.
  - specialize (Hf code eq_refl).
    unfold scheduleRetry, handling. cbn [attempts setTasks setNow].
    destruct (Z.leb_spec (retries (options ctx)) (Z.of_nat a)); [| lia].
    eexists. repeat split. cbn. by rewrite <- app_assoc.
Qed.

Lemma nextRound_fields ctx code s :
  let D := calculateDelayBeforeRetry (interval (options ctx)) (attempts s)
             (strategy (options ctx)) in
  let s' := nextRound ctx code s in
  now s' = now s + Z.max D 0
  ∧ attempts s' = S (attempts s)
  ∧ requests s' = S (requests s)
  ∧ isStopped s' = false
  ∧ tasks s' = [{| due := now s' + (backend ctx (requests s) (now s')).1;
                   kind := Response (backend ctx (requests s) (now s')).2 |}].
Proof. unfold nextRound, fetchData. by destruct (noUpdates (options ctx)). Qed.

Lemma subscribe_fields ctx a t :
  let s := subscribe ctx a t in
  now s = t ∧ attempts s = a ∧ requests s = 1%nat ∧ isStopped s = false
  ∧ tasks s = [{| due := t + (backend ctx 0 t).1; kind := Response (backend ctx 0 t).2 |}].
Proof. unfold subscribe, fetchData. by destruct (noUpdates (options ctx)). Qed.

Lemma gets_nextRound ctx code s :
  gets (trace (nextRound ctx code s)) = S (gets (trace s)).
Proof.
  rewrite trace_nextRound, !gets_app, gets_updatesOfWait.
  destruct (noUpdates (options ctx)); autorewrite with counts; lia.
Qed.

Lemma gets_subscribe ctx a t : gets (trace (subscribe ctx a t)) = 1%nat.
Proof. rewrite trace_subscribe. by destruct (noUpdates (options ctx)). Qed.

(** ** Exhausting the retries *)

Lemma attempts_maxRetriesData code totalDelay a M :
  getProp "attempts" (getProp "error" (errorEvent code (maxRetriesData totalDelay a M))) =
  JInt (Z.of_nat a).
Proof. reflexivity. Qed.

Lemma verdict_notReady ctx o : notReady o → verdict ctx o = Retry DATA_NOT_READY_YET.
Proof.
  intros (error & -> & Hr). unfold verdict, classify.
  by rewrite (proj2 (checkResponseForRetry_true 404 error)).
Qed.

Lemma intermediate_updatesOfWait ctx code a t0 :
  Forall intermediate (updatesOfWait ctx code a t0).
Proof. by apply Forall_updatesOfWait. Qed.

(** C2: when the options are valid and every attempt is answered
    not-ready, the run ends; [retries] requests have followed the first;
    the last event is the error that carries [attempts] and [maxRetries]
    equal to [retries] and, as [totalDelay], the milliseconds between the
    call of [get] and that event divided by 1000; no earlier event reports a
    total delay; and the completion follows it. *)
Theorem retries_exhausted (ctx : Context) (t0 : Z) :
  validOptions (options ctx) →
  (∀ n t, notReady (backend ctx n t).2) →
  ∃ n, ∀ fuel, (n ≤ fuel)%nat →
    let s := run ctx fuel (subscribe ctx 0 t0) in
    let v := errorEvent DATA_NOT_READY_YET
               (maxRetriesData (now s - startTime ctx) (Z.to_nat (retries (options ctx)))
                  (retries (options ctx))) in
    tasks s = [] ∧ isStopped s = true
    ∧ gets (trace s) = S (Z.to_nat (retries (options ctx)))
    ∧ (∃ pre, trace s = pre ++ [(now s, Next v); (now s, Complete)]
              ∧ Forall intermediate pre)
    ∧ getProp "attempts" (getProp "error" v) = JInt (retries (options ctx))
    ∧ getProp "maxRetries" (getProp "error" v) = JInt (retries (options ctx))
    ∧ getProp "totalDelay" (getProp "error" v) = JNum (Qmake (now s - startTime ctx) 1000).
Proof.
  intros (HM & _) Hbackend.
  set (M := retries (options ctx)) in *.
  pose (I := λ s : State,
    requests s = S (attempts s) ∧ gets (trace s) = requests s
    ∧ Z.of_nat (attempts s) ≤ M ∧ Forall intermediate (trace s)
    ∧ ∀ d o, awaiting s d o → notReady o).
  pose (F := λ s : State,
    gets (trace s) = S (Z.to_nat M)
    ∧ ∃ pre, trace s = pre ++ [(now s, Next (errorEvent DATA_NOT_READY_YET
                 (maxRetriesData (now s - startTime ctx) (Z.to_nat M) M)));
                               (now s, Complete)]
             ∧ Forall intermediate pre).
  destruct (complete_run ctx I F) with (t := t0) as [n Hn].
  - intros s d o Ha (Hreq & Hgets & Hle & Hint & Hnr) Hf.
    pose proof (verdict_notReady ctx o (Hnr d o Ha)) as Hv.
    assert (Hatt : attempts s = Z.to_nat M).
    { specialize (Hf _ Hv). fold M in Hf. lia. }
    destruct (trace_final ctx s d o Ha Hf) as (v & Htr & Hnow & _ & _ & Hev).
    rewrite Hv, Hatt in Hev. subst v. split.
    + rewrite Htr. autorewrite with counts. lia.
    + exists (trace s). rewrite Hnow. done.
  - intros s d o code Ha (Hreq & Hgets & Hle & Hint & Hnr) Hv Hlt.
    destruct (nextRound_fields ctx code (handling d s)) as (_ & Hatt & Hrq & _ & Hts).
    repeat split.
    + rewrite Hrq, Hatt. cbn. by f_equal.
    + rewrite gets_nextRound, Hrq. cbn. by f_equal.
    + rewrite Hatt. cbn. fold M in Hlt. lia.
    + rewrite trace_nextRound. cbn [handling setTasks setNow trace].
      rewrite !Forall_app. repeat split; try done.
      * apply intermediate_updatesOfWait.
      * destruct (noUpdates (options ctx)); repeat constructor.
      * repeat constructor.
    + intros d' o' [_ Ha']. rewrite Hts in Ha'. injection Ha' as _ <-. apply Hbackend.
  - destruct (subscribe_fields ctx 0 t0) as (_ & Hatt & Hrq & _ & Hts).
    unfold I. rewrite Hatt, Hrq, gets_subscribe, trace_subscribe.
    repeat split; [lia | |].
    + destruct (noUpdates (options ctx)); repeat constructor.
    + intros d o [_ Ha]. rewrite Hts in Ha. injection Ha as _ <-. apply Hbackend.
  - exists n. intros fuel Hfuel. destruct (Hn fuel Hfuel) as ((Hg & Hpre) & Ht & Hs).
    cbn zeta. repeat split; try done.
    rewrite attempts_maxRetriesData, Z2Nat.id by lia. done.
Qed.

(** ** Counting events *)

Lemma loading_dataEvent body : getProp "loading" (dataEvent body) = JBool false.
Proof.
  unfold dataEvent, spread, getProp.
  by rewrite (lookup_union_Some_l _ _ _ (JBool false)).
Qed.

Lemma loading_final ctx o a d :
  getProp "loading"
    match verdict ctx o with
    | Deliver body => dataEvent body
    | Fail code => errorEvent code ∅
    | Retry code => errorEvent code (maxRetriesData d a (retries (options ctx)))
    end = JBool false.
Proof. destruct (verdict ctx o); [apply loading_dataEvent | done | done]. Qed.

(** C4, as amended: a run that is not cancelled ends, with an event
    followed by the completion. With [noUpdates] that event is the only
    one. With [noUpdates] and [liveUpdates] both off, every request is
    preceded by its [{loading: true}] event and followed either by the
    ['Attempt N of M'] update of the wait it starts or by the last event:
    two events for each request. *)
Theorem event_counts (ctx : Context) (t0 : Z) :
  ∃ n, ∀ fuel, (n ≤ fuel)%nat →
    let s := run ctx fuel (subscribe ctx 0 t0) in
    tasks s = [] ∧ isStopped s = true
    ∧ (∃ pre v, trace s = pre ++ [(now s, Next v); (now s, Complete)]
         ∧ (noUpdates (options ctx) = false → liveUpdates (options ctx) = false →
            Forall (plainUpdate ctx) pre))
    ∧ (noUpdates (options ctx) = true → nexts (trace s) = 1%nat)
    ∧ (noUpdates (options ctx) = false → liveUpdates (options ctx) = false →
       loadings (trace s) = gets (trace s)
       ∧ nexts (trace s) = (2 * gets (trace s))%nat).
Proof.
  pose (I := λ s : State,
    (noUpdates (options ctx) = true → nexts (trace s) = 0%nat)
    ∧ (noUpdates (options ctx) = false → liveUpdates (options ctx) = false →
       loadings (trace s) = gets (trace s)
       ∧ S (nexts (trace s)) = (2 * gets (trace s))%nat
       ∧ Forall (plainUpdate ctx) (trace s))).
  pose (F := λ s : State,
    (∃ pre v, trace s = pre ++ [(now s, Next v); (now s, Complete)]
       ∧ (noUpdates (options ctx) = false → liveUpdates (options ctx) = false →
          Forall (plainUpdate ctx) pre))
    ∧ (noUpdates (options ctx) = true → nexts (trace s) = 1%nat)
    ∧ (noUpdates (options ctx) = false → liveUpdates (options ctx) = false →
       loadings (trace s) = gets (trace s)
       ∧ nexts (trace s) = (2 * gets (trace s))%nat)).
  destruct (complete_run ctx I F) with (t := t0) as [n Hn].
  - intros s d o Ha [Hnu Hplain] Hf.
    destruct (trace_final ctx s d o Ha Hf) as (v & Htr & Hnow & _ & _ & Hev).
    assert (Hl : getProp "loading" v = JBool false) by (subst v; apply loading_final).
    unfold F. rewrite Htr, Hnow. split; [| split].
    + exists (trace s), v. split; [done |]. intros H1 H2. by apply Hplain.
    + intros H1. autorewrite with counts. rewrite (Hnu H1). done.
    + intros H1 H2. destruct (Hplain H1 H2) as (Hlo & Hne & _).
      autorewrite with counts. rewrite Hl. cbn [strictEqBool Bool.eqb]. lia.
  - intros s d o code Ha [Hnu Hplain] Hv Hlt. unfold I.
    rewrite trace_nextRound. cbn [handling setTasks setNow trace attempts now].
    unfold updatesOfWait. split.
    + intros H1. rewrite H1. autorewrite with counts. rewrite (Hnu H1). done.
    + intros H1 H2. rewrite H1, H2. destruct (Hplain H1 H2) as (Hlo & Hne & Hall).
      autorewrite with counts.
      change (strictEqBool (getProp "loading" loadingEvent) true) with true.
      change (strictEqBool (getProp "loading" (errorEvent code _)) true) with false.
      cbv beta iota. split; [lia | split; [lia |]].
      rewrite !Forall_app, !Forall_singleton. split; [done | split; [| split]].
      * intros v [= <-]. right. eauto.
      * intros v [= <-]. by left.
      * intros v. discriminate.
  - unfold I. rewrite trace_subscribe. split.
    + intros ->. done.
    + intros -> _. split; [done | split; [done |]].
      apply Forall_cons. split; [intros v [= <-]; by left |].
      apply Forall_singleton. intros v. discriminate.
  - exists n. intros fuel Hfuel. destruct (Hn fuel Hfuel) as ((Hpre & H1 & H2) & Ht & Hs).
    done.
Qed.

(** C4 as stated fails: with [liveUpdates] and [noUpdates] off, one retry
    and a backend that is never ready, two requests are made and four
    events are delivered ([loading], ['Attempt 0 of 1'], [loading], the
    max-retries error), not one for each request and the last one. *)
Lemma event_counts_counterexample :
  let notReadyYet := HttpErrorResponse 404 (JObj {[ "ready" := JBool false ]}) in
  let ctx := {| url := "/data-not-ready";
                options := {| retries := 1; interval := 0; updateInterval := 1000;
                              strategy := "linear"; retryOnServerFailure := false;
                              retryOnUnexpectedFormat := false;
                              liveUpdates := false; noUpdates := false |};
                startTime := 0;
                backend := λ _ _, (10, notReadyYet) |} in
  let s := run ctx 10 (subscribe ctx 0 0) in
  tasks s = [] ∧ gets (trace s) = 2%nat ∧ nexts (trace s) = 4%nat
  ∧ nexts (trace s) ≠ (gets (trace s) + 1)%nat.
Proof. vm_compute. repeat split; discriminate. Qed.

(** ** Every state of a run extends the trace *)

Lemma extends_refl s : extends s s.
Proof. exists []. by rewrite app_nil_r. Qed.

Lemma extends_trans s1 s2 s3 : extends s1 s2 → extends s2 s3 → extends s1 s3.
Proof. intros [l1 H1] [l2 H2]. exists (l1 ++ l2). by rewrite H2, H1, app_assoc. Qed.

Lemma extends_same s s' : trace s' = trace s → extends s s'.
Proof. intros H. exists []. by rewrite app_nil_r. Qed.

Lemma extends_sendResponse v s : extends s (sendResponse v s).
Proof.
  unfold sendResponse. destruct (isStopped s); [apply extends_refl |]. by eexists.
Qed.

Lemma extends_completeOperation s : extends s (completeOperation s).
Proof.
  unfold completeOperation. destruct (isStopped s); [apply extends_refl |]. by eexists.
Qed.

Lemma extends_fetchData ctx s : extends s (fetchData ctx s).
Proof.
  unfold fetchData.
  eapply extends_trans; [| by eexists].
  destruct (noUpdates (options ctx)); [apply extends_refl | apply extends_sendResponse].
Qed.

Lemma extends_scheduleRetry ctx code s : extends s (scheduleRetry ctx code s).
Proof.
  unfold scheduleRetry.
  destruct (retries (options ctx) <=? Z.of_nat (attempts s)).
  - eapply extends_trans; [apply extends_sendResponse | apply extends_completeOperation].
  - cbv zeta.
    match goal with
    | |- extends s (retryFetchAfterDelay _ (incrementAttempts ?x)) =>
        apply (extends_trans s x); [| by apply extends_same]
    end.
    destruct (noUpdates (options ctx)); [apply extends_refl |].
    destruct (liveUpdates (options ctx)); [by apply extends_same |].
    apply extends_sendResponse.
Qed.

Lemma extends_checkResponseObserver ctx o s : extends s (checkResponseObserver ctx o s).
Proof.
  rewrite checkResponseObserver_verdict.
  destruct (verdict ctx o); [| | apply extends_scheduleRetry];
    (eapply extends_trans; [apply extends_sendResponse | apply extends_completeOperation]).
Qed.

Lemma extends_runTask ctx k s : extends s (runTask ctx k s).
Proof.
  destruct k; cbn [runTask].
  - apply extends_checkResponseObserver.
  - apply extends_fetchData.
  - by apply extends_same.
  - eapply extends_trans; [apply extends_sendResponse | by apply extends_same].
Qed.

Lemma extends_step ctx s s' : step ctx s = Some s' → extends s s'.
Proof.
  unfold step. destruct (pickNext (tasks s)) as [[t rest] |]; [| discriminate].
  intros [= <-].
  eapply extends_trans; [| apply extends_runTask]. by apply extends_same.
Qed.

Lemma extends_run ctx n : ∀ s, extends s (run ctx n s).
Proof.
  induction n as [| n IH]; intros s; [apply extends_refl |].
  cbn [run]. destruct (step ctx s) as [s' |] eqn:E; [| apply extends_refl].
  eapply extends_trans; [by apply (extends_step ctx) | apply IH].
Qed.

(** Less fuel gives an earlier state of the same run. *)
Lemma run_prefix ctx n m s : (n ≤ m)%nat → extends (run ctx n s) (run ctx m s).
Proof.
  intros H. replace m with (n + (m - n))%nat by lia.
  rewrite run_add. apply extends_run.
Qed.

(** ** The time between the attempts *)

Lemma delay_nonneg i a st : 0 ≤ i → 0 ≤ calculateDelayBeforeRetry i a st.
Proof.
  intros Hi. unfold calculateDelayBeforeRetry.
  destruct (String.eqb st "linear"); [done |].
  apply Z.mul_nonneg_nonneg; [done |]. apply Z.pow_nonneg. lia.
Qed.

Lemma spaced_prefix ctx l1 l2 : spaced ctx (l1 ++ l2) → spaced ctx l1.
Proof.
  intros H k t t' Hk HSk.
  apply (H k t t'); by apply lookup_app_l_Some.
Qed.

Lemma requestTimes_final t v : requestTimes [(t, Next v); (t, Complete)] = [].
Proof. reflexivity. Qed.

Lemma requestTimes_nextRound ctx code s :
  requestTimes (trace (nextRound ctx code s)) =
  requestTimes (trace s) ++ [now (nextRound ctx code s)].
Proof.
  rewrite trace_nextRound, !requestTimes_app, requestTimes_updatesOfWait.
  by destruct (noUpdates (options ctx)).
Qed.

Lemma requestTimes_subscribe ctx a t : requestTimes (trace (subscribe ctx a t)) = [t].
Proof. rewrite trace_subscribe. by destruct (noUpdates (options ctx)). Qed.

Lemma spaced_complete_run ctx t0 :
  0 ≤ interval (options ctx) →
  ∃ n, ∀ fuel, (n ≤ fuel)%nat →
    spaced ctx (requestTimes (trace (run ctx fuel (subscribe ctx 0 t0)))).
Proof.
  intros Hi.
  pose (I := λ s : State,
    length (requestTimes (trace s)) = S (attempts s)
    ∧ requests s = S (attempts s)
    ∧ spaced ctx (requestTimes (trace s))
    ∧ ∀ d o, awaiting s d o →
        ∃ tl, requestTimes (trace s) !! attempts s = Some tl
              ∧ d = tl + (backend ctx (attempts s) tl).1).
  destruct (complete_run ctx I (λ s, spaced ctx (requestTimes (trace s)))) with (t := t0)
    as [n Hn].
  - intros s d o Ha (Hlen & Hrq & Hsp & Hd) Hf.
    destruct (trace_final ctx s d o Ha Hf) as (v & Htr & _).
    by rewrite Htr, requestTimes_app, requestTimes_final, app_nil_r.
  - intros s d o code Ha (Hlen & Hrq & Hsp & Hd) Hv Hlt.
    destruct (Hd d o Ha) as (tl & Htl & ->).
    destruct (nextRound_fields ctx code (handling (tl + (backend ctx (attempts s) tl).1) s))
      as (Hnow & Hatt & Hrq' & _ & Hts).
    cbn [handling setTasks setNow now attempts requests] in Hnow, Hatt, Hrq', Hts.
    pose proof (delay_nonneg (interval (options ctx)) (attempts s)
                  (strategy (options ctx)) Hi) as HD.
    rewrite Z.max_l in Hnow by done. rewrite Hnow, Hrq in Hts.
    unfold I. rewrite requestTimes_nextRound, Hatt, Hrq', Hnow.
    cbn [handling setTasks setNow trace].
    split; [rewrite length_app; cbn; lia |]. split; [lia |]. split.
    + intros k t t' Hk HSk.
      destruct (decide (S k < length (requestTimes (trace s)))%nat) as [Hin | Hout].
      * rewrite lookup_app_l in Hk, HSk by lia. by apply Hsp.
      * assert (HS : S k = length (requestTimes (trace s))).
        { apply lookup_lt_Some in HSk. rewrite length_app in HSk. cbn in HSk. lia. }
        rewrite lookup_app_l in Hk by lia.
        rewrite lookup_app_r, HS, Nat.sub_diag in HSk by lia.
        assert (k = attempts s) as -> by lia.
        rewrite Htl in Hk. injection Hk as <-. injection HSk as <-. done.
    + intros d' o' [_ Ha']. rewrite Hts in Ha'. injection Ha' as <- _.
      eexists. split; [| reflexivity].
      rewrite lookup_app_r, Hlen, Nat.sub_diag by lia. reflexivity.
  - destruct (subscribe_fields ctx 0 t0) as (_ & Hatt & Hrq & _ & Hts).
    unfold I. rewrite requestTimes_subscribe, Hatt, Hrq.
    split; [done |]. split; [done |]. split.
    + intros k t t' Hk HSk. apply lookup_lt_Some in HSk. cbn in HSk. lia.
    + intros d o [_ Ha]. rewrite Hts in Ha. injection Ha as <- _. by eexists.
  - exists n. intros fuel Hfuel. apply (Hn fuel Hfuel).
Qed.

Lemma calculateDelayBeforeRetryDouble_exact i a s :
  exactDelay i a →
  calculateDelayBeforeRetryDouble i a s = JInt (calculateDelayBeforeRetry i a s).
Proof.
  intros (_ & Ha & Hp).
  unfold calculateDelayBeforeRetryDouble, calculateDelayBeforeRetry.
  destruct (String.eqb s "linear"); [done |].
  destruct (Z.leb_spec 1024 (Z.of_nat a)) as [Hge | _]; [lia |].
  set (B := 2 ^ 1024) in *.
  destruct (Z.leb_spec B (Z.abs i * 2 ^ Z.of_nat a)) as [Hge | _]; [lia | done].
Qed.

Lemma exactDelay_valid i a :
  0 ≤ i ≤ MAX_RETRY_INTERVAL → Z.of_nat a ≤ MAX_RETRIES → exactDelay i a.
Proof.
  unfold MAX_RETRY_INTERVAL, MAX_RETRIES, exactDelay. intros Hi Ha.
  assert (Hpow : 2 ^ Z.of_nat a ≤ 2 ^ 10) by (apply Z.pow_le_mono_r; lia).
  assert (0 < 2 ^ Z.of_nat a) by (apply Z.pow_pos_nonneg; lia).
  change (2 ^ 10) with 1024 in Hpow.
  assert (H53 : 60000 < 2 ^ 53) by reflexivity.
  assert (H1024 : 60000 * 1024 < 2 ^ 1024) by reflexivity.
  set (B := 2 ^ 1024) in *. set (C := 2 ^ 53) in *.
  rewrite Z.abs_eq by lia. split; [lia |]. split; [lia |]. nia.
Qed.





(** ** The attempt an update reports *)

Lemma verdict_Deliver ctx o body :
  verdict ctx o = Deliver body → getProp "ready" body = JBool true.
Proof.
  unfold verdict, classify. destruct o as [status b | status e].
  - destruct (checkForValidResponse status b) eqn:E.
    + intros [= <-]. by apply checkForValidResponse_true in E as (_ & ? & _).
    + by destruct (retryOnUnexpectedFormat (options ctx)).
  - destruct (checkResponseForRetry status e); [done |].
    by destruct (retryOnServerFailure (options ctx)).
Qed.

Lemma ready_dataEvent body :
  getProp "ready" body = JBool true → getProp "ready" (dataEvent body) = JBool true.
Proof.
  destruct body; try discriminate. cbn. intros H. unfold spread.
  by rewrite lookup_union_r.
Qed.

Lemma reportsAttempt_update code a M :
  reportsAttempt false a M (errorEvent code (attemptsUpdateData a M)).
Proof.
  split; [reflexivity |]. split; [reflexivity |]. split; [reflexivity |].
  split; reflexivity.
Qed.

Lemma reportsAttempt_tick code rem a M :
  0 ≤ rem → reportsAttempt true a M (errorEvent code (liveUpdateData rem a M)).
Proof.
  intros Hrem.
  split; [reflexivity |]. split; [reflexivity |]. split; [reflexivity |].
  exists rem. split; [done |]. split; reflexivity.
Qed.

Lemma loading_update code a M : 
  getProp "loading" (errorEvent code (attemptsUpdateData a M)) = JBool false.
Proof. reflexivity. Qed.

Lemma loading_tick code rem a M :
  getProp "loading" (errorEvent code (liveUpdateData rem a M)) = JBool false.
Proof. reflexivity. Qed.

Lemma updates_app ctx l1 : ∀ k l2,
  updates ctx k (l1 ++ l2) ↔ updates ctx k l1 ∧ updates ctx (k + gets l1) l2.
Proof.
  induction l1 as [| [t [v | | u]] l1 IH]; intros k l2; cbn [app updates];
    autorewrite with counts.
  - rewrite Nat.add_0_r. tauto.
  - rewrite IH. tauto.
  - tauto.
  - rewrite IH. by replace (S k + gets l1)%nat with (k + S (gets l1))%nat by lia.
Qed.

Lemma updates_updatesOfWait ctx code a t0 :
  updates ctx (S a) (updatesOfWait ctx code a t0).
Proof.
  unfold updatesOfWait.
  destruct (noUpdates (options ctx)) eqn:Hnu; [done |].
  destruct (liveUpdates (options ctx)) eqn:Hlive.
  - unfold countdown. generalize (tickCount
      (calculateDelayBeforeRetry (interval (options ctx)) a (strategy (options ctx)))
      (tickPeriod (updateInterval (options ctx)))).
    intros n. generalize 0%nat.
    induction n as [| n IH]; intros i; [done |].
    cbn [seq fmap list_fmap updates tickEntry]. split; [| apply IH].
    right. split; [lia |]. split; [done |]. rewrite Hlive. cbn [pred].
    apply reportsAttempt_tick. lia.
  - split; [| done]. right. split; [lia |]. split; [done |]. rewrite Hlive.
    apply reportsAttempt_update.
Qed.

(** The first event of a wait that emits any. *)
Lemma updatesOfWait_head ctx code a t0 :
  noUpdates (options ctx) = false →
  liveUpdates (options ctx) = false ∨ 0 < interval (options ctx) →
  ∃ t v rest,
    updatesOfWait ctx code a t0 = (t, Next v) :: rest
    ∧ getProp "loading" v ≠ JBool true
    ∧ reportsAttempt (liveUpdates (options ctx)) a (retries (options ctx)) v.
Proof.
  intros Hnu Hsome. unfold updatesOfWait. rewrite Hnu.
  destruct (liveUpdates (options ctx)) eqn:Hlive.
  - destruct Hsome as [Hsome | Hi]; [discriminate Hsome |].
    set (D := calculateDelayBeforeRetry _ _ _).
    assert (HD : 0 < D).
    { unfold D, calculateDelayBeforeRetry.
      destruct (String.eqb _ _); [done |].
      apply Z.mul_pos_pos; [done |]. apply Z.pow_pos_nonneg; lia. }
    destruct (tickCount_spec ctx D) as [_ Hpos]. specialize (Hpos HD).
    pose proof (tickPeriod_pos ctx).
    destruct (tickCount D _) as [| n]; [cbn in Hpos; lia |].
    unfold countdown. cbn [seq fmap list_fmap tickEntry].
    eexists _, _, _. split; [reflexivity |].
    split; [rewrite loading_tick; discriminate |].
    apply reportsAttempt_tick. lia.
  - eexists _, _, _. split; [reflexivity |].
    split; [rewrite loading_update; discriminate |].
    apply reportsAttempt_update.
Qed.

Lemma updateBefore_app ctx k tr l : updateBefore ctx k tr → updateBefore ctx k (tr ++ l).
Proof.
  intros (pre & t & v & post & -> & Hk & Hpost & Hl & Hr).
  exists pre, t, v, (post ++ l). rewrite <- app_assoc. split; [done |].
  split; [done |]. split; [rewrite gets_app; lia |]. done.
Qed.

(** Where an entry of a trace lies that ends with two given entries. *)
Lemma split_last_two {A} (pre : list A) x rest pre0 y z :
  pre ++ x :: rest = pre0 ++ [y; z] →
  (∃ post, pre0 = pre ++ x :: post ∧ rest = post ++ [y; z])
  ∨ (pre = pre0 ∧ x = y ∧ rest = [z])
  ∨ (pre = pre0 ++ [y] ∧ x = z ∧ rest = []).
Proof.
  revert pre0. induction pre as [| a pre IH]; intros pre0 H.
  - destruct pre0 as [| b pre0].
    + injection H as -> ->. right. by left.
    + injection H as -> ->. destruct pre0 as [| c pre0].
      * cbn. left. by exists [].
      * left. by eexists.
  - destruct pre0 as [| b pre0].
    + cbn in H. injection H as -> H. destruct pre as [| c pre].
      * injection H as -> ->. right. by right.
      * injection H as -> H. by destruct pre.
    + injection H as -> H. destruct (IH pre0 H) as [(post & -> & ->) | [(-> & -> & ->) | (-> & -> & ->)]].
      * left. by exists post.
      * right. by left.
      * right. by right.
Qed.

Lemma laidOut_complete_run ctx t0 :
  ∃ n, ∀ fuel, (n ≤ fuel)%nat → laidOut ctx (run ctx fuel (subscribe ctx 0 t0)).
Proof.
  pose (Inv := λ s : State,
    gets (trace s) = S (attempts s) ∧ updates ctx 0 (trace s)
    ∧ (∃ before t u, trace s = before ++ [(t, HttpGet u)])
    ∧ (noUpdates (options ctx) = false →
       liveUpdates (options ctx) = false ∨ 0 < interval (options ctx) →
       ∀ k, (1 ≤ k ≤ attempts s)%nat → updateBefore ctx k (trace s))).
  destruct (complete_run ctx Inv (laidOut ctx)) with (t := t0) as [n Hn].
  - intros s d o Ha (Hg & Hup & Hget & Hex) Hf.
    destruct (trace_final ctx s d o Ha Hf) as (v & Htr & _ & Hatt & _ & Hv).
    exists (trace s), d, v. rewrite Hatt. split; [done |]. split; [done |].
    split; [done |]. split; [done |]. split; [done |].
    subst v. destruct (verdict ctx o) as [body | code | code] eqn:Hverdict.
    + left. apply ready_dataEvent. by apply (verdict_Deliver ctx o).
    + right. by left.
    + right. right. split; reflexivity.
  - intros s d o code Ha (Hg & Hup & _ & Hex) Hv Hlt. unfold Inv.
    destruct (nextRound_fields ctx code (handling d s)) as (_ & Hatt & _).
    rewrite gets_nextRound, Hatt, trace_nextRound.
    cbn [handling setTasks setNow trace attempts now].
    split; [by rewrite Hg |]. split; [| split].
    + rewrite !updates_app. rewrite Hg. split; [done |]. split.
      * apply updates_updatesOfWait.
      * destruct (noUpdates (options ctx)); cbn [app updates]; repeat split.
        by left.
    + eexists _, _, _. rewrite !app_assoc. reflexivity.
    + intros Hnu Hsome k Hk.
      destruct (decide (k ≤ attempts s)%nat) as [Hold | Hnew].
      * apply updateBefore_app. apply (Hex Hnu Hsome). lia.
      * assert (k = S (attempts s)) as -> by lia.
        destruct (updatesOfWait_head ctx code (attempts s) d Hnu Hsome)
          as (t & v & rest & -> & Hl & Hr).
        exists (trace s), t, v, (rest ++ (if noUpdates (options ctx) then []
             else [(now (nextRound ctx code (handling d s)), Next loadingEvent)])
             ++ [(now (nextRound ctx code (handling d s)), HttpGet (url ctx))]).
        split; [done |]. split; [done |]. split; [| done].
        rewrite !gets_app. autorewrite with counts. lia.
  - destruct (subscribe_fields ctx 0 t0) as (_ & Hatt & _).
    unfold Inv. rewrite gets_subscribe, Hatt, trace_subscribe. split; [done |].
    split; [| split].
    + destruct (noUpdates (options ctx)); cbn [app updates]; repeat split. by left.
    + by eexists _, _, _.
    + intros _ _ k Hk. lia.
  - exists n. intros fuel Hfuel. apply (Hn fuel Hfuel).
Qed.

Lemma loading_loadingEvent : getProp "loading" loadingEvent = JBool true.
Proof. reflexivity. Qed.

Lemma totalDelay_loadingEvent :
  getProp "totalDelay" (getProp "error" loadingEvent) = JUndefined.
Proof. reflexivity. Qed.

(** An entry before the last one of a trace has the last one after it. *)
Lemma followed_by_last {A} (l1 l2 before : list A) (x g : A) :
  l1 ++ x :: l2 = before ++ [g] → x ≠ g → ∃ l2', l2 = l2' ++ [g].
Proof.
  intros H Hne. destruct l2 as [| y l2 _] using rev_ind.
  - apply app_inj_tail in H as [_ H]. by destruct Hne.
  - exists l2.
    change (l1 ++ x :: l2 ++ [y]) with (l1 ++ (x :: l2) ++ [y]) in H.
    rewrite app_assoc in H. apply app_inj_tail in H as [_ ->]. done.
Qed.

Lemma gets_before_complete {l1 l2 : list (Z * Action)} {d} :
  l1 ++ l2 = [(d, Complete)] → gets l1 = 0%nat.
Proof.
  destruct l1 as [| e l1]; [done |]. intros [= -> H].
  by apply app_eq_nil in H as [-> _].
Qed.

(** C10: in the trace of a run, take an event other than [{loading: true}]
    that a request follows: it is an update of the wait before retry [k],
    [k] being the number of requests issued before it. It carries
    [attempts = k - 1], the count before the increment, and
    [maxRetries]; its message reads ['Attempt k-1 of M'], alone when
    [liveUpdates] is off and at the end of the countdown message of each
    tick when it is on. Such an update is there for every retry made,
    when updates are sent and the wait is long enough for a tick. And the
    max-retries error, the event that reports a total delay, is followed
    by no request and carries the number of retries made, all the
    requests but the first: the count after the last increment. No event
    is left out: as the run goes on, every event is followed by a request,
    or is the last one, with only the completion after it. *)
Theorem attempt_numbering (ctx : Context) (t0 : Z) (fuel : nat) :
  let tr := trace (run ctx fuel (subscribe ctx 0 t0)) in
  let live := liveUpdates (options ctx) in
  let M := retries (options ctx) in
  (∀ pre t v post,
     tr = pre ++ (t, Next v) :: post →
     getProp "loading" v ≠ JBool true → gets post ≠ 0%nat →
     (1 ≤ gets pre)%nat ∧ noUpdates (options ctx) = false
     ∧ reportsAttempt live (pred (gets pre)) M v)
  ∧ (noUpdates (options ctx) = false →
     live = false ∨ 0 < interval (options ctx) →
     ∀ k, (1 ≤ k < gets tr)%nat → updateBefore ctx k tr)
  ∧ (∀ pre t v post,
       tr = pre ++ (t, Next v) :: post →
       getProp "ready" v ≠ JBool true →
       getProp "totalDelay" (getProp "error" v) ≠ JUndefined →
       gets post = 0%nat
       ∧ getProp "attempts" (getProp "error" v) = JInt (Z.of_nat (gets pre) - 1)
       ∧ getProp "maxRetries" (getProp "error" v) = JInt M)
  ∧ (∃ n, ∀ pre t v post,
       tr = pre ++ (t, Next v) :: post →
       ∃ post',
         trace (run ctx (fuel + n) (subscribe ctx 0 t0)) = pre ++ (t, Next v) :: post'
         ∧ (gets post' ≠ 0%nat ∨ post' = [(t, Complete)])).
Proof.
  intros tr live M.
  destruct (laidOut_complete_run ctx t0) as [n Hn].
  destruct (run_prefix ctx fuel (fuel + n) (subscribe ctx 0 t0) ltac:(lia)) as [l Hl].
  specialize (Hn (fuel + n)%nat ltac:(lia)).
  destruct Hn as (pre0 & d & vl & Htr & Hup & Hg & Hget & Hex & Hlast).
  assert (Hrun : trace (run ctx (fuel + n) (subscribe ctx 0 t0)) = tr ++ l) by exact Hl.
  rewrite Hl in Htr. fold tr in Htr.
  set (a := attempts (run ctx (fuel + n) (subscribe ctx 0 t0))) in *.
  split; [| split; [| split]]; cycle 3.
  { exists n. intros pre t v post Hsplit. exists (post ++ l).
    rewrite Hrun, Hsplit, <- app_assoc. split; [done |].
    rewrite Hsplit, <- app_assoc in Htr. cbn [app] in Htr.
    destruct (split_last_two _ _ _ _ _ _ Htr)
      as [(post' & Hpre0 & ->) | [(_ & Hx & ->) | (_ & Hx & _)]].
    - left. destruct Hget as (before & tg & u & Hbefore). rewrite Hbefore in Hpre0.
      symmetry in Hpre0.
      destruct (followed_by_last _ _ _ _ _ Hpre0 ltac:(discriminate)) as [q ->].
      rewrite !gets_app. autorewrite with counts. lia.
    - right. by injection Hx as -> _.
    - discriminate Hx. }
  - intros pre t v post Hsplit Hload Hpost.
    rewrite Hsplit, <- app_assoc in Htr. cbn [app] in Htr.
    destruct (split_last_two _ _ _ _ _ _ Htr)
      as [(post' & -> & _) | [(_ & _ & Hrest) | (_ & Hx & _)]].
    + apply updates_app in Hup as [_ Hup]. cbn [Nat.add updates] in Hup.
      destruct Hup as [[-> | Hup] _]; [by destruct Hload | exact Hup].
    + destruct Hpost. exact (gets_before_complete Hrest).
    + discriminate Hx.
  - intros Hnu Hsome k Hk.
    assert (Hle : (gets tr ≤ S a)%nat).
    { rewrite <- Hg. apply (f_equal gets) in Htr. rewrite !gets_app in Htr.
      autorewrite with counts in Htr. lia. }
    destruct (Hex Hnu Hsome k ltac:(lia)) as (p & t & v & q & -> & Hp & Hq & Hload & Hr).
    rewrite <- app_assoc in Htr. cbn [app] in Htr.
    change (tr ++ l = p ++ (t, Next v) :: q ++ [(d, Next vl); (d, Complete)]) in Htr.
    replace (p ++ (t, Next v) :: q ++ [(d, Next vl); (d, Complete)])
      with ((p ++ [(t, Next v)]) ++ (q ++ [(d, Next vl); (d, Complete)])) in Htr
      by (by rewrite <- app_assoc).
    apply List.app_eq_app in Htr as [m [[Htr _] | [Htr _]]].
    + exists p, t, v, m. rewrite Htr, <- app_assoc. split; [done |].
      split; [done |]. split; [| done].
      rewrite Htr, !gets_app in Hk. autorewrite with counts in Hk. lia.
    + apply (f_equal gets) in Htr. rewrite !gets_app in Htr.
      autorewrite with counts in Htr. lia.
  - intros pre t v post Hsplit Hready Htotal.
    rewrite Hsplit, <- app_assoc in Htr. cbn [app] in Htr.
    destruct (split_last_two _ _ _ _ _ _ Htr)
      as [(post' & -> & _) | [(-> & Hx & Hrest) | (_ & Hx & _)]].
    + apply updates_app in Hup as [_ Hup]. cbn [Nat.add updates] in Hup.
      destruct Hup as [[-> | (_ & _ & _ & _ & Hnone & _)] _]; by destruct Htotal.
    + injection Hx as _ ->. split; [exact (gets_before_complete Hrest) |].
      destruct Hlast as [Hr | [Hnone | [Hatt Hmax]]]; [done | done |].
      rewrite Hatt, Hmax, Hg. split; [| done]. f_equal. lia.
    + discriminate Hx.
Qed.

Lemma ready_maxRetries code totalDelay a M :
  getProp "ready" (errorEvent code (maxRetriesData totalDelay a M)) = JUndefined.
Proof. reflexivity. Qed.

Lemma totalDelay_maxRetries code totalDelay a M :
  getProp "totalDelay" (getProp "error" (errorEvent code (maxRetriesData totalDelay a M)))
  = JNum (Qmake totalDelay 1000).
Proof. reflexivity. Qed.

(** ** Cancellation *)

Lemma cancel_fields t s :
  tasks (cancel t s) = [] ∧ isStopped (cancel t s) = true
  ∧ now (cancel t s) = t ∧ attempts (cancel t s) = attempts s
  ∧ requests (cancel t s) = requests s
  ∧ trace (cancel t s) = trace s ++ (if isStopped s then [] else [(t, Complete)]).
Proof.
  unfold cancel, completeOperation. destruct (isStopped s) eqn:E; cbn; rewrite ?E;
    by rewrite ?app_nil_r.
Qed.

(** A stopped subscriber is sent nothing, whatever task runs. *)
Lemma sendResponse_stopped v s : isStopped s = true → sendResponse v s = s.
Proof. intros H. unfold sendResponse. by rewrite H. Qed.

Lemma completeOperation_stopped s : isStopped s = true → completeOperation s = s.
Proof. intros H. unfold completeOperation. by rewrite H. Qed.

Lemma runTask_stopped ctx k s :
  isStopped s = true →
  isStopped (runTask ctx k s) = true
  ∧ List.filter isNext (trace (runTask ctx k s)) = List.filter isNext (trace s).
Proof.
  intros Hs. destruct k as [o | | w | w e code]; cbn [runTask].
  - rewrite checkResponseObserver_verdict.
    destruct (verdict ctx o) as [body | code | code].
    + unfold sendAndCompleteResponse.
      by rewrite sendResponse_stopped, completeOperation_stopped.
    + unfold sendErrorAndCompleteResponse, sendErrorResponse.
      by rewrite sendResponse_stopped, completeOperation_stopped.
    + unfold scheduleRetry.
      destruct (retries (options ctx) <=? Z.of_nat (attempts s)).
      * unfold sendMaxRetriesError, sendErrorAndCompleteResponse, sendErrorResponse.
        by rewrite sendResponse_stopped, completeOperation_stopped.
      * cbv zeta. unfold sendAttemptsUpdate, sendErrorResponse.
        rewrite sendResponse_stopped by done.
        by destruct (noUpdates (options ctx)), (liveUpdates (options ctx)).
  - unfold fetchData. rewrite sendResponse_stopped by done.
    destruct (noUpdates (options ctx)); cbn [isStopped trace];
      by rewrite List.filter_app, app_nil_r.
  - done.
  - unfold liveUpdate. by rewrite sendResponse_stopped.
Qed.

Lemma run_stopped ctx n : ∀ s,
  isStopped s = true →
  List.filter isNext (trace (run ctx n s)) = List.filter isNext (trace s).
Proof.
  induction n as [| n IH]; intros s Hs; [done |].
  cbn [run]. unfold step. destruct (pickNext (tasks s)) as [[t rest] |]; [| done].
  destruct (runTask_stopped ctx (kind t) (setTasks rest (setNow (due t) s)) Hs)
    as [Hs' Htr].
  by rewrite IH, Htr.
Qed.

(** C3: in whatever state the cancel signal finds the stream, with a
    request in flight, a retry timer or a countdown pending, nothing is
    sent on it from then on: the signal itself adds no event, only the
    completion if the stream had not ended yet; it leaves no pending task,
    so no run of the scheduler changes the state again; and a stopped
    subscriber receives no event even from a task that would still run. *)
Theorem cancel_silent (ctx : Context) (s : State) (t t' : Z) (n : nat) :
  tasks (cancel t s) = [] ∧ isStopped (cancel t s) = true
  ∧ trace (cancel t s) = trace s ++ (if isStopped s then [] else [(t, Complete)])
  ∧ List.filter isNext (trace (cancel t s)) = List.filter isNext (trace s)
  ∧ run ctx n (cancel t s) = cancel t s
  ∧ trace (cancel t' (cancel t s)) = trace (cancel t s)
  ∧ (∀ s', isStopped s' = true →
       List.filter isNext (trace (run ctx n s')) = List.filter isNext (trace s')).
Proof.
  destruct (cancel_fields t s) as (Ht & Hs & _ & _ & _ & Htr).
  repeat split; try done.
  - rewrite Htr, List.filter_app. destruct (isStopped s); cbn; by rewrite app_nil_r.
  - by apply run_idle.
  - destruct (cancel_fields t' (cancel t s)) as (_ & _ & _ & _ & _ & ->).
    by rewrite Hs, app_nil_r.
  - intros s'. apply run_stopped.
Qed.

(** ** The live countdown *)

Lemma ceilSeconds_spec ms : 1000 * (ceilSeconds ms - 1) < ms ≤ 1000 * ceilSeconds ms.
Proof.
  unfold ceilSeconds.
  pose proof (Z.div_mod (ms + 999) 1000 ltac:(lia)).
  pose proof (Z.mod_pos_bound (ms + 999) 1000 ltac:(lia)). lia.
Qed.

(** The state in which a live wait begins. *)
Lemma scheduleRetry_live ctx code s0 :
  tasks s0 = [] → isStopped s0 = false →
  Z.of_nat (attempts s0) < retries (options ctx) →
  liveUpdates (options ctx) = true → noUpdates (options ctx) = false →
  let D := calculateDelayBeforeRetry (interval (options ctx)) (attempts s0)
             (strategy (options ctx)) in
  scheduleRetry ctx code s0 =
  mkState (now s0) (S (attempts s0)) false (requests s0)
    [{| due := now s0 + Z.max D 0; kind := TickStop (attempts s0) |};
     {| due := now s0 + Z.max 0 0; kind := Tick (attempts s0) (now s0 + D) code |};
     {| due := now s0 + Z.max D 0; kind := RetryTimer |}]
    (trace s0).
Proof.
  intros Ht Hs Hlt Hlive Hnu. destruct s0 as [t a st r ts tr]. cbn in *. subst.
  unfold scheduleRetry. cbn [attempts].
  destruct (Z.leb_spec (retries (options ctx)) (Z.of_nat a)); [lia |].
  by rewrite Hlive, Hnu.
Qed.

(** C7, as amended. A live wait of [D] that begins at [t0] delivers tick
    [j] at [t0 + j * T] for every [j] with [j * T < D], where [T] is the
    update interval (one millisecond when the update interval is 0): the
    first tick falls at [t0] when [D] is positive, and a wait of 0 has no
    tick. Tick [j] carries [delay = max (D - j * T) 0] and a message that
    counts the seconds rounded up; the delays never increase. After [k]
    ticks, either the cancel signal ends the stream, and nothing can run
    any more, or, when all the ticks are out and [D] has passed, the
    countdown stops without a further tick and the retry timer is the only
    pending task. *)
Theorem countdown_contract (ctx : Context) (s0 : State) (code : ErrorCodes) (k : nat) :
  let D := calculateDelayBeforeRetry (interval (options ctx)) (attempts s0)
             (strategy (options ctx)) in
  let T := tickPeriod (updateInterval (options ctx)) in
  let n := tickCount D T in
  let s := scheduleRetry ctx code s0 in
  tasks s0 = [] → isStopped s0 = false →
  Z.of_nat (attempts s0) < retries (options ctx) →
  liveUpdates (options ctx) = true → noUpdates (options ctx) = false →
  (k ≤ n)%nat →
  (* the first [k] ticks *)
  trace (run ctx k s) = trace s0 ++ countdown ctx code (attempts s0) (now s0) D k
  (* what tick [j] is *)
  ∧ (∀ j : nat, (j < n)%nat →
       tickEntry ctx code (attempts s0) (now s0) D j =
       (now s0 + Z.of_nat j * T,
        Next (errorEvent code
                (liveUpdateData (Z.max (D - Z.of_nat j * T) 0) (attempts s0)
                   (retries (options ctx)))))
       ∧ Z.of_nat j * T < D)
  ∧ (1 ≤ updateInterval (options ctx) → T = updateInterval (options ctx))
  ∧ (0 < D → (0 < n)%nat) ∧ (D ≤ 0 → n = 0%nat)
  (* what a tick carries *)
  ∧ (∀ rem a M,
       getProp "delay" (getProp "error" (errorEvent code (liveUpdateData rem a M)))
       = JInt rem
       ∧ getProp "message" (getProp "error" (errorEvent code (liveUpdateData rem a M)))
         = JStr ("Retrying in " +:+ pretty (ceilSeconds rem)
                 +:+ " seconds... (Attempt " +:+ pretty (Z.of_nat a)
                 +:+ " of " +:+ pretty M +:+ ")")
       ∧ 1000 * (ceilSeconds rem - 1) < rem ≤ 1000 * ceilSeconds rem)
  ∧ (∀ i j : nat, (i ≤ j)%nat →
       Z.max (D - Z.of_nat j * T) 0 ≤ Z.max (D - Z.of_nat i * T) 0)
  (* cancelled after [k] ticks *)
  ∧ (∀ t, trace (cancel t (run ctx k s))
          = trace s0 ++ countdown ctx code (attempts s0) (now s0) D k ++ [(t, Complete)])
  ∧ (∀ t m, run ctx m (cancel t (run ctx k s)) = cancel t (run ctx k s))
  (* when [D] has passed *)
  ∧ trace (run ctx (S n) s) = trace s0 ++ countdown ctx code (attempts s0) (now s0) D n
  ∧ now (run ctx (S n) s) = now s0 + Z.max D 0
  ∧ tasks (run ctx (S n) s) = [{| due := now s0 + Z.max D 0; kind := RetryTimer |}].
Proof.
  intros D T n s Ht Hs Hlt Hlive Hnu Hk.
  pose proof (scheduleRetry_live ctx code s0 Ht Hs Hlt Hlive Hnu) as Hsched.
  fold D in Hsched. fold s in Hsched.
  pose proof (tickPeriod_pos ctx) as HT. fold T in HT.
  destruct (tickCount_spec ctx D) as [Hzero Hpos]. fold T n in Hzero, Hpos.
  destruct (run_wait_ticks ctx (now s0) D (attempts s0) code (S (attempts s0))
              (requests s0) (trace s0) k Hk) as (ts & Hrun & _).
  rewrite <- Hsched in Hrun.
  pose proof (run_wait_stop ctx (now s0) D (attempts s0) code (S (attempts s0))
                (requests s0) (trace s0)) as Hstop.
  rewrite <- Hsched in Hstop. fold T n in Hstop.
  split; [by rewrite Hrun |].
  split.
  { intros j Hj. assert (HD : 0 < D) by (destruct (Z_le_gt_dec D 0); [rewrite Hzero in Hj |]; lia).
    specialize (Hpos HD). split; [| nia].
    unfold tickEntry. cbv zeta. fold T.
    replace (now s0 + D - (now s0 + Z.of_nat j * T)) with (D - Z.of_nat j * T) by lia.
    reflexivity. }
  split; [intros Hu; unfold T, tickPeriod; lia |].
  split; [intros HD; specialize (Hpos HD); nia |].
  split; [done |].
  split; [intros rem a M; split; [reflexivity | split; [reflexivity | apply ceilSeconds_spec]] |].
  split; [intros i j Hij; nia |].
  split.
  { intros t. destruct (cancel_fields t (run ctx k s)) as (_ & _ & _ & _ & _ & Htr).
    rewrite Htr, Hrun. cbn [isStopped trace now]. by rewrite <- app_assoc. }
  split.
  { intros t m. apply run_idle. apply cancel_fields. }
  by rewrite Hstop.
Qed.

(** C7 as stated fails for a wait of 0: with [interval: 0] the notifier
    [timer(0)] of [takeUntil] is subscribed before [timer(0, updateInterval)]
    and both are due at once, so the countdown ends before its first tick:
    the run makes its retry, but no event carries a [delay]. *)
Lemma countdown_counterexample :
  let notReadyYet := HttpErrorResponse 404 (JObj {[ "ready" := JBool false ]}) in
  let ctx := {| url := "/data-not-ready";
                options := {| retries := 1; interval := 0; updateInterval := 1000;
                              strategy := "linear"; retryOnServerFailure := false;
                              retryOnUnexpectedFormat := false;
                              liveUpdates := true; noUpdates := false |};
                startTime := 0;
                backend := λ _ _, (10, notReadyYet) |} in
  let s := run ctx 10 (subscribe ctx 0 0) in
  tasks s = [] ∧ requestTimes (trace s) = [0; 10]
  ∧ Forall (λ e, ∀ v, e.2 = Next v → getProp "delay" (getProp "error" v) = JUndefined)
      (trace s)
  ∧ trace s = [(0, Next loadingEvent); (0, HttpGet "/data-not-ready");
               (10, Next loadingEvent); (10, HttpGet "/data-not-ready");
               (20, Next (errorEvent DATA_NOT_READY_YET (maxRetriesData 20 1 1)));
               (20, Complete)].
Proof.
  cbv zeta.
  match goal with |- context [trace ?s = _] => set (s0 := s) end.
  assert (Htr : trace s0 = [(0, Next loadingEvent); (0, HttpGet "/data-not-ready");
               (10, Next loadingEvent); (10, HttpGet "/data-not-ready");
               (20, Next (errorEvent DATA_NOT_READY_YET (maxRetriesData 20 1 1)));
               (20, Complete)]) by (vm_compute; reflexivity).
  split; [vm_compute; reflexivity |]. rewrite Htr.
  split; [reflexivity |]. split; [| reflexivity].
  repeat (apply Forall_cons; split;
          [intros v Hv; cbn in Hv; (discriminate Hv || (injection Hv as <-; reflexivity)) |]).
  by apply Forall_nil.
Qed.

(** ** One live stream for each component *)

Lemma emitted_cancel i t s :
  emitted i s (cancel t s) = (if isStopped s then [] else [(i, (t, Complete))]).
Proof.
  unfold emitted. destruct (cancel_fields t s) as (_ & _ & _ & _ & _ & ->).
  rewrite drop_app_length. by destruct (isStopped s).
Qed.

Lemma cancelFrom_spec t streams : ∀ i,
  length (cancelFrom i t streams).1 = length streams
  ∧ Forall ended (cancelFrom i t streams).1
  ∧ Forall (λ e, (e.1 < i + length streams)%nat ∧ e.2.2 = Complete)
      (cancelFrom i t streams).2.
Proof.
  induction streams as [| st streams IH]; intros i; cbn [cancelFrom fst snd length].
  - repeat split; constructor.
  - destruct (IH (S i)) as (Hlen & Hend & Hseen). split; [by rewrite Hlen |]. split.
    + constructor; [| done]. unfold ended. cbn [st_state].
      destruct (cancel_fields t (st_state st)) as (Ht & Hs & _). done.
    + rewrite emitted_cancel. apply Forall_app. split.
      * destruct (isStopped (st_state st)); repeat constructor. cbn. lia.
      * eapply Forall_impl; [exact Hseen |]. cbn. intros e [? ?]. split; [lia | done].
Qed.

Lemma ended_no_step st : ended st → step (st_ctx st) (st_state st) = None.
Proof. intros [_ Ht]. unfold step. by rewrite Ht. Qed.

Lemma comp_step_superseded n0 c c' :
  superseded n0 c → comp_step c c' →
  superseded n0 c'
  ∧ ∃ more, c_seen c' = c_seen c ++ more ∧ Forall (λ e, e.1 = n0) more.
Proof.
  intros [Hend Hlen] Hstep. destruct Hstep as [c i st s' Hi Hs].
  assert (Hge : (n0 ≤ i)%nat).
  { destruct (decide (i < n0)%nat) as [Hlt |]; [| lia]. exfalso.
    assert (Hst : take n0 (c_streams c) !! i = Some st) by (by rewrite lookup_take_lt).
    rewrite Forall_lookup in Hend.
    pose proof (ended_no_step st (Hend i st Hst)). congruence. }
  assert (i = n0) as -> by (apply lookup_lt_Some in Hi; lia).
  split; [split |]; cbn [c_streams c_seen].
  - by rewrite take_insert_ge.
  - by rewrite length_insert.
  - eexists. split; [reflexivity |]. unfold emitted.
    apply Forall_fmap, Forall_forall. done.
Qed.

Lemma comp_steps_superseded n0 c c' :
  superseded n0 c → rtc comp_step c c' →
  superseded n0 c'
  ∧ ∃ more, c_seen c' = c_seen c ++ more ∧ Forall (λ e, e.1 = n0) more.
Proof.
  intros Hsup Hsteps. induction Hsteps as [c | c c1 c2 Hstep _ IH].
  - split; [done |]. exists []. by rewrite app_nil_r.
  - destruct (comp_step_superseded n0 c c1 Hsup Hstep) as (Hsup1 & more1 & Hseen1 & Hall1).
    destruct (IH Hsup1) as (Hsup2 & more2 & Hseen2 & Hall2).
    split; [done |]. exists (more1 ++ more2).
    split; [by rewrite Hseen2, Hseen1, app_assoc | by apply Forall_app].
Qed.

Lemma superseded_live n0 c :
  superseded n0 c → (length (List.filter live (c_streams c)) ≤ 1)%nat.
Proof.
  intros [Hend Hlen].
  rewrite <- (take_drop n0 (c_streams c)), List.filter_app, length_app.
  rewrite filter_none.
  - cbn. etrans; [apply List.filter_length_le |]. rewrite length_drop. lia.
  - eapply Forall_impl; [exact Hend |]. intros st [Hs _]. unfold live. by rewrite Hs.
Qed.

Lemma loadData_getAndSubscribe service transport t c h :
  loadData service transport t c h = getAndSubscribe service transport t (raiseCancel t c) h.
Proof.
  unfold loadData, getAndSubscribe, raiseCancel. cbn [c_url c_retryOptions c_streams c_seen].
  destruct (get service (c_url c) (c_retryOptions c) t h) as [h1 [e | op]]; reflexivity.
Qed.

Lemma stepStream_comp_step i c c' : stepStream i c = Some c' → comp_step c c'.
Proof.
  unfold stepStream. destruct (c_streams c !! i) as [st |] eqn:Hi; [| discriminate].
  cbn. destruct (step (st_ctx st) (st_state st)) as [s' |] eqn:Hs; [| discriminate].
  intros [= <-]. by apply comp_step_stream.
Qed.

Lemma cancelFrom_streams t streams : ∀ i,
  (cancelFrom i t streams).1 = afterCancel t <$> streams.
Proof.
  induction streams as [| st streams IH]; intros i; [done |].
  cbn [cancelFrom fst fmap list_fmap]. by rewrite IH.
Qed.

Lemma cancelFrom_completions t streams : ∀ i,
  (cancelFrom i t streams).2
  = mjoin (imap (λ j st, if live st then [(i + j, (t, Complete))]%nat else []) streams).
Proof.
  induction streams as [| st streams IH]; intros i; [done |].
  cbn [cancelFrom snd imap]. rewrite emitted_cancel, IH. cbn [mjoin list_join].
  rewrite Nat.add_0_r.
  assert (Htail :
    imap (λ j st', if live st' then [((S i + j)%nat, (t, Complete))] else []) streams
    = imap ((λ j st', if live st' then [((i + j)%nat, (t, Complete))] else []) ∘ S) streams).
  { apply imap_ext. intros j st' _. cbn.
    by replace (i + S j)%nat with (S (i + j)) by lia. }
  rewrite Htail. unfold live at 2. by destruct (isStopped (st_state st)).
Qed.

Lemma afterCancel_spec t st :
  st_ctx (afterCancel t st) = st_ctx st ∧ ended (afterCancel t st)
  ∧ trace (st_state (afterCancel t st))
    = trace (st_state st) ++ (if live st then [(t, Complete)] else []).
Proof.
  unfold afterCancel, ended, live. cbn [st_ctx st_state].
  destruct (cancel_fields t (st_state st)) as (Ht & Hs & _ & _ & _ & Htr).
  split; [done |]. split; [done |]. rewrite Htr.
  by destruct (isStopped (st_state st)).
Qed.

Lemma comp_steps_keep n0 c c' :
  superseded n0 c → rtc comp_step c c' →
  take n0 (c_streams c') = take n0 (c_streams c).
Proof.
  intros Hsup Hsteps. induction Hsteps as [c | c c1 c2 Hstep _ IH]; [done |].
  destruct (comp_step_superseded n0 c c1 Hsup Hstep) as (Hsup1 & _).
  rewrite (IH Hsup1). clear IH Hsup1.
  destruct Hsup as [Hend Hlen]. destruct Hstep as [c i st s' Hi Hs].
  cbn [c_streams].
  destruct (decide (i < n0)%nat) as [Hlt |]; [| by rewrite take_insert_ge by lia].
  exfalso.
  assert (Hst : take n0 (c_streams c) !! i = Some st) by (by rewrite lookup_take_lt).
  rewrite Forall_lookup in Hend.
  pose proof (ended_no_step st (Hend i st Hst)). congruence.
Qed.

(** C8, as amended: [loadData], called again when the clock reads [t],
    raises the cancel signal and then does what any caller of [get] does,
    whatever [get] answers. The signal keeps every stream the component
    holds, with its context, and ends it: a stream that was live is sent
    its completion at [t] and nothing else, and these completions, in the
    order of the streams, are all the signal adds to the history. When
    [loadData] returns, the first actions of the new stream, if [get]
    returned one, come after them in the history: the new stream is
    subscribed to at [t] and is the last stream of the component.
    Afterwards the earlier streams stay as they are and only the new
    stream acts, so no event of an earlier stream follows one of the new
    stream, and at most one stream of the component is live. *)
Theorem loadData_supersedes (service : HttpRetryService)
    (transport : nat → Z → Z * Outcome) (t : Z) (c : Component) (h : Heap) :
  let n0 := length (c_streams c) in
  let c1 := raiseCancel t c in
  loadData service transport t c h = getAndSubscribe service transport t c1 h
  ∧ c_streams c1 = afterCancel t <$> c_streams c
  ∧ (∀ i st, c_streams c !! i = Some st →
       ∃ st', c_streams c1 !! i = Some st' ∧ st_ctx st' = st_ctx st ∧ ended st'
              ∧ trace (st_state st')
                = trace (st_state st) ++ (if live st then [(t, Complete)] else []))
  ∧ c_seen c1 = c_seen c ++ completionsAt t (c_streams c)
  ∧ (∀ c' h' r,
       loadData service transport t c h = Some (c', h', r) →
       take n0 (c_streams c') = c_streams c1
       ∧ (∃ started,
            c_seen c' = c_seen c1 ++ started
            ∧ Forall (λ e, e.1 = n0) started
            ∧ match r with
              | Some _ => c_streams c' = c_streams c1 ∧ started = []
              | None =>
                  ∃ st, c_streams c' = c_streams c1 ++ [st]
                        ∧ st_state st = subscribe (st_ctx st) 0 t
                        ∧ started = pair n0 <$> trace (st_state st)
                        ∧ ∃ v rest, started = (n0, (t, v)) :: rest
              end)
       ∧ (∀ c'', rtc comp_step c' c'' →
            take n0 (c_streams c'') = c_streams c1
            ∧ Forall ended (take n0 (c_streams c''))
            ∧ (∃ more, c_seen c'' = c_seen c' ++ more ∧ Forall (λ e, e.1 = n0) more)
            ∧ (length (List.filter live (c_streams c'')) ≤ 1)%nat)).
Proof.
  intros n0 c1.
  destruct (cancelFrom_spec t (c_streams c) 0) as (Hlen & Hend & _).
  pose proof (cancelFrom_streams t (c_streams c) 0) as Hstreams.
  pose proof (cancelFrom_completions t (c_streams c) 0) as Hcompl.
  cbn [Nat.add] in Hcompl. fold (completionsAt t (c_streams c)) in Hcompl.
  assert (Hs1 : c_streams c1 = afterCancel t <$> c_streams c) by exact Hstreams.
  assert (Hseen1 : c_seen c1 = c_seen c ++ completionsAt t (c_streams c))
    by (unfold c1, raiseCancel; cbn [c_seen]; by rewrite Hcompl).
  assert (Hlen1 : length (c_streams c1) = n0) by (by rewrite Hs1, length_fmap).
  assert (Hend1 : Forall ended (c_streams c1)) by exact Hend.
  split; [apply loadData_getAndSubscribe |]. split; [exact Hs1 |].
  split.
  { intros i st Hi.
    destruct (afterCancel_spec t st) as (Hctx & Hended & Htr).
    exists (afterCancel t st). split; [| done].
    by rewrite Hs1, list_lookup_fmap, Hi. }
  split; [exact Hseen1 |].
  intros c' h' r Hload.
  rewrite loadData_getAndSubscribe in Hload. fold c1 in Hload.
  clearbody c1. clear Hstreams Hcompl Hlen Hend Hs1 Hseen1.
  assert (Hfirst : take n0 (c_streams c') = c_streams c1
    ∧ superseded n0 c'
    ∧ ∃ started,
       c_seen c' = c_seen c1 ++ started
       ∧ Forall (λ e, e.1 = n0) started
       ∧ match r with
         | Some _ => c_streams c' = c_streams c1 ∧ started = []
         | None =>
             ∃ st, c_streams c' = c_streams c1 ++ [st]
                   ∧ st_state st = subscribe (st_ctx st) 0 t
                   ∧ started = pair n0 <$> trace (st_state st)
                   ∧ ∃ v rest, started = (n0, (t, v)) :: rest
         end).
  { unfold getAndSubscribe in Hload.
    destruct (get service (c_url c1) (c_retryOptions c1) t h) as [h1 [e | op]] eqn:Hget.
    - injection Hload as <- <- <-. unfold superseded.
      rewrite take_ge by lia. split; [done |]. split.
      + split; [done | lia].
      + exists []. by rewrite app_nil_r.
    - destruct (subscribeOperation op h1 transport t) as [st |] eqn:Hsub; [| discriminate].
      cbn in Hload. injection Hload as <- <- <-. unfold superseded.
      cbn [c_streams c_seen].
      rewrite take_app_length' by done. split; [done |]. split.
      + split; [done | rewrite length_app; cbn; lia].
      + exists (pair n0 <$> trace (st_state st)). rewrite Hlen1.
        split; [done |]. split; [apply Forall_fmap, Forall_forall; by intros e _ |].
        exists st. split; [done |].
        unfold subscribeOperation in Hsub.
        destruct (readOptions _) as [o |]; [| discriminate Hsub].
        cbn in Hsub. injection Hsub as <-. cbn [st_state st_ctx].
        assert (Hop : op_attempts op = 0%nat).
        { unfold get in Hget. destruct (validateOptions _ _); [discriminate |].
          by injection Hget as _ <-. }
        rewrite Hop. split; [done |]. split; [done |].
        rewrite trace_subscribe. cbn [options].
        destruct (noUpdates o); cbn; eauto. }
  destruct Hfirst as (Htake & Hsup & Hseen).
  split; [exact Htake |]. split; [exact Hseen |].
  intros c'' Hsteps.
  destruct (comp_steps_superseded n0 c' c'' Hsup Hsteps) as (Hsup'' & Hmore).
  split; [by rewrite (comp_steps_keep n0 c' c'') |].
  split; [apply Hsup'' |]. split; [exact Hmore |]. by apply (superseded_live n0).
Qed.

(** ** The statements at sample inputs *)

Lemma classify_exact_witness :
  classify (HttpResponse 200 (JObj {[ "ready" := JBool true; "data" := JStr "x" ]}))
  = Ready (JObj {[ "ready" := JBool true; "data" := JStr "x" ]})
  ∧ classify (HttpErrorResponse 404 notReadyBody) = NotReadyRetryable
  ∧ classify (HttpResponse 200 (JObj {[ "ready" := JBool false; "data" := JStr "x" ]}))
    = FormatInvalid
  ∧ classify (HttpErrorResponse 500 (JObj {[ "error" := JStr "500 error" ]}))
    = ServerFailure
  ∧ classify (HttpErrorResponse 404 (JObj {[ "ready" := JBool true; "data" := JStr "x" ]}))
    = ServerFailure.
Proof.
  split; [| split; [| split; [| split]]].
  - apply (classify_exact (HttpResponse 200 _)). vm_compute. repeat split; discriminate.
  - apply (classify_exact (HttpErrorResponse 404 _)). vm_compute. by split.
  - apply (classify_exact (HttpResponse 200 _)). vm_compute. intros (_ & H & _). discriminate.
  - apply (classify_exact (HttpErrorResponse 500 _)). intros [H _]. discriminate.
  - apply (classify_exact (HttpErrorResponse 404 _)). vm_compute. intros [_ H]. discriminate.
Defined.

(** Scenario D and the defaults. *)
Lemma get_validation_witness :
  throws (get sampleService "/valid-data" 2 0 (sampleHeap {[ "retries" := JInt 11 ]})).2
  ∧ ∃ op, (get sampleService "/valid-data" 2 0 (sampleHeap ∅)).2 = inr op
          ∧ op_startTime op = 0.
Proof.
  split.
  - apply (get_validation sampleService "/valid-data" 2 0
             (sampleHeap {[ "retries" := JInt 11 ]})).
    left. split; [vm_compute; discriminate |].
    intros (z & Hz & Hr). vm_compute in Hz. injection Hz as <-. vm_compute in Hr.
    destruct Hr as [_ Hr]. by apply Hr.
  - apply (get_validation sampleService "/valid-data" 2 0 (sampleHeap ∅)).
    + exists 3. split; [by vm_compute |]. unfold MAX_RETRIES. lia.
    + exists 3000. split; [by vm_compute |]. unfold MAX_RETRY_INTERVAL. lia.
    + exists 1000. split; [by vm_compute |]. unfold MAX_UPDATE_INTERVAL. lia.
    + left. by vm_compute.
Defined.

(** C6 as stated fails: with [retries: undefined] the merged [retries] is
    not an integer between 0 and 10, and with [strategy: undefined] the
    merged strategy is neither name, yet [get] does not throw: the checks
    skip an option that is [undefined]. *)
Lemma get_validation_counterexample :
  let h1 := sampleHeap {[ "retries" := JUndefined ]} in
  let h2 := sampleHeap {[ "strategy" := JUndefined ]} in
  (¬ integerUpTo MAX_RETRIES (mergedOption sampleService 2 h1 "retries")
   ∧ ¬ throws (get sampleService "/valid-data" 2 0 h1).2)
  ∧ (¬ isStrategyName (mergedOption sampleService 2 h2 "strategy")
     ∧ ¬ throws (get sampleService "/valid-data" 2 0 h2).2).
Proof.
  cbv zeta. split; split.
  - intros (z & Hz & _). vm_compute in Hz. discriminate.
  - intros [e He]. vm_compute in He. discriminate.
  - intros [H | H]; vm_compute in H; discriminate.
  - intros [e He]. vm_compute in He. discriminate.
Qed.

Lemma get_frame_witness :
  let h := sampleHeap {[ "noUpdates" := JInt 1 ]} in
  h !! 2%positive = Some {[ "noUpdates" := JInt 1 ]}
  ∧ (get sampleService "/valid-data" 2 0 h).1 !! 2%positive
    = Some {[ "noUpdates" := JInt 1 ]}
  ∧ (∀ op, (get sampleService "/valid-data" 2 0 h).2 = inr op → op_options op ≠ 2%positive).
Proof.
  cbv zeta. split; [reflexivity |].
  apply (get_frame sampleService "/valid-data" 2 0 (sampleHeap {[ "noUpdates" := JInt 1 ]})).
  reflexivity.
Defined.

(** The coercion [!!options.noUpdates] lands in the merged copy, at the
    new reference, and the caller's object keeps its value. *)
Example get_coerces_copy :
  let h' := (get sampleService "/valid-data" 2 0 (sampleHeap {[ "noUpdates" := JInt 1 ]})).1 in
  readProp 3 "noUpdates" h' = JBool true ∧ readProp 2 "noUpdates" h' = JInt 1
  ∧ objectAt 1 h' = defaultOptionsObject.
Proof. vm_compute. repeat split; reflexivity. Qed.

Lemma sampleOptions_valid live nu : validOptions (sampleOptions live nu).
Proof.
  unfold validOptions, MAX_RETRIES, MAX_RETRY_INTERVAL, MAX_UPDATE_INTERVAL. cbn.
  repeat split; try lia. by right.
Defined.

Lemma neverReady_notReady n t : notReady (neverReady n t).2.
Proof. exists notReadyBody. by split. Defined.

Lemma retries_exhausted_witness :
  validOptions (options (sampleContext true false))
  ∧ (∀ n t, notReady (backend (sampleContext true false) n t).2)
  ∧ ∃ n, ∀ fuel, (n ≤ fuel)%nat →
      let s := run (sampleContext true false) fuel (subscribe (sampleContext true false) 0 5) in
      let v := errorEvent DATA_NOT_READY_YET (maxRetriesData (now s - 0) 2 2) in
      tasks s = [] ∧ isStopped s = true
      ∧ gets (trace s) = 3%nat
      ∧ (∃ pre, trace s = pre ++ [(now s, Next v); (now s, Complete)]
                ∧ Forall intermediate pre)
      ∧ getProp "attempts" (getProp "error" v) = JInt 2
      ∧ getProp "maxRetries" (getProp "error" v) = JInt 2
      ∧ getProp "totalDelay" (getProp "error" v) = JNum (Qmake (now s - 0) 1000).
Proof.
  split; [apply sampleOptions_valid |]. split; [apply neverReady_notReady |].
  apply (retries_exhausted (sampleContext true false) 5).
  - apply sampleOptions_valid.
  - apply neverReady_notReady.
Defined.


Lemma countdown_contract_witness :
  let s0 := mkState 15 0 false 1 [] [(5, Next loadingEvent); (5, HttpGet "/data-not-ready")] in
  let s := scheduleRetry (sampleContext true false) DATA_NOT_READY_YET s0 in
  tickCount 2000 1000 = 2%nat
  ∧ trace (run (sampleContext true false) 2 s)
    = trace s0
      ++ [(15, Next (errorEvent DATA_NOT_READY_YET (liveUpdateData 2000 0 2)));
          (1015, Next (errorEvent DATA_NOT_READY_YET (liveUpdateData 1000 0 2)))]
  ∧ tasks (run (sampleContext true false) 3 s) = [{| due := 2015; kind := RetryTimer |}].
Proof.
  cbv zeta. split; [reflexivity |].
  pose proof (countdown_contract (sampleContext true false)
                (mkState 15 0 false 1 []
                   [(5, Next loadingEvent); (5, HttpGet "/data-not-ready")])
                DATA_NOT_READY_YET 2
                eq_refl eq_refl ltac:(cbn; lia) eq_refl eq_refl ltac:(vm_compute; lia))
    as (Hticks & _ & _ & _ & _ & _ & _ & _ & _ & _ & _ & Htasks).
  split; [exact Hticks | exact Htasks].
Defined.

(** The second wait of the sample stream, with the countdown and without:
    one retry has been made, and the updates say so. *)
Lemma attempt_numbering_witness :
  let live := sampleContext true false in
  let plain := sampleContext false false in
  let tick := errorEvent DATA_NOT_READY_YET (liveUpdateData 3000 1 2) in
  let update := errorEvent DATA_NOT_READY_YET (attemptsUpdateData 1 2) in
  let last := errorEvent DATA_NOT_READY_YET (maxRetriesData 6035 2 2) in
  (∃ pre post,
     trace (run live 20 (subscribe live 0 5)) = pre ++ (3025, Next tick) :: post
     ∧ gets pre = 2%nat ∧ gets post = 1%nat)
  ∧ reportsAttempt true 1 2 tick
  ∧ getProp "message" (getProp "error" tick)
    = JStr "Retrying in 3 seconds... (Attempt 1 of 2)"
  ∧ (∃ pre post,
       trace (run plain 20 (subscribe plain 0 5)) = pre ++ (2025, Next update) :: post
       ∧ gets pre = 2%nat ∧ gets post = 1%nat)
  ∧ reportsAttempt false 1 2 update
  ∧ updateBefore live 1 (trace (run live 20 (subscribe live 0 5)))
  ∧ (∃ pre post,
       trace (run plain 20 (subscribe plain 0 5)) = pre ++ (6035, Next last) :: post
       ∧ gets pre = 3%nat)
  ∧ getProp "attempts" (getProp "error" last) = JInt 2.
Proof.
  cbv zeta.
  assert (H13 : (1 ≤ 1 < 3)%nat) by lia.
  pose (preL := [(5, Next loadingEvent); (5, HttpGet "/data-not-ready");
                 (15, Next (errorEvent DATA_NOT_READY_YET (liveUpdateData 2000 0 2)));
                 (1015, Next (errorEvent DATA_NOT_READY_YET (liveUpdateData 1000 0 2)));
                 (2015, Next loadingEvent); (2015, HttpGet "/data-not-ready");
                 (2025, Next (errorEvent DATA_NOT_READY_YET (liveUpdateData 4000 1 2)))]).
  pose (postL := [(4025, Next (errorEvent DATA_NOT_READY_YET (liveUpdateData 2000 1 2)));
                  (5025, Next (errorEvent DATA_NOT_READY_YET (liveUpdateData 1000 1 2)));
                  (6025, Next loadingEvent); (6025, HttpGet "/data-not-ready");
                  (6035, Next (errorEvent DATA_NOT_READY_YET (maxRetriesData 6035 2 2)));
                  (6035, Complete)]).
  pose (preP := [(5, Next loadingEvent); (5, HttpGet "/data-not-ready");
                 (15, Next (errorEvent DATA_NOT_READY_YET (attemptsUpdateData 0 2)));
                 (2015, Next loadingEvent); (2015, HttpGet "/data-not-ready")]).
  pose (midP := [(6025, Next loadingEvent); (6025, HttpGet "/data-not-ready")]).
  assert (HL : trace (run (sampleContext true false) 20 (subscribe (sampleContext true false) 0 5))
               = preL ++ (3025, Next (errorEvent DATA_NOT_READY_YET (liveUpdateData 3000 1 2)))
                      :: postL) by (vm_compute; reflexivity).
  assert (HP : trace (run (sampleContext false false) 20
                        (subscribe (sampleContext false false) 0 5))
               = preP ++ (2025, Next (errorEvent DATA_NOT_READY_YET (attemptsUpdateData 1 2)))
                      :: midP
                      ++ [(6035, Next (errorEvent DATA_NOT_READY_YET (maxRetriesData 6035 2 2)));
                          (6035, Complete)]) by (vm_compute; reflexivity).
  assert (HgL : gets preL = 2%nat ∧ gets postL = 1%nat) by (vm_compute; split; reflexivity).
  assert (HgP : gets preP = 2%nat) by (vm_compute; reflexivity).
  assert (HgM : gets (midP ++ [(6035, Next (errorEvent DATA_NOT_READY_YET
                                              (maxRetriesData 6035 2 2)));
                               (6035, Complete)]) = 1%nat) by (vm_compute; reflexivity).
  assert (HgT : gets (trace (run (sampleContext true false) 20
                               (subscribe (sampleContext true false) 0 5))) = 3%nat)
    by (vm_compute; reflexivity).
  assert (HP' : trace (run (sampleContext false false) 20
                         (subscribe (sampleContext false false) 0 5))
                = (preP ++ (2025, Next (errorEvent DATA_NOT_READY_YET (attemptsUpdateData 1 2)))
                        :: midP)
                  ++ (6035, Next (errorEvent DATA_NOT_READY_YET (maxRetriesData 6035 2 2)))
                     :: [(6035, Complete)])
    by (rewrite HP, <- app_assoc; exact eq_refl).
  assert (HgP' : gets (preP ++ (2025, Next (errorEvent DATA_NOT_READY_YET
                                              (attemptsUpdateData 1 2))) :: midP) = 3%nat)
    by (vm_compute; reflexivity).
  destruct (attempt_numbering (sampleContext true false) 5 20) as (HupL & HexL & _).
  destruct (attempt_numbering (sampleContext false false) 5 20) as (HupP & _ & HmaxP & _).
  split.
  { exists preL, postL. split; [exact HL | exact HgL]. }
  split.
  { destruct (HupL _ _ _ _ HL) as (_ & _ & Hrep).
    - rewrite loading_tick. discriminate.
    - rewrite (proj2 HgL). discriminate.
    - rewrite (proj1 HgL) in Hrep. exact Hrep. }
  split; [vm_compute; reflexivity |].
  split.
  { eexists preP, _. split; [exact HP |]. split; [exact HgP | exact HgM]. }
  split.
  { destruct (HupP _ _ _ _ HP) as (_ & _ & Hrep).
    - rewrite loading_update. discriminate.
    - rewrite HgM. discriminate.
    - rewrite HgP in Hrep. exact Hrep. }
  split.
  { apply HexL; [exact eq_refl | right; exact eq_refl |]. rewrite HgT. exact H13. }
  split.
  { eexists _, _. split; [exact HP' | exact HgP']. }
  destruct (HmaxP _ _ _ _ HP') as (_ & Hatt & _).
  - rewrite ready_maxRetries. discriminate.
  - rewrite totalDelay_maxRetries. discriminate.
  - rewrite HgP' in Hatt. exact Hatt.
Defined.

(** A component whose first stream is waiting for its answer. *)
Lemma loadData_supersedes_witness :
  let first := {| st_ctx := sampleContext true false;
                  st_state := subscribe (sampleContext true false) 0 5 |} in
  let c := {| c_url := "/data-not-ready"; c_retryOptions := 2%positive;
              c_streams := [first];
              c_seen := pair 0%nat <$> trace (st_state first) |} in
  c_streams (raiseCancel 8 c) = [afterCancel 8 first]
  ∧ c_seen (raiseCancel 8 c) = c_seen c ++ [(0%nat, (8, Complete))]
  ∧ ∃ c' h',
      loadData sampleService neverReady 8 c (sampleHeap ∅) = Some (c', h', None)
      ∧ take 1 (c_streams c') = [afterCancel 8 first]
      ∧ (∃ started,
           c_seen c' = c_seen c ++ [(0%nat, (8, Complete))] ++ started
           ∧ Forall (λ e, e.1 = 1%nat) started
           ∧ ∃ v rest, started = (1%nat, (8, v)) :: rest)
      ∧ (∀ c'', rtc comp_step c' c'' →
           take 1 (c_streams c'') = [afterCancel 8 first]
           ∧ (∃ more, c_seen c'' = c_seen c' ++ more ∧ Forall (λ e, e.1 = 1%nat) more)
           ∧ (length (List.filter live (c_streams c'')) ≤ 1)%nat).
Proof.
  cbv zeta.
  match goal with
  | |- _ ∧ _ ∧ ∃ c' h', loadData ?sv ?tr ?t ?c ?h = _ ∧ _ =>
      assert (Hsome : match loadData sv tr t c h with
                      | Some (_, _, None) => True
                      | _ => False
                      end)
        by (vm_compute; exact Logic.I);
      destruct (loadData_supersedes sv tr t c h) as (_ & Hs1 & _ & Hseen1 & Hload);
      destruct (loadData sv tr t c h) as [[[c' h'] [e |]] |] eqn:E;
        [destruct Hsome | | destruct Hsome];
      destruct (Hload c' h' None eq_refl)
        as (Htake & (started & Hseen & Hall & st & _ & _ & _ & Hhead) & Hlater)
  end.
  split; [exact Hs1 |]. split; [exact Hseen1 |].
  exists c', h'. split; [reflexivity |]. split; [exact (eq_trans Htake Hs1) |]. split.
  - exists started. split; [| split; [exact Hall | exact Hhead]].
    rewrite app_assoc. etrans; [exact Hseen |].
    exact (f_equal (λ l, l ++ started) Hseen1).
  - intros c'' Hsteps. destruct (Hlater c'' Hsteps) as (Hkeep & _ & Hmore & Hlive).
    split; [exact (eq_trans Hkeep Hs1) |]. split; [exact Hmore | exact Hlive].
Defined.

(** C8 as stated fails: [get] cancels nothing. A caller that invokes
    [get] again, on the same options and without raising its cancel
    signal, holds two live streams, and the first goes on: its countdown
    tick at 15 follows the request the second stream made at 8. *)
Lemma get_again_counterexample :
  ∃ c1 h1 c2 h2 c3,
    getAndSubscribe sampleService neverReady 5 sampleCaller (sampleHeap ∅) = Some (c1, h1, None)
    ∧ getAndSubscribe sampleService neverReady 8 c1 h1 = Some (c2, h2, None)
    ∧ live <$> c_streams c2 = [true; true]
    ∧ rtc comp_step c2 c3
    ∧ live <$> c_streams c3 = [true; true]
    ∧ c_seen c3
      = [(0%nat, (5, Next loadingEvent)); (0%nat, (5, HttpGet "/data-not-ready"));
         (1%nat, (8, Next loadingEvent)); (1%nat, (8, HttpGet "/data-not-ready"));
         (0%nat, (15, Next (errorEvent DATA_NOT_READY_YET (liveUpdateData 3000 0 3))))].
Proof.
  pose (r1 := getAndSubscribe sampleService neverReady 5 sampleCaller (sampleHeap ∅)).
  pose (r2 := r ← r1; getAndSubscribe sampleService neverReady 8 r.1.1 r.1.2).
  pose (r3 := r ← r2; c ← stepStream 0 r.1.1; stepStream 0 c).
  assert (H1 : match r1 with Some (_, _, None) => True | _ => False end)
    by (vm_compute; exact Logic.I).
  assert (H2 : match r2 with
               | Some (c2, _, None) => live <$> c_streams c2 = [true; true]
               | _ => False
               end)
    by (vm_compute; reflexivity).
  assert (H3 : match r3 with
               | Some c3 =>
                   live <$> c_streams c3 = [true; true]
                   ∧ c_seen c3
                     = [(0%nat, (5, Next loadingEvent));
                        (0%nat, (5, HttpGet "/data-not-ready"));
                        (1%nat, (8, Next loadingEvent));
                        (1%nat, (8, HttpGet "/data-not-ready"));
                        (0%nat, (15, Next (errorEvent DATA_NOT_READY_YET
                                             (liveUpdateData 3000 0 3))))]
               | None => False
               end)
    by (vm_compute; split; reflexivity).
  unfold r3, r2 in *. clear r3 r2.
  destruct r1 as [[[c1 h1] [e1 |]] |] eqn:E1; [destruct H1 | | destruct H1].
  cbn [mbind option_bind fst snd] in H2, H3.
  destruct (getAndSubscribe sampleService neverReady 8 c1 h1) as [[[c2 h2] [e2 |]] |] eqn:E2;
    [destruct H2 | | destruct H2].
  cbn [mbind option_bind fst snd] in H3.
  destruct (stepStream 0 c2) as [c2' |] eqn:E3; [| destruct H3].
  cbn [mbind option_bind] in H3.
  destruct (stepStream 0 c2') as [c3 |] eqn:E4; [| destruct H3].
  exists c1, h1, c2, h2, c3.
  split; [exact E1 |]. split; [exact E2 |]. split; [exact H2 |]. split; [| exact H3].
  eapply rtc_l; [by apply (stepStream_comp_step 0) |].
  eapply rtc_l; [by apply (stepStream_comp_step 0) |]. apply rtc_refl.
Qed.

(** What the component has seen after the second [loadData]: the first
    stream completes at the cancel signal, then the second one starts. *)
Example loadData_twice :
  let first := {| st_ctx := sampleContext true false;
                  st_state := subscribe (sampleContext true false) 0 5 |} in
  let c := {| c_url := "/data-not-ready"; c_retryOptions := 2%positive;
              c_streams := [first];
              c_seen := pair 0%nat <$> trace (st_state first) |} in
  (λ x, c_seen x.1.1) <$> loadData sampleService neverReady 8 c (sampleHeap ∅)
  = Some [(0%nat, (5, Next loadingEvent)); (0%nat, (5, HttpGet "/data-not-ready"));
          (0%nat, (8, Complete));
          (1%nat, (8, Next loadingEvent)); (1%nat, (8, HttpGet "/data-not-ready"))].
Proof. vm_compute. reflexivity. Qed.

(** The routes of the test server, with the default options. *)
Example valid_data_run :
  let ctx := {| url := "/valid-data";
                options := {| retries := 3; interval := 3000; updateInterval := 1000;
                              strategy := "linear"; retryOnServerFailure := false;
                              retryOnUnexpectedFormat := false;
                              liveUpdates := true; noUpdates := false |};
                startTime := 0;
                backend := λ _ _,
                  (10, HttpResponse 200
                         (JObj {[ "ready" := JBool true;
                                  "data" := JStr "Welcome to Trimble" ]})) |} in
  trace (run ctx 5 (subscribe ctx 0 0))
  = [(0, Next loadingEvent); (0, HttpGet "/valid-data");
     (10, Next (JObj {[ "ready" := JBool true; "data" := JStr "Welcome to Trimble";
                        "loading" := JBool false ]}));
     (10, Complete)].
Proof. vm_compute. reflexivity. Qed.

Example invalid_format_200_run :
  let ctx := {| url := "/invalid-format-200";
                options := {| retries := 3; interval := 3000; updateInterval := 1000;
                              strategy := "linear"; retryOnServerFailure := false;
                              retryOnUnexpectedFormat := false;
                              liveUpdates := true; noUpdates := false |};
                startTime := 0;
                backend := λ _ _,
                  (10, HttpResponse 200
                         (JObj {[ "ready" := JBool false;
                                  "data" := JStr "Welcome to Trimble" ]})) |} in
  trace (run ctx 5 (subscribe ctx 0 0))
  = [(0, Next loadingEvent); (0, HttpGet "/invalid-format-200");
     (10, Next (errorEvent UNEXPECTED_RESPONSE_FORMAT ∅));
     (10, Complete)].
Proof. vm_compute. reflexivity. Qed.

(** With [noUpdates], the max-retries error is the only event. *)
Example no_updates_run :
  trace (run (sampleContext true true) 10 (subscribe (sampleContext true true) 0 5))
  = [(5, HttpGet "/data-not-ready"); (2015, HttpGet "/data-not-ready");
     (6025, HttpGet "/data-not-ready");
     (6035, Next (errorEvent DATA_NOT_READY_YET (maxRetriesData 6035 2 2)));
     (6035, Complete)].
Proof. vm_compute. reflexivity. Qed.
(** * The states of a run *)

Lemma subscribe_eq ctx t0 :
  subscribe ctx 0 t0 =
  mkState t0 0 false 1
    [{| due := t0 + (backend ctx 0 t0).1; kind := Response (backend ctx 0 t0).2 |}]
    ((if noUpdates (options ctx) then [] else [(t0, Next loadingEvent)])
     ++ [(t0, HttpGet (url ctx))]).
Proof. unfold subscribe, fetchData. by destruct (noUpdates (options ctx)). Qed.

Lemma step_tick ctx t a r tr e d w re code ts :
  d < e →
  ts = [{| due := e; kind := TickStop w |}; {| due := d; kind := Tick w re code |};
        {| due := e; kind := RetryTimer |}]
  ∨ ts = [{| due := e; kind := TickStop w |}; {| due := e; kind := RetryTimer |};
          {| due := d; kind := Tick w re code |}] →
  step ctx (mkState t a false r ts tr) =
  Some (mkState d a false r
          [{| due := e; kind := TickStop w |}; {| due := e; kind := RetryTimer |};
           {| due := d + tickPeriod (updateInterval (options ctx)); kind := Tick w re code |}]
          (tr ++ [(d, Next (errorEvent code
                              (liveUpdateData (Z.max (re - d) 0) w (retries (options ctx)))))])).
Proof.
  intros Hd Hts. pose proof (tickPeriod_pos ctx) as HT.
  destruct Hts as [-> | ->]; unfold step; pick_next;
    unfold runTask, liveUpdate, sendResponse, schedule, record, setTasks, setNow;
    cbn [now attempts isStopped requests tasks trace due kind app];
    rewrite (Z.max_l (tickPeriod (updateInterval (options ctx))) 0) by lia; reflexivity.
Qed.

Lemma step_stop ctx t a r tr e d w re code ts :
  e ≤ d →
  ts = [{| due := e; kind := TickStop w |}; {| due := d; kind := Tick w re code |};
        {| due := e; kind := RetryTimer |}]
  ∨ ts = [{| due := e; kind := TickStop w |}; {| due := e; kind := RetryTimer |};
          {| due := d; kind := Tick w re code |}] →
  step ctx (mkState t a false r ts tr) =
  Some (mkState e a false r [{| due := e; kind := RetryTimer |}] tr).
Proof.
  intros Hd Hts.
  destruct Hts as [-> | ->]; unfold step; pick_next;
    unfold runTask, setTasks, setNow;
    cbn [now attempts isStopped requests tasks trace due kind List.filter];
    cbv [isTickOf kind]; rewrite Nat.eqb_refl; reflexivity.
Qed.

Lemma step_moves ctx s s' : phase s → step ctx s = Some s' → moves ctx s s'.
Proof.
  intros Hph Hstep. destruct Hph as [t a tr d o | t a tr e | t a tr e d re code
                                    | t a tr e d re code | t a r tr Hr].
  - change (step ctx _) with
      (Some (checkResponseObserver ctx o (handling d (mkState t a false (S a)
         [{| due := d; kind := Response o |}] tr)))) in Hstep.
    injection Hstep as <-.
    rewrite checkResponseObserver_verdict.
    destruct (verdict ctx o) as [body | code | code] eqn:Hv.
    + replace (sendAndCompleteResponse body _) with
        (mkState d a true (S a) [] (tr ++ [(d, Next (lastEvent ctx o d a)); (d, Complete)])).
      { apply moves_final. intros c Hc. congruence. }
      unfold lastEvent. rewrite Hv. cbn. by rewrite <- app_assoc.
    + replace (sendErrorAndCompleteResponse code ∅ _) with
        (mkState d a true (S a) [] (tr ++ [(d, Next (lastEvent ctx o d a)); (d, Complete)])).
      { apply moves_final. intros c Hc. congruence. }
      unfold lastEvent. rewrite Hv. cbn. by rewrite <- app_assoc.
    + unfold scheduleRetry, handling, setTasks, setNow.
      cbn [now attempts isStopped requests tasks trace].
      destruct (Z.leb_spec (retries (options ctx)) (Z.of_nat a)) as [Hge | Hlt].
      * replace (sendMaxRetriesError ctx code _) with
          (mkState d a true (S a) [] (tr ++ [(d, Next (lastEvent ctx o d a)); (d, Complete)])).
        { apply moves_final. intros c Hc. done. }
        unfold lastEvent. rewrite Hv. cbn. by rewrite <- app_assoc.
      * destruct (noUpdates (options ctx)) eqn:Hnu;
          [| destruct (liveUpdates (options ctx)) eqn:Hlive].
        -- by apply (moves_wait_silent ctx t a tr d o code).
        -- by apply (moves_wait_live ctx t a tr d o code).
        -- by apply (moves_wait_update ctx t a tr d o code).
  - rewrite step_retry in Hstep. injection Hstep as <-.
    unfold fetchData, sendResponse, record.
    destruct (noUpdates (options ctx)) eqn:Hnu;
      cbn [now attempts isStopped requests tasks trace app].
    + pose proof (moves_fetch ctx t a tr e) as H. by rewrite Hnu in H.
    + pose proof (moves_fetch ctx t a tr e) as H. rewrite Hnu in H.
      by rewrite <- app_assoc.
  - destruct (Z_lt_le_dec d e) as [Hlt | Hle].
    + rewrite (step_tick ctx t (S a) (S a) tr e d a re code _ Hlt (or_introl eq_refl)) in Hstep.
      injection Hstep as <-. by apply (moves_tick ctx t a tr e d re code _ Hlt); left.
    + rewrite (step_stop ctx t (S a) (S a) tr e d a re code _ Hle (or_introl eq_refl)) in Hstep.
      injection Hstep as <-. by apply (moves_stop ctx t a tr e d re code _ Hle); left.
  - destruct (Z_lt_le_dec d e) as [Hlt | Hle].
    + rewrite (step_tick ctx t (S a) (S a) tr e d a re code _ Hlt (or_intror eq_refl)) in Hstep.
      injection Hstep as <-. by apply (moves_tick ctx t a tr e d re code _ Hlt); right.
    + rewrite (step_stop ctx t (S a) (S a) tr e d a re code _ Hle (or_intror eq_refl)) in Hstep.
      injection Hstep as <-. by apply (moves_stop ctx t a tr e d re code _ Hle); right.
  - discriminate Hstep.
Qed.

Lemma moves_phase ctx s s' : moves ctx s s' → phase s'.
Proof.
  intros [t a tr d o Hf | t a tr d o code Hv Hlt Hnu D | t a tr d o code Hv Hlt Hnu Hlive D
         | t a tr d o code Hv Hlt Hnu Hlive D | t a tr e d re code ts Hd Hts
         | t a tr e d re code ts Hd Hts | t a tr e].
  - apply phase_ended. lia.
  - apply phase_retry.
  - apply phase_retry.
  - apply phase_countdown_first.
  - apply phase_countdown.
  - apply phase_retry.
  - apply phase_request.
Qed.

Lemma cancel_eq t s :
  cancel t s =
  mkState t (attempts s) true (requests s) []
    (trace s ++ (if isStopped s then [] else [(t, Complete)])).
Proof.
  unfold cancel, completeOperation. destruct s as [t' a st r ts tr].
  destruct st; cbn; by rewrite ?app_nil_r.
Qed.

Lemma phase_counters s : phase s → (attempts s ≤ requests s ≤ S (attempts s))%nat.
Proof. intros []; cbn; lia. Qed.

(** To show that [P] holds of every state of a run. *)
Lemma reachable_invariant ctx t0 (P : State → Prop) :
  P (subscribe ctx 0 t0) →
  (∀ s s', phase s → P s → moves ctx s s' → P s') →
  (∀ s t, phase s → P s → now s ≤ t → P (cancel t s)) →
  ∀ s, reachable ctx t0 s → phase s ∧ P s.
Proof.
  intros Hsub Hmove Hcancel s Hs.
  induction Hs as [| s s' _ [Hph HP] Hstep | s t _ [Hph HP] Ht].
  - split; [| done]. rewrite subscribe_eq. apply phase_request.
  - pose proof (step_moves ctx s s' Hph Hstep) as Hm.
    split; [by apply (moves_phase ctx s) | by apply (Hmove s)].
  - split; [| by apply Hcancel].
    rewrite cancel_eq. apply phase_ended. by apply phase_counters.
Qed.

Lemma reachable_run ctx t0 n : ∀ s, reachable ctx t0 s → reachable ctx t0 (run ctx n s).
Proof.
  induction n as [| n IH]; intros s Hs; [done |].
  cbn [run]. destruct (step ctx s) as [s' |] eqn:E; [| done].
  apply IH. by apply (reachable_step ctx t0 s).
Qed.

(** ** One thing at a time *)



(** ** The completion comes last *)



Lemma lastEvent_loading ctx o d a : getProp "loading" (lastEvent ctx o d a) = JBool false.
Proof. apply loading_final. Qed.



(** ** Every request is announced *)

Lemma announced_app_plain ctx tr seg :
  announced ctx tr →
  Forall (λ e, isGet e = false ∧ isLoading e = false) seg →
  announced ctx (tr ++ seg).
Proof.
  intros [Hget Hload] Hseg. rewrite Forall_lookup in Hseg. split.
  - intros i t u Hi. apply lookup_app_Some in Hi as [Hi | [_ Hi]].
    + destruct (Hget i t u Hi) as [Hu Hj]. split; [done |].
      intros Hnu. destruct (Hj Hnu) as (j & -> & Hj'). exists j.
      split; [done |]. by apply lookup_app_l_Some.
    + by destruct (Hseg _ _ Hi) as [? _].
  - intros j t v Hj Hv. apply lookup_app_Some in Hj as [Hj | [_ Hj]].
    + destruct (Hload j t v Hj Hv) as (Hnu & -> & HS).
      split; [done |]. split; [done |]. by apply lookup_app_l_Some.
    + destruct (Hseg _ _ Hj) as [_ Hl]. unfold isLoading in Hl. cbn in Hl.
      rewrite Hv in Hl. discriminate Hl.
Qed.

Lemma announced_app_fetch ctx tr e :
  announced ctx tr →
  announced ctx
    (tr ++ (if noUpdates (options ctx) then [] else [(e, Next loadingEvent)])
        ++ [(e, HttpGet (url ctx))]).
Proof.
  intros [Hget Hload]. split.
  - intros i t u Hi. apply lookup_app_Some in Hi as [Hi | [Hle Hi]].
    + destruct (Hget i t u Hi) as [Hu Hj]. split; [done |].
      intros Hnu. destruct (Hj Hnu) as (j & -> & Hj'). exists j.
      split; [done |]. by apply lookup_app_l_Some.
    + destruct (noUpdates (options ctx)) eqn:Hnu; cbn [app] in Hi.
      * apply list_lookup_singleton_Some in Hi as [_ [= <- <-]]. done.
      * destruct (i - length tr)%nat as [| [| k]] eqn:Ek; cbn in Hi; try discriminate Hi.
        injection Hi as <- <-. split; [done |]. intros _.
        exists (length tr). split; [lia |].
        rewrite lookup_app_r by lia. by rewrite Nat.sub_diag.
  - intros j t v Hj Hv. apply lookup_app_Some in Hj as [Hj | [Hle Hj]].
    + destruct (Hload j t v Hj Hv) as (Hnu & -> & HS).
      split; [done |]. split; [done |]. by apply lookup_app_l_Some.
    + destruct (noUpdates (options ctx)) eqn:Hnu; cbn [app] in Hj.
      * apply list_lookup_singleton_Some in Hj as [_ [=]].
      * destruct (j - length tr)%nat as [| [| k]] eqn:Ek; cbn in Hj; try discriminate Hj.
        injection Hj as <- <-. split; [done |]. split; [done |].
        rewrite lookup_app_r by lia.
        replace (S j - length tr)%nat with 1%nat by lia. done.
Qed.

Lemma announced_nil ctx : announced ctx [].
Proof. split; intros i t u Hi; by rewrite lookup_nil in Hi. Qed.

Lemma plain_error code data t :
  getProp "loading" (errorEvent code data) = JBool false →
  isGet (t, Next (errorEvent code data)) = false
  ∧ isLoading (t, Next (errorEvent code data)) = false.
Proof. intros H. split; [done |]. unfold isLoading. cbn [snd]. by rewrite H. Qed.

(** X3: at every point of a run, every request in the trace is a GET of
    the url the stream was created for; unless [noUpdates] is set, the
    entry just before it is the [{loading: true}] event of the same
    instant; and an event whose [loading] is [true] is that event, followed
    at once by its request: no other event reports a request in progress,
    and none is reported that is not made. *)
Theorem requests_announced (ctx : Context) (t0 : Z) (s : State) :
  reachable ctx t0 s → announced ctx (trace s).
Proof.
  revert s.
  assert (H : ∀ s, reachable ctx t0 s → phase s ∧ announced ctx (trace s));
    [| intros s Hs; by apply H].
  apply (reachable_invariant ctx t0 (λ s, announced ctx (trace s))).
  - rewrite subscribe_eq. cbn [trace]. apply (announced_app_fetch ctx [] t0), announced_nil.
  - intros s s' _ Hann Hm.
    destruct Hm as [t a tr d o Hf | t a tr d o code Hv Hlt Hnu D
                   | t a tr d o code Hv Hlt Hnu Hlive D
                   | t a tr d o code Hv Hlt Hnu Hlive D | t a tr e d re code ts Hd Hts
                   | t a tr e d re code ts Hd Hts | t a tr e];
      cbn [trace] in *; try done.
    + apply announced_app_plain; [done |].
      apply Forall_cons. split; [| by apply Forall_singleton].
      split; [done |]. unfold isLoading. cbn [snd]. by rewrite lastEvent_loading.
    + apply announced_app_plain; [done |]. apply Forall_singleton. by apply plain_error.
    + apply announced_app_plain; [done |]. apply Forall_singleton. by apply plain_error.
    + by apply announced_app_fetch.
  - intros s t _ Hann _. rewrite cancel_eq. cbn [trace].
    apply announced_app_plain; [done |].
    destruct (isStopped s); [by apply Forall_nil | by apply Forall_singleton].
Qed.

(** ** How many requests *)

(** X4: at every point of a run, cancelled or not, the requests in the
    trace are those the stream has issued, at least one and at most
    [retries + 1] (one, if [retries] is not positive), and the counter of
    performed retries never exceeds [retries]. *)
Theorem requests_bounded (ctx : Context) (t0 : Z) (s : State) :
  reachable ctx t0 s →
  gets (trace s) = requests s
  ∧ (1 ≤ requests s)%nat
  ∧ Z.of_nat (requests s) ≤ Z.max (retries (options ctx)) 0 + 1
  ∧ Z.of_nat (attempts s) ≤ Z.max (retries (options ctx)) 0.
Proof.
  intros Hs.
  destruct (reachable_invariant ctx t0 (λ s,
    gets (trace s) = requests s ∧ (1 ≤ requests s)%nat
    ∧ Z.of_nat (attempts s) ≤ Z.max (retries (options ctx)) 0)) with (s := s)
    as (Hph & Hg & H1 & Hle); try done.
  - rewrite subscribe_eq. cbn [trace requests attempts].
    destruct (noUpdates (options ctx)); cbn; repeat split; lia.
  - clear s Hs. intros s s' _ (Hg & H1 & Hle) Hm.
    destruct Hm as [t a tr d o Hf | t a tr d o code Hv Hlt Hnu D
                   | t a tr d o code Hv Hlt Hnu Hlive D
                   | t a tr d o code Hv Hlt Hnu Hlive D | t a tr e d re code ts Hd Hts
                   | t a tr e d re code ts Hd Hts | t a tr e];
      cbn [trace requests attempts] in *; autorewrite with counts;
      repeat split; try lia.
    destruct (noUpdates (options ctx)); autorewrite with counts; lia.
  - clear s Hs. intros s t _ (Hg & H1 & Hle) _. rewrite cancel_eq.
    cbn [trace requests attempts]. autorewrite with counts.
    destruct (isStopped s); autorewrite with counts; repeat split; lia.
  - pose proof (phase_counters s Hph). repeat split; try done. lia.
Qed.

(** ** The clock *)

Lemma chronological_snoc (tr seg : list (Z * Action)) (t : Z) :
  chronological tr → Forall (λ e, e.1 ≤ t) tr → Forall (λ e, e.1 = t) seg →
  chronological (tr ++ seg) ∧ Forall (λ e, e.1 ≤ t) (tr ++ seg).
Proof.
  intros Hsorted Htr Hseg. split.
  - intros i j e e' Hij Hi Hj. rewrite Forall_lookup in Htr, Hseg.
    apply lookup_app_Some in Hj as [Hj | [Hlen Hj]].
    + assert (Hi' : tr !! i = Some e).
      { apply lookup_lt_Some in Hj. by rewrite lookup_app_l in Hi by lia. }
      by apply (Hsorted i j).
    + rewrite (Hseg _ _ Hj). apply lookup_app_Some in Hi as [Hi | [_ Hi]].
      * by apply (Htr i).
      * rewrite (Hseg _ _ Hi). lia.
  - apply Forall_app. split; [done |].
    eapply Forall_impl; [exact Hseg |]. cbn. intros e ->. lia.
Qed.

Lemma Forall_le_trans (tr : list (Z * Action)) (t t' : Z) :
  t ≤ t' → Forall (λ e, e.1 ≤ t) tr → Forall (λ e, e.1 ≤ t') tr.
Proof. intros Hle H. eapply Forall_impl; [exact H |]. cbn. intros e He. lia. Qed.

(** X5: when the transport answers no request before it is made, the
    clock of a run never goes back: every entry of the trace carries a time
    between the subscription and the current reading, the entries are in
    the order of their times, and no pending task is due in the past. *)
Theorem clock_order (ctx : Context) (t0 : Z) (s : State) :
  (∀ n t, 0 ≤ (backend ctx n t).1) →
  reachable ctx t0 s →
  t0 ≤ now s
  ∧ Forall (λ task, now s ≤ due task) (tasks s)
  ∧ Forall (λ e, t0 ≤ e.1 ≤ now s) (trace s)
  ∧ chronological (trace s).
Proof.
  intros Hlat Hs.
  pose proof (tickPeriod_pos ctx) as HT.
  destruct (reachable_invariant ctx t0 (λ s,
    t0 ≤ now s
    ∧ Forall (λ task, now s ≤ due task) (tasks s)
    ∧ Forall (λ e, t0 ≤ e.1) (trace s)
    ∧ Forall (λ e, e.1 ≤ now s) (trace s)
    ∧ chronological (trace s))) with (s := s)
    as (Hph & H0 & Hdue & Hlo & Hhi & Hsorted); try done.
  - rewrite subscribe_eq. cbn [now tasks trace].
    split; [lia |]. split; [apply Forall_singleton; cbn; specialize (Hlat 0%nat t0); lia |].
    assert (Hall : Forall (λ e : Z * Action, e.1 = t0)
              ((if noUpdates (options ctx) then [] else [(t0, Next loadingEvent)])
               ++ [(t0, HttpGet (url ctx))])).
    { destruct (noUpdates (options ctx)); repeat constructor. }
    split; [eapply Forall_impl; [exact Hall |]; cbn; intros e ->; lia |].
    assert (Hnil : chronological []).
    { intros i j e e' _ Hi. by rewrite lookup_nil in Hi. }
    by destruct (chronological_snoc [] _ t0 Hnil (Forall_nil_2 _) Hall) as [Hc Hb].
  - clear s Hs. intros s s' _ (H0 & Hdue & Hlo & Hhi & Hsorted) Hm.
    destruct Hm as [t a tr d o Hf | t a tr d o code Hv Hlt Hnu D
                   | t a tr d o code Hv Hlt Hnu Hlive D
                   | t a tr d o code Hv Hlt Hnu Hlive D | t a tr e d re code ts Hd Hts
                   | t a tr e d re code ts Hd Hts | t a tr e];
      cbn [now tasks trace] in *.
    + rewrite Forall_singleton in Hdue. cbn in Hdue.
      assert (Hall : Forall (λ e : Z * Action, e.1 = d)
                [(d, Next (lastEvent ctx o d a)); (d, Complete)]) by (by repeat constructor).
      destruct (chronological_snoc tr _ d Hsorted (Forall_le_trans tr t d Hdue Hhi) Hall)
        as [Hc Hb].
      split; [lia |]. split; [by apply Forall_nil |]. split; [| done].
      apply Forall_app. split; [done |]. repeat constructor; cbn; lia.
    + rewrite Forall_singleton in Hdue. cbn in Hdue.
      split; [lia |]. split; [apply Forall_singleton; cbn; lia |].
      split; [done |]. split; [by apply (Forall_le_trans tr t) | done].
    + rewrite Forall_singleton in Hdue. cbn in Hdue.
      assert (Hall : Forall (λ e : Z * Action, e.1 = d)
                [(d, Next (errorEvent code (attemptsUpdateData a (retries (options ctx)))))])
        by (by repeat constructor).
      destruct (chronological_snoc tr _ d Hsorted (Forall_le_trans tr t d Hdue Hhi) Hall)
        as [Hc Hb].
      split; [lia |]. split; [apply Forall_singleton; cbn; lia |].
      split; [| done]. apply Forall_app. split; [done |]. repeat constructor; cbn; lia.
    + rewrite Forall_singleton in Hdue. cbn in Hdue.
      split; [lia |]. split; [repeat constructor; cbn; lia |].
      split; [done |]. split; [by apply (Forall_le_trans tr t) | done].
    + assert (Htd : t ≤ d).
      { destruct Hts as [-> | ->]; rewrite !Forall_cons in Hdue; cbn in Hdue; lia. }
      assert (Hall : Forall (λ e : Z * Action, e.1 = d)
                [(d, Next (errorEvent code
                             (liveUpdateData (Z.max (re - d) 0) a (retries (options ctx)))))])
        by (by repeat constructor).
      destruct (chronological_snoc tr _ d Hsorted (Forall_le_trans tr t d Htd Hhi) Hall)
        as [Hc Hb].
      split; [lia |]. split; [repeat constructor; cbn; lia |].
      split; [| done]. apply Forall_app. split; [done |]. repeat constructor; cbn; lia.
    + assert (Hte : t ≤ e).
      { destruct Hts as [-> | ->]; rewrite !Forall_cons in Hdue; cbn in Hdue; lia. }
      split; [lia |]. split; [apply Forall_singleton; cbn; lia |].
      split; [done |]. split; [by apply (Forall_le_trans tr t) | done].
    + rewrite Forall_singleton in Hdue. cbn in Hdue.
      assert (Hall : Forall (λ e0 : Z * Action, e0.1 = e)
                ((if noUpdates (options ctx) then [] else [(e, Next loadingEvent)])
                 ++ [(e, HttpGet (url ctx))])).
      { destruct (noUpdates (options ctx)); repeat constructor. }
      destruct (chronological_snoc tr _ e Hsorted (Forall_le_trans tr t e Hdue Hhi) Hall)
        as [Hc Hb].
      split; [lia |].
      split; [apply Forall_singleton; cbn; specialize (Hlat (S a) e); lia |].
      split; [| done]. apply Forall_app. split; [done |].
      eapply Forall_impl; [exact Hall |]. cbn. intros e0 ->. lia.
  - clear s Hs. intros s t _ (H0 & Hdue & Hlo & Hhi & Hsorted) Ht. rewrite cancel_eq.
    cbn [now tasks trace].
    assert (Hall : Forall (λ e : Z * Action, e.1 = t)
              (if isStopped s then [] else [(t, Complete)])).
    { destruct (isStopped s); repeat constructor. }
    destruct (chronological_snoc (trace s) _ t Hsorted (Forall_le_trans _ _ t Ht Hhi) Hall)
      as [Hc Hb].
    split; [lia |]. split; [by apply Forall_nil |]. split; [| done].
    apply Forall_app. split; [done |].
    eapply Forall_impl; [exact Hall |]. cbn. intros e ->. lia.
  - split; [done |]. split; [done |]. split; [| done].
    rewrite Forall_forall in Hlo, Hhi. apply Forall_forall. intros e He.
    split; [by apply Hlo | by apply Hhi].
Qed.

(** * How a run ends *)

Lemma complete_run_settled ctx t0 :
  ∃ n, ∀ fuel, (n ≤ fuel)%nat →
    let s := run ctx fuel (subscribe ctx 0 t0) in
    settled ctx s ∧ tasks s = [] ∧ isStopped s = true.
Proof.
  pose (Inv := λ s : State,
    requests s = S (attempts s)
    ∧ length (requestTimes (trace s)) = S (attempts s)
    ∧ (∀ d o, awaiting s d o →
         ∃ t, requestTimes (trace s) !! attempts s = Some t
              ∧ o = (backend ctx (attempts s) t).2
              ∧ d = t + (backend ctx (attempts s) t).1)
    ∧ Z.of_nat (attempts s) ≤ Z.max (retries (options ctx)) 0
    ∧ ∀ j tj, (j < attempts s)%nat → requestTimes (trace s) !! j = Some tj →
        ∃ errorCode, verdict ctx (backend ctx j tj).2 = Retry errorCode).
  destruct (complete_run ctx Inv (settled ctx)) with (t := t0) as [n Hn].
  - intros s d o Ha (Hrq & Hlen & Hd & Hmax & Hold) Hf.
    destruct (Hd d o Ha) as (t & Ht & -> & ->).
    destruct (trace_final ctx s _ _ Ha Hf) as (v & Htr & Hnow & Hatt & Hrq' & Hv).
    exists (trace s), t. cbn zeta. rewrite Hnow, Hatt, Hrq', Htr.
    rewrite requestTimes_app, requestTimes_final, app_nil_r.
    repeat split; try done.
    + intros code Hc. rewrite Hatt. exact (Hf code Hc).
    + by subst v.
  - intros s d o code Ha (Hrq & Hlen & Hd & Hmax & Hold) Hv Hlt.
    destruct (Hd d o Ha) as (t & Ht & -> & ->).
    set (s' := nextRound ctx code (handling (t + (backend ctx (attempts s) t).1) s)).
    destruct (nextRound_fields ctx code (handling (t + (backend ctx (attempts s) t).1) s))
      as (_ & Hatt & Hrq' & _ & Hts).
    fold s' in Hatt, Hrq', Hts.
    cbn [handling setTasks setNow now attempts requests] in Hatt, Hrq', Hts.
    assert (Htimes : requestTimes (trace s') = requestTimes (trace s) ++ [now s']).
    { apply requestTimes_nextRound. }
    unfold Inv. rewrite Htimes, Hatt, Hrq'.
    split; [lia |]. split; [rewrite length_app; cbn; lia |]. split; [| split].
    + intros d' o' [_ Ha']. rewrite Hts, Hrq in Ha'. injection Ha' as <- <-.
      exists (now s'). split; [| done].
      rewrite lookup_app_r, Hlen, Nat.sub_diag by lia. reflexivity.
    + lia.
    + intros j tj Hj Htj.
      destruct (decide (j = attempts s)) as [-> | Hne].
      * rewrite lookup_app_l in Htj by lia. rewrite Ht in Htj. injection Htj as <-. eauto.
      * rewrite lookup_app_l in Htj by lia. apply (Hold j tj); [lia | done].
  - destruct (subscribe_fields ctx 0 t0) as (_ & Hatt & Hrq & _ & Hts).
    unfold Inv. rewrite requestTimes_subscribe, Hatt, Hrq.
    split; [done |]. split; [done |]. split; [| split].
    + intros d o [_ Ha]. rewrite Hts in Ha. injection Ha as <- <-. by eexists.
    + lia.
    + intros j tj Hj. lia.
  - exists n. intros fuel Hfuel. apply (Hn fuel Hfuel).
Qed.

(** X6: a run that is not cancelled ends, whatever the transport answers:
    nothing is left pending and the subscriber has completed. The counter
    of performed retries then numbers the last request: every earlier
    request was answered by an outcome that is retried; the last one was
    answered, at the last clock reading, by an outcome that is not retried,
    or by a retried one when [retries] were performed already; and the
    trace ends with the event that outcome calls for, the data, the plain
    error or the max-retries error, and the completion. *)
Theorem run_settles (ctx : Context) (t0 : Z) :
  ∃ n, ∀ fuel, (n ≤ fuel)%nat →
    let s := run ctx fuel (subscribe ctx 0 t0) in
    tasks s = [] ∧ isStopped s = true ∧ settled ctx s.
Proof.
  destruct (complete_run_settled ctx t0) as [n Hn]. exists n.
  intros fuel Hfuel. destruct (Hn fuel Hfuel) as (Hset & Ht & Hs). done.
Qed.

Lemma verdict_Ready ctx o body : classify o = Ready body → verdict ctx o = Deliver body.
Proof. unfold verdict. by intros ->. Qed.

Lemma classify_Ready o body :
  classify o = Ready body →
  o = HttpResponse 200 body
  ∧ getProp "ready" body = JBool true ∧ getProp "data" body ≠ JUndefined.
Proof.
  destruct o as [status b | status e]; cbn [classify].
  - destruct (checkForValidResponse status b) eqn:E; [| discriminate].
    intros [= <-]. apply checkForValidResponse_true in E as (-> & ? & ?). done.
  - by destruct (checkResponseForRetry status e).
Qed.

Lemma data_dataEvent body :
  getProp "ready" body = JBool true → getProp "data" (dataEvent body) = getProp "data" body.
Proof.
  destruct body; try discriminate. cbn. intros _. unfold spread.
  by rewrite lookup_union_r.
Qed.

(** The number of the last request of a settled run, when the first [k]
    answers are retried and the next one is not. *)
Lemma settled_attempts ctx s k :
  settled ctx s →
  (∀ j t, (j < k)%nat → ∃ errorCode, verdict ctx (backend ctx j t).2 = Retry errorCode) →
  (∀ t errorCode, verdict ctx (backend ctx k t).2 ≠ Retry errorCode) →
  Z.of_nat k ≤ retries (options ctx) →
  attempts s = k.
Proof.
  intros (pre & t & Hrq & Hlen & Ht & Hnow & Hf & Htr & Hmax & Hold) Hretried Hlast Hk.
  cbn zeta in *.
  destruct (lt_eq_lt_dec (attempts s) k) as [[Hlt | Heq] | Hgt]; [| done |].
  - destruct (Hretried (attempts s) t Hlt) as [code Hc].
    specialize (Hf code Hc). lia.
  - assert (Hsome : is_Some (requestTimes (trace s) !! k)).
    { apply lookup_lt_is_Some. lia. }
    destruct Hsome as [tk Htk].
    destruct (Hold k tk Hgt Htk) as [code Hc]. by destruct (Hlast tk code).
Qed.

(** X7: polling succeeds at the first ready answer. When the answers to
    the first [k] requests are retried, [k] being at most [retries], and
    request [k] is answered by a ready response, the run ends after
    exactly [k + 1] requests: its last event is the body of that response
    with [loading: false], so [ready] is [true] and [data] is the data of
    the body, and the completion follows. With [k = 0] this is a request
    that succeeds at once. *)
Theorem ready_ends_run (ctx : Context) (t0 : Z) (k : nat) (body : JsVal) :
  (∀ j t, (j < k)%nat → ∃ errorCode, verdict ctx (backend ctx j t).2 = Retry errorCode) →
  (∀ t, classify (backend ctx k t).2 = Ready body) →
  Z.of_nat k ≤ retries (options ctx) →
  ∃ n, ∀ fuel, (n ≤ fuel)%nat →
    let s := run ctx fuel (subscribe ctx 0 t0) in
    tasks s = [] ∧ isStopped s = true
    ∧ gets (trace s) = S k
    ∧ (∃ pre, trace s = pre ++ [(now s, Next (dataEvent body)); (now s, Complete)])
    ∧ getProp "ready" (dataEvent body) = JBool true
    ∧ getProp "data" (dataEvent body) = getProp "data" body
    ∧ getProp "data" body ≠ JUndefined
    ∧ getProp "loading" (dataEvent body) = JBool false.
Proof.
  intros Hretried Hready Hk.
  destruct (complete_run_settled ctx t0) as [n Hn]. exists n.
  intros fuel Hfuel. destruct (Hn fuel Hfuel) as (Hset & Ht & Hs). cbn zeta.
  set (s := run ctx fuel (subscribe ctx 0 t0)) in *.
  assert (Hatt : attempts s = k).
  { apply (settled_attempts ctx s k Hset Hretried); [| done].
    intros t code. by rewrite (verdict_Ready ctx _ body (Hready t)). }
  destruct Hset as (pre & t & Hrq & Hlen & Htk & Hnow & Hf & Htr & Hmax & Hold).
  cbn zeta in *. rewrite Hatt in *.
  destruct (classify_Ready _ _ (Hready t)) as (_ & Hr & Hd).
  split; [done |]. split; [done |]. split.
  { unfold gets. unfold requestTimes in Hlen. by rewrite length_fmap in Hlen. }
  split.
  { exists pre. rewrite Htr. unfold lastEvent.
    by rewrite (verdict_Ready ctx _ body (Hready t)). }
  split; [by apply ready_dataEvent |].
  split; [by apply data_dataEvent |].
  split; [done | apply loading_dataEvent].
Qed.

Lemma gets_requestTimes tr : gets tr = length (requestTimes tr).
Proof. unfold gets, requestTimes. by rewrite length_fmap. Qed.

Lemma errorEvent_plain code :
  let error := getProp "error" (errorEvent code ∅) in
  getProp "errorCode" error = JInt (errorCodeValue code)
  ∧ getProp "errorMessage" error = JStr (ErrorMessages code)
  ∧ getProp "message" error = JUndefined
  ∧ getProp "attempts" error = JUndefined
  ∧ getProp "maxRetries" error = JUndefined
  ∧ getProp "ready" (errorEvent code ∅) = JUndefined
  ∧ getProp "loading" (errorEvent code ∅) = JBool false.
Proof. by destruct code. Qed.

Lemma errorEvent_maxRetries code totalDelay a M :
  let v := errorEvent code (maxRetriesData totalDelay a M) in
  getProp "errorCode" (getProp "error" v) = JInt (errorCodeValue code)
  ∧ getProp "errorMessage" (getProp "error" v) = JStr (ErrorMessages code)
  ∧ getProp "message" (getProp "error" v)
    = JStr ("Max retries reached. Retried " +:+ pretty M +:+ " times over "
            +:+ toFixed0 totalDelay +:+ " seconds.")
  ∧ getProp "attempts" (getProp "error" v) = JInt (Z.of_nat a)
  ∧ getProp "maxRetries" (getProp "error" v) = JInt M
  ∧ getProp "totalDelay" (getProp "error" v) = JNum (Qmake totalDelay 1000)
  ∧ getProp "ready" v = JUndefined
  ∧ getProp "loading" v = JBool false.
Proof. by destruct code. Qed.

Lemma verdict_Fail ctx o code :
  verdict ctx o = Fail code ↔
  (classify o = FormatInvalid ∧ retryOnUnexpectedFormat (options ctx) = false
   ∧ code = UNEXPECTED_RESPONSE_FORMAT)
  ∨ (classify o = ServerFailure ∧ retryOnServerFailure (options ctx) = false
     ∧ code = UNKNOWN_ERROR).
Proof.
  unfold verdict.
  destruct (classify o); [| | destruct (retryOnUnexpectedFormat (options ctx))
                             | destruct (retryOnServerFailure (options ctx))];
    split; intros H; try discriminate H;
    try (destruct H as [(H1 & H2 & H3) | (H1 & H2 & H3)]; try discriminate; congruence).
  - injection H as <-. by left.
  - injection H as <-. by right.
Qed.

(** X8: a failure that is not retried ends the run at once. When the
    answers to the first [k] requests are retried, [k] being at most
    [retries], and request [k] is answered by a response of unexpected
    format while [retryOnUnexpectedFormat] is off, or by a server failure
    while [retryOnServerFailure] is off, the run ends after exactly
    [k + 1] requests: its last event is the plain error, with the code and
    the message of that failure and neither [message] nor [attempts] nor
    [maxRetries], and the completion follows; no wait is started. *)
Theorem failure_ends_run (ctx : Context) (t0 : Z) (k : nat) (code : ErrorCodes) :
  (∀ j t, (j < k)%nat → ∃ errorCode, verdict ctx (backend ctx j t).2 = Retry errorCode) →
  (∀ t,
     (classify (backend ctx k t).2 = FormatInvalid
      ∧ retryOnUnexpectedFormat (options ctx) = false
      ∧ code = UNEXPECTED_RESPONSE_FORMAT)
     ∨ (classify (backend ctx k t).2 = ServerFailure
        ∧ retryOnServerFailure (options ctx) = false
        ∧ code = UNKNOWN_ERROR)) →
  Z.of_nat k ≤ retries (options ctx) →
  ∃ n, ∀ fuel, (n ≤ fuel)%nat →
    let s := run ctx fuel (subscribe ctx 0 t0) in
    let error := getProp "error" (errorEvent code ∅) in
    tasks s = [] ∧ isStopped s = true
    ∧ gets (trace s) = S k
    ∧ (∃ pre, trace s = pre ++ [(now s, Next (errorEvent code ∅)); (now s, Complete)])
    ∧ getProp "errorCode" error = JInt (errorCodeValue code)
    ∧ getProp "errorMessage" error = JStr (ErrorMessages code)
    ∧ getProp "message" error = JUndefined
    ∧ getProp "attempts" error = JUndefined
    ∧ getProp "maxRetries" error = JUndefined.
Proof.
  intros Hretried Hfail Hk.
  assert (Hv : ∀ t, verdict ctx (backend ctx k t).2 = Fail code).
  { intros t. by apply verdict_Fail. }
  destruct (complete_run_settled ctx t0) as [n Hn]. exists n.
  intros fuel Hfuel. destruct (Hn fuel Hfuel) as (Hset & Ht & Hs). cbn zeta.
  set (s := run ctx fuel (subscribe ctx 0 t0)) in *.
  assert (Hatt : attempts s = k).
  { apply (settled_attempts ctx s k Hset Hretried); [| done].
    intros t c. by rewrite Hv. }
  destruct Hset as (pre & t & Hrq & Hlen & Htk & Hnow & Hf & Htr & Hmax & Hold).
  cbn zeta in *. rewrite Hatt in *.
  split; [done |]. split; [done |].
  split; [by rewrite gets_requestTimes |].
  split; [exists pre; rewrite Htr; unfold lastEvent; by rewrite Hv |].
  destruct (errorEvent_plain code) as (H1 & H2 & H3 & H4 & H5 & _). done.
Qed.

(** X9: failures that are retried use the retries up. When [retries] is
    not negative and every answer is one that is retried, not-ready, or of
    unexpected format with [retryOnUnexpectedFormat], or a server failure
    with [retryOnServerFailure], the run makes exactly [retries + 1]
    requests and ends with the max-retries error, which carries the code
    and the message of the last answer, whatever the earlier ones were,
    [attempts] and [maxRetries] equal to [retries] and the total delay. *)
Theorem retried_failures_exhaust (ctx : Context) (t0 : Z) :
  0 ≤ retries (options ctx) →
  (∀ j t, ∃ errorCode, verdict ctx (backend ctx j t).2 = Retry errorCode) →
  ∃ n, ∀ fuel, (n ≤ fuel)%nat →
    let s := run ctx fuel (subscribe ctx 0 t0) in
    let M := retries (options ctx) in
    tasks s = [] ∧ isStopped s = true
    ∧ gets (trace s) = S (Z.to_nat M)
    ∧ ∃ pre t code,
        requestTimes (trace s) !! Z.to_nat M = Some t
        ∧ verdict ctx (backend ctx (Z.to_nat M) t).2 = Retry code
        ∧ let v := errorEvent code (maxRetriesData (now s - startTime ctx) (Z.to_nat M) M) in
          trace s = pre ++ [(now s, Next v); (now s, Complete)]
          ∧ getProp "errorCode" (getProp "error" v) = JInt (errorCodeValue code)
          ∧ getProp "errorMessage" (getProp "error" v) = JStr (ErrorMessages code)
          ∧ getProp "attempts" (getProp "error" v) = JInt M
          ∧ getProp "maxRetries" (getProp "error" v) = JInt M.
Proof.
  intros HM Hretried.
  destruct (complete_run_settled ctx t0) as [n Hn]. exists n.
  intros fuel Hfuel. destruct (Hn fuel Hfuel) as (Hset & Ht & Hs). cbn zeta.
  set (s := run ctx fuel (subscribe ctx 0 t0)) in *.
  destruct Hset as (pre & t & Hrq & Hlen & Htk & Hnow & Hf & Htr & Hmax & Hold).
  cbn zeta in *.
  destruct (Hretried (attempts s) t) as [code Hc].
  assert (Hatt : attempts s = Z.to_nat (retries (options ctx))).
  { specialize (Hf code Hc). lia. }
  rewrite Hatt in *.
  split; [done |]. split; [done |].
  split; [by rewrite gets_requestTimes |].
  exists pre, t, code. split; [done |]. split; [done |].
  split; [rewrite Htr; unfold lastEvent; by rewrite Hc |].
  destruct (errorEvent_maxRetries code (now s - startTime ctx)
              (Z.to_nat (retries (options ctx))) (retries (options ctx)))
    as (H1 & H2 & _ & H4 & H5 & _).
  rewrite Z2Nat.id in H4 by done. done.
Qed.

(** ** When the requests leave *)

Lemma waitedBefore_S o k :
  waitedBefore o (S k) =
  waitedBefore o k + calculateDelayBeforeRetry (interval o) k (strategy o).
Proof.
  unfold waitedBefore, calculateDelayBeforeRetry.
  destruct (String.eqb (strategy o) "linear"); [lia |].
  rewrite Nat2Z.inj_succ, Z.pow_succ_r by lia. lia.
Qed.

Lemma spaced_run ctx t0 fuel :
  0 ≤ interval (options ctx) →
  spaced ctx (requestTimes (trace (run ctx fuel (subscribe ctx 0 t0)))).
Proof.
  intros Hi.
  destruct (spaced_complete_run ctx t0 Hi) as [n Hn].
  destruct (run_prefix ctx fuel (fuel + n) (subscribe ctx 0 t0) ltac:(lia)) as [l Hl].
  specialize (Hn (fuel + n)%nat ltac:(lia)).
  rewrite Hl, requestTimes_app in Hn. by apply spaced_prefix in Hn.
Qed.

Lemma first_request ctx t0 fuel :
  requestTimes (trace (run ctx fuel (subscribe ctx 0 t0))) !! 0%nat = Some t0.
Proof.
  destruct (extends_run ctx fuel (subscribe ctx 0 t0)) as [l Hl].
  by rewrite Hl, requestTimes_app, requestTimes_subscribe.
Qed.

Lemma requestTimes_closed ctx t0 latency fuel : ∀ k t,
  0 ≤ interval (options ctx) →
  (∀ n t', (backend ctx n t').1 = latency) →
  requestTimes (trace (run ctx fuel (subscribe ctx 0 t0))) !! k = Some t →
  t = t0 + Z.of_nat k * latency + waitedBefore (options ctx) k.
Proof.
  intros k t Hi Hlat. revert t. induction k as [| k IH]; intros t Hk.
  - rewrite first_request in Hk. injection Hk as <-.
    unfold waitedBefore. destruct (String.eqb _ _); cbn; lia.
  - assert (Hsome : is_Some (requestTimes (trace (run ctx fuel (subscribe ctx 0 t0))) !! k)).
    { apply lookup_lt_is_Some. apply lookup_lt_Some in Hk. lia. }
    destruct Hsome as [tk Htk].
    rewrite (spaced_run ctx t0 fuel Hi k tk t Htk Hk), (IH tk Htk), Hlat, waitedBefore_S.
    lia.
Qed.

(** X10: when the interval is not negative and every answer takes the same
    time [latency], request [k] (from 0) of a run subscribed to at [t0]
    leaves at [t0 + k * latency] plus the time waited: [k * interval] under
    the linear strategy, [interval * (2^k - 1)] under the exponential one,
    the sum of the doubling delays. This holds at every point of the run. *)
Theorem request_schedule (ctx : Context) (t0 latency : Z) (fuel k : nat) (t : Z) :
  0 ≤ interval (options ctx) →
  (∀ n t', (backend ctx n t').1 = latency) →
  requestTimes (trace (run ctx fuel (subscribe ctx 0 t0))) !! k = Some t →
  t = t0 + Z.of_nat k * latency + waitedBefore (options ctx) k
  ∧ (strategy (options ctx) = "linear" →
     t = t0 + Z.of_nat k * (latency + interval (options ctx)))
  ∧ (strategy (options ctx) = "exponential" →
     t = t0 + Z.of_nat k * latency + interval (options ctx) * (2 ^ Z.of_nat k - 1)).
Proof.
  intros Hi Hlat Hk.
  pose proof (requestTimes_closed ctx t0 latency fuel k t Hi Hlat Hk) as Ht.
  split; [done |].
  split; intros Hs; rewrite Ht; unfold waitedBefore; rewrite Hs; cbn [String.eqb]; cbn; lia.
Qed.

(** X11: how long it takes to give up. When the options are valid, every
    answer takes the same time [latency] and every answer is one that is
    retried, the run ends [(retries + 1) * latency] plus the time waited
    before the last request after it was subscribed to, and the total
    delay its last event reports is that time, counted from the call of
    [get], in seconds. *)
Theorem exhaustion_time (ctx : Context) (t0 latency : Z) :
  validOptions (options ctx) →
  (∀ n t, (backend ctx n t).1 = latency) →
  (∀ j t, ∃ errorCode, verdict ctx (backend ctx j t).2 = Retry errorCode) →
  ∃ n, ∀ fuel, (n ≤ fuel)%nat →
    let s := run ctx fuel (subscribe ctx 0 t0) in
    let M := retries (options ctx) in
    let total := (M + 1) * latency + waitedBefore (options ctx) (Z.to_nat M) in
    now s = t0 + total
    ∧ ∃ pre v, trace s = pre ++ [(now s, Next v); (now s, Complete)]
               ∧ getProp "totalDelay" (getProp "error" v)
                 = JNum (Qmake (t0 - startTime ctx + total) 1000).
Proof.
  intros (HM & Hi & _) Hlat Hretried.
  destruct (complete_run_settled ctx t0) as [n Hn]. exists n.
  intros fuel Hfuel. destruct (Hn fuel Hfuel) as (Hset & Ht & Hs). cbn zeta.
  pose proof (requestTimes_closed ctx t0 latency fuel) as Hclosed.
  set (s := run ctx fuel (subscribe ctx 0 t0)) in *.
  destruct Hset as (pre & t & Hrq & Hlen & Htk & Hnow & Hf & Htr & Hmax & Hold).
  cbn zeta in *.
  destruct (Hretried (attempts s) t) as [code Hc].
  assert (Hatt : attempts s = Z.to_nat (retries (options ctx))).
  { specialize (Hf code Hc). lia. }
  rewrite Hatt in *.
  rewrite (Hclosed _ t ltac:(lia) Hlat Htk), Hlat, Z2Nat.id in Hnow by lia.
  assert (Hnow' : now s = t0 + ((retries (options ctx) + 1) * latency
                               + waitedBefore (options ctx) (Z.to_nat (retries (options ctx)))))
    by lia.
  split; [exact Hnow' |].
  exists pre, (errorEvent code
                 (maxRetriesData (now s - startTime ctx) (Z.to_nat (retries (options ctx)))
                    (retries (options ctx)))).
  split; [rewrite Htr; unfold lastEvent; by rewrite Hc |].
  destruct (errorEvent_maxRetries code (now s - startTime ctx)
              (Z.to_nat (retries (options ctx))) (retries (options ctx)))
    as (_ & _ & _ & _ & _ & Htd & _).
  rewrite Htd, Hnow'. do 2 f_equal. lia.
Qed.

(** ** A second subscription *)

(** A run that is subscribed to when the counter of performed retries
    reads [a0]. *)
Lemma complete_run_counted (ctx : Context) (a0 : nat) (t0 : Z) :
  0 ≤ retries (options ctx) →
  (∀ j t, ∃ errorCode, verdict ctx (backend ctx j t).2 = Retry errorCode) →
  ∃ n, ∀ fuel, (n ≤ fuel)%nat →
    let s := run ctx fuel (subscribe ctx a0 t0) in
    let M := Z.to_nat (retries (options ctx)) in
    tasks s = [] ∧ isStopped s = true
    ∧ attempts s = Nat.max a0 M
    ∧ gets (trace s) = S (M - a0)
    ∧ (∃ pre code,
         trace s = pre ++ [(now s, Next (errorEvent code
                                          (maxRetriesData (now s - startTime ctx)
                                             (Nat.max a0 M) (retries (options ctx)))));
                           (now s, Complete)])
    ∧ (a0 = M →
       trace s = (if noUpdates (options ctx) then [] else [(t0, Next loadingEvent)])
                 ++ [(t0, HttpGet (url ctx))]
                 ++ [(now s, Next (lastEvent ctx (backend ctx 0 t0).2 (now s) M));
                     (now s, Complete)]).
Proof.
  intros HM Hretried.
  pose (Inv := λ s : State,
    (requests s + a0 = S (attempts s))%nat ∧ (1 ≤ requests s)%nat
    ∧ gets (trace s) = requests s
    ∧ (attempts s ≤ Nat.max a0 (Z.to_nat (retries (options ctx))))%nat
    ∧ (∀ d o, awaiting s d o → ∃ j t, o = (backend ctx j t).2)
    ∧ (attempts s = a0 →
       trace s = trace (subscribe ctx a0 t0)
       ∧ ∀ d o, awaiting s d o → o = (backend ctx 0 t0).2)).
  pose (F := λ s : State,
    attempts s = Nat.max a0 (Z.to_nat (retries (options ctx)))
    ∧ gets (trace s) = S (Z.to_nat (retries (options ctx)) - a0)
    ∧ (∃ pre code,
         trace s = pre ++ [(now s, Next (errorEvent code
                                          (maxRetriesData (now s - startTime ctx)
                                             (Nat.max a0 (Z.to_nat (retries (options ctx))))
                                             (retries (options ctx)))));
                           (now s, Complete)])
    ∧ (a0 = Z.to_nat (retries (options ctx)) →
       trace s = (if noUpdates (options ctx) then [] else [(t0, Next loadingEvent)])
                 ++ [(t0, HttpGet (url ctx))]
                 ++ [(now s, Next (lastEvent ctx (backend ctx 0 t0).2 (now s)
                                     (Z.to_nat (retries (options ctx)))));
                     (now s, Complete)])).
  destruct (complete_run_from ctx Inv F) with
    (k := Z.to_nat (retries (options ctx))) (s := subscribe ctx a0 t0)
    (d := t0 + (backend ctx 0 t0).1) (o := (backend ctx 0 t0).2) as [n Hn].
  - intros s d o Ha (Hrq & H1 & Hg & Hle & Hback & Hfirst) Hf.
    destruct (Hback d o Ha) as (j & t & Ho).
    destruct (Hretried j t) as [code Hc]. rewrite <- Ho in Hc.
    pose proof (Hf code Hc) as Hge.
    assert (Hatt : attempts s = Nat.max a0 (Z.to_nat (retries (options ctx)))) by lia.
    destruct (trace_final ctx s d o Ha Hf) as (v & Htr & Hnow & Hatt' & Hrq' & Hv).
    unfold F. rewrite Hnow, Hatt', Htr. split; [done |]. split.
    { autorewrite with counts. lia. }
    split.
    { exists (trace s), code. rewrite Hv, Hc, Hatt. done. }
    intros Ha0. assert (Hs0 : attempts s = a0) by lia.
    destruct (Hfirst Hs0) as [Htr0 Ho0].
    rewrite Htr0, trace_subscribe, <- app_assoc, Hv. unfold lastEvent.
    rewrite <- (Ho0 d o Ha), Hatt, <- Ha0, Nat.max_id. done.
  - intros s d o code Ha (Hrq & H1 & Hg & Hle & Hback & Hfirst) Hv Hlt.
    destruct (nextRound_fields ctx code (handling d s)) as (_ & Hatt & Hrq' & _ & Hts).
    cbn [handling setTasks setNow now attempts requests] in Hatt, Hrq', Hts.
    unfold Inv. rewrite gets_nextRound, Hatt, Hrq'. cbn [handling setTasks setNow trace].
    split; [lia |]. split; [lia |]. split; [lia |]. split; [lia |]. split.
    + intros d' o' [_ Ha']. rewrite Hts in Ha'. injection Ha' as _ <-. eauto.
    + intros Heq. lia.
  - apply subscribe_awaiting.
  - destruct (subscribe_fields ctx a0 t0) as (_ & Hatt & Hrq & _ & Hts).
    unfold Inv. rewrite Hatt, Hrq, gets_subscribe.
    split; [lia |]. split; [lia |]. split; [done |]. split; [lia |]. split.
    + intros d o [_ Ha]. rewrite Hts in Ha. injection Ha as _ <-. eauto.
    + intros _. split; [done |].
      intros d o [_ Ha]. rewrite Hts in Ha. by injection Ha as _ <-.
  - destruct (subscribe_fields ctx a0 t0) as (_ & Hatt & _). rewrite Hatt. lia.
  - exists n. intros fuel Hfuel.
    destruct (Hn fuel Hfuel) as ((Ha & Hg & Hpre & Hsame) & Ht & Hs). done.
Qed.

(** X12: the counter of performed retries belongs to the stream [get]
    returned, not to one subscription of it. When every answer is one that
    is retried, the first subscription uses the retries up and leaves the
    counter at [retries]; a second subscription to the same stream then
    makes its first request and, as soon as the answer arrives, fails with
    the max-retries error, which reports [retries] attempts: it makes no
    retry of its own. *)
Theorem resubscription_keeps_count (ctx : Context) (t0 t1 : Z) :
  0 ≤ retries (options ctx) →
  (∀ j t, ∃ errorCode, verdict ctx (backend ctx j t).2 = Retry errorCode) →
  ∃ n, ∀ fuel1 fuel2, (n ≤ fuel1)%nat → (n ≤ fuel2)%nat →
    let s1 := run ctx fuel1 (subscribe ctx 0 t0) in
    let s2 := run ctx fuel2 (resubscribe ctx s1 t1) in
    let M := Z.to_nat (retries (options ctx)) in
    (attempts s1 = M ∧ gets (trace s1) = S M)
    ∧ tasks s2 = [] ∧ isStopped s2 = true
    ∧ attempts s2 = M
    ∧ gets (trace s2) = 1%nat
    ∧ (∃ code,
         trace s2 = (if noUpdates (options ctx) then [] else [(t1, Next loadingEvent)])
                    ++ [(t1, HttpGet (url ctx))]
                    ++ [(now s2, Next (errorEvent code
                                         (maxRetriesData (now s2 - startTime ctx) M
                                            (retries (options ctx)))));
                        (now s2, Complete)]
         ∧ verdict ctx (backend ctx 0 t1).2 = Retry code).
Proof.
  intros HM Hretried.
  destruct (complete_run_counted ctx 0 t0 HM Hretried) as [n1 Hn1].
  destruct (complete_run_counted ctx (Z.to_nat (retries (options ctx))) t1 HM Hretried)
    as [n2 Hn2].
  exists (n1 `max` n2)%nat. intros fuel1 fuel2 Hf1 Hf2. cbn zeta.
  destruct (Hn1 fuel1 ltac:(lia)) as (_ & _ & Ha1 & Hg1 & _).
  rewrite Nat.max_0_l in Ha1. rewrite Nat.sub_0_r in Hg1.
  split; [done |]. unfold resubscribe. rewrite Ha1.
  destruct (Hn2 fuel2 ltac:(lia)) as (Ht & Hs & Ha2 & Hg2 & _ & Htr).
  rewrite Nat.max_id in Ha2. rewrite Nat.sub_diag in Hg2.
  split; [done |]. split; [done |]. split; [done |]. split; [done |].
  destruct (Hretried 0%nat t1) as [code Hc]. exists code. split; [| done].
  rewrite (Htr eq_refl). unfold lastEvent. by rewrite Hc.
Qed.

(** * Unsubscribing without the cancel signal *)

(** Two states that agree on the clock, the counters and the pending tasks
    run the same task to states that agree again, and issue the same
    requests on the way. *)
Lemma runTask_control ctx k s s' :
  control s = control s' →
  control (runTask ctx k s) = control (runTask ctx k s')
  ∧ ∃ l, requestTimes (trace (runTask ctx k s)) = requestTimes (trace s) ++ l
         ∧ requestTimes (trace (runTask ctx k s')) = requestTimes (trace s') ++ l.
Proof.
  destruct s as [t a st r ts tr], s' as [t' a' st' r' ts' tr'].
  unfold control. cbn [now attempts requests tasks]. intros [= <- <- <- <-].
  destruct k as [o | | w | w re code]; cbn [runTask].
  - rewrite !checkResponseObserver_verdict.
    destruct (verdict ctx o) as [body | code | code].
    + unfold sendAndCompleteResponse, completeOperation, sendResponse, record.
      destruct st, st'; cbn [now attempts isStopped requests tasks trace];
        (split; [reflexivity |]); exists []; rewrite ?requestTimes_app, ?app_nil_r; done.
    + unfold sendErrorAndCompleteResponse, sendErrorResponse, completeOperation,
        sendResponse, record.
      destruct st, st'; cbn [now attempts isStopped requests tasks trace];
        (split; [reflexivity |]); exists []; rewrite ?requestTimes_app, ?app_nil_r; done.
    + unfold scheduleRetry. cbn [attempts].
      destruct (retries (options ctx) <=? Z.of_nat a).
      * unfold sendMaxRetriesError, sendErrorAndCompleteResponse, sendErrorResponse,
          completeOperation, sendResponse, record.
        destruct st, st'; cbn [now attempts isStopped requests tasks trace];
          (split; [reflexivity |]); exists []; rewrite ?requestTimes_app, ?app_nil_r; done.
      * cbv zeta.
        unfold retryFetchAfterDelay, incrementAttempts, sendLiveUpdates, sendAttemptsUpdate,
          sendErrorResponse, sendResponse, record, schedule, setTasks.
        destruct (noUpdates (options ctx)), (liveUpdates (options ctx)), st, st';
          cbn [now attempts isStopped requests tasks trace];
          (split; [reflexivity |]); exists []; rewrite ?requestTimes_app, ?app_nil_r; done.
  - unfold fetchData, sendResponse, record.
    destruct (noUpdates (options ctx)), st, st';
      cbn [now attempts isStopped requests tasks trace];
      (split; [reflexivity |]); exists [t]; rewrite ?requestTimes_app, ?app_nil_r; done.
  - split; [reflexivity |]. exists []. by rewrite !app_nil_r.
  - unfold liveUpdate, sendResponse, record, schedule, setTasks.
    destruct st, st'; cbn [now attempts isStopped requests tasks trace];
      (split; [reflexivity |]); exists []; rewrite ?requestTimes_app, ?app_nil_r; done.
Qed.

Lemma run_control ctx n : ∀ s s',
  control s = control s' →
  control (run ctx n s) = control (run ctx n s')
  ∧ ∃ l, requestTimes (trace (run ctx n s)) = requestTimes (trace s) ++ l
         ∧ requestTimes (trace (run ctx n s')) = requestTimes (trace s') ++ l.
Proof.
  induction n as [| n IH]; intros s s' Hc.
  - split; [done |]. exists []. by rewrite !app_nil_r.
  - cbn [run]. unfold step.
    assert (Hts : tasks s = tasks s') by (unfold control in Hc; congruence).
    rewrite <- Hts.
    destruct (pickNext (tasks s)) as [[task rest] |].
    + assert (Hc' : control (setTasks rest (setNow (due task) s))
                    = control (setTasks rest (setNow (due task) s'))).
      { unfold control in *. cbn. congruence. }
      destruct (runTask_control ctx (kind task) _ _ Hc') as (Hc1 & l1 & Hl1 & Hl1').
      destruct (IH _ _ Hc1) as (Hc2 & l2 & Hl2 & Hl2').
      split; [exact Hc2 |]. exists (l1 ++ l2).
      rewrite Hl2, Hl2', Hl1, Hl1'. cbn [setTasks setNow trace]. by rewrite !app_assoc.
    + split; [done |]. exists []. by rewrite !app_nil_r.
Qed.

(** A closed subscriber hears nothing: what a task adds to the trace is
    requests only. *)
Lemma runTask_unheard ctx k s :
  isStopped s = true →
  isStopped (runTask ctx k s) = true
  ∧ ∃ l, trace (runTask ctx k s) = trace s ++ l ∧ Forall (λ e, isGet e = true) l.
Proof.
  intros Hs. destruct k as [o | | w | w e code]; cbn [runTask].
  - rewrite checkResponseObserver_verdict.
    destruct (verdict ctx o) as [body | code | code].
    + unfold sendAndCompleteResponse.
      rewrite sendResponse_stopped, completeOperation_stopped by done.
      split; [done |]. exists []. by rewrite app_nil_r.
    + unfold sendErrorAndCompleteResponse, sendErrorResponse.
      rewrite sendResponse_stopped, completeOperation_stopped by done.
      split; [done |]. exists []. by rewrite app_nil_r.
    + unfold scheduleRetry.
      destruct (retries (options ctx) <=? Z.of_nat (attempts s)).
      * unfold sendMaxRetriesError, sendErrorAndCompleteResponse, sendErrorResponse.
        rewrite sendResponse_stopped, completeOperation_stopped by done.
        split; [done |]. exists []. by rewrite app_nil_r.
      * cbv zeta. unfold sendAttemptsUpdate, sendErrorResponse.
        rewrite sendResponse_stopped by done.
        destruct (noUpdates (options ctx)), (liveUpdates (options ctx));
          (split; [done |]); exists []; by rewrite app_nil_r.
  - unfold fetchData. rewrite sendResponse_stopped by done.
    destruct (noUpdates (options ctx)); cbn [isStopped trace];
      (split; [done |]); (eexists; split; [reflexivity |]); by apply Forall_singleton.
  - split; [done |]. exists []. by rewrite app_nil_r.
  - unfold liveUpdate. rewrite sendResponse_stopped by done.
    split; [done |]. exists []. by rewrite app_nil_r.
Qed.

Lemma run_unheard ctx n : ∀ s,
  isStopped s = true →
  ∃ l, trace (run ctx n s) = trace s ++ l ∧ Forall (λ e, isGet e = true) l.
Proof.
  induction n as [| n IH]; intros s Hs; [exists []; by rewrite app_nil_r |].
  cbn [run]. unfold step.
  destruct (pickNext (tasks s)) as [[task rest] |]; [| exists []; by rewrite app_nil_r].
  destruct (runTask_unheard ctx (kind task) (setTasks rest (setNow (due task) s)) Hs)
    as (Hs1 & l1 & Hl1 & Hg1).
  destruct (IH _ Hs1) as (l2 & Hl2 & Hg2).
  exists (l1 ++ l2). rewrite Hl2, Hl1. cbn [setTasks setNow trace].
  split; [by rewrite app_assoc | by apply Forall_app].
Qed.

(** X13: unsubscribing is not cancelling. Whatever state a stream is in,
    if its subscriber unsubscribes without the cancel signal being raised,
    the stream goes on as if nothing had happened: after any number of
    steps its clock, its counters and its pending tasks are those of the
    stream that was not unsubscribed, and it has issued the same requests
    at the same times, retries included; only the subscriber is sent
    nothing any more, neither an event nor the completion: what the run
    adds to the trace is requests. *)
Theorem unsubscribed_keeps_polling (ctx : Context) (s : State) (n : nat) :
  control (run ctx n (unsubscribe s)) = control (run ctx n s)
  ∧ requestTimes (trace (run ctx n (unsubscribe s))) = requestTimes (trace (run ctx n s))
  ∧ ∃ l, trace (run ctx n (unsubscribe s)) = trace s ++ l
         ∧ Forall (λ e, ∃ u, e.2 = HttpGet u) l.
Proof.
  destruct (run_control ctx n (unsubscribe s) s) as (Hc & l & Hl & Hl'); [done |].
  split; [exact Hc |]. split; [by rewrite Hl, Hl' |].
  destruct (run_unheard ctx n (unsubscribe s) eq_refl) as (l' & Htr & Hall).
  exists l'. split; [exact Htr |].
  eapply Forall_impl; [exact Hall |]. intros [t [v | | u]]; try discriminate. eauto.
Qed.

(** * What validation leaves behind *)

Lemma readProp_setProp_eq l k v (h : Heap) : readProp l k (setProp l k v h) = v.
Proof. unfold readProp. by rewrite objectAt_setProp, lookup_insert_eq. Qed.

Lemma readProp_setProp_ne l k k' v (h : Heap) :
  k ≠ k' → readProp l k' (setProp l k v h) = readProp l k' h.
Proof. intros Hne. unfold readProp. by rewrite objectAt_setProp, lookup_insert_ne. Qed.

Lemma setProp_id l k v (h : Heap) :
  is_Some (h !! l) → readProp l k h = v → is_Some (objectAt l h !! k) → setProp l k v h = h.
Proof.
  intros [o Ho] Hv [v' Hk]. unfold setProp, readProp, objectAt in *.
  rewrite Ho in *. cbn in *. rewrite Hk in Hv. cbn in Hv. subst v'.
  rewrite (insert_id o k v Hk). by apply insert_id.
Qed.

Lemma setProp_is_Some l k v (h : Heap) : is_Some (setProp l k v h !! l).
Proof. unfold setProp. rewrite lookup_insert_eq. by eexists. Qed.

Lemma setProp_has l k k' v (h : Heap) :
  k = k' ∨ is_Some (objectAt l h !! k') → is_Some (objectAt l (setProp l k v h) !! k').
Proof.
  intros H. rewrite objectAt_setProp.
  destruct (decide (k = k')) as [-> | Hne].
  - rewrite lookup_insert_eq. by eexists.
  - rewrite lookup_insert_ne by done. by destruct H.
Qed.

Ltac flag_in :=
  unfold flagNames; repeat first [apply list_elem_of_here | apply list_elem_of_further].

Ltac flag_out :=
  let Hin := fresh in
  unfold flagNames; intros Hin;
  repeat (apply elem_of_cons in Hin as [Hin | Hin]; [discriminate Hin |]);
  by apply elem_of_nil in Hin.

(** X14: what a successful validation leaves in the store. Each of the
    four flags of the validated object is the boolean [!!v] of the value
    [v] it had, [false] for a flag that was missing; every other property
    of the object and every other object is as it was; and validation is
    idempotent: the validated object passes again, and the second pass
    changes nothing. *)
Theorem validateOptions_result (l : loc) (h h' : Heap) :
  validateOptions l h = inr h' →
  (∀ k, k ∈ flagNames → readProp l k h' = JBool (truthy (readProp l k h)))
  ∧ (∀ k, k ∉ flagNames → readProp l k h' = readProp l k h)
  ∧ (∀ l', l' ≠ l → h' !! l' = h !! l')
  ∧ validateOptions l h' = inr h'.
Proof.
  intros H.
  assert (Hflags : ∀ k, k ∈ flagNames → readProp l k h' = JBool (truthy (readProp l k h))).
  { unfold validateOptions in H.
    repeat match type of H with
           | (if ?c then _ else _) = _ => destruct c; [discriminate H |]
           end.
    injection H as <-. intros k Hk. unfold flagNames in Hk.
    repeat (apply elem_of_cons in Hk as [-> | Hk]);
      [| | | | by apply elem_of_nil in Hk];
      repeat first [ rewrite readProp_setProp_eq | rewrite readProp_setProp_ne by done ];
      reflexivity. }
  assert (Hothers : ∀ k, k ∉ flagNames → readProp l k h' = readProp l k h).
  { intros k Hk. apply validateOptions_inr in H as (_ & _ & _ & _ & Hsame).
    apply Hsame; intros ->; apply Hk; flag_in. }
  assert (Hsome : is_Some (h' !! l)
                  ∧ ∀ k, k ∈ flagNames → is_Some (objectAt l h' !! k)).
  { unfold validateOptions in H.
    repeat match type of H with
           | (if ?c then _ else _) = _ => destruct c; [discriminate H |]
           end.
    injection H as <-. split; [apply setProp_is_Some |].
    intros k Hk. unfold flagNames in Hk.
    repeat (apply elem_of_cons in Hk as [-> | Hk]);
      [| | | | by apply elem_of_nil in Hk];
      repeat (apply setProp_has; first [ by left | right ]). }
  destruct Hsome as [Hl Hhas].
  split; [done |]. split; [done |].
  split; [intros l' Hne; by apply (validateOptions_other l l' h h') |].
  assert (Hfix : ∀ k, k ∈ flagNames →
            setProp l k (JBool (truthy (readProp l k h'))) h' = h').
  { intros k Hk. apply setProp_id; [done | | by apply Hhas].
    rewrite (Hflags k Hk). reflexivity. }
  pose proof (validateOptions_inr l h h' H) as (Hr & Hi & Hu & Hs & _).
  unfold validateOptions.
  rewrite !(Hothers "retries"), !(Hothers "interval"), !(Hothers "updateInterval"),
    !(Hothers "strategy") by flag_out.
  rewrite Hr, Hi, Hu, Hs. cbv zeta.
  rewrite (Hfix "retryOnUnexpectedFormat") by flag_in.
  rewrite (Hfix "retryOnServerFailure") by flag_in.
  rewrite (Hfix "noUpdates") by flag_in.
  rewrite (Hfix "liveUpdates") by flag_in.
  reflexivity.
Qed.

(** ** The error [get] throws *)

Lemma numberAccepted_check max v :
  isDefined v && outOfBounds v max = false ↔ numberAccepted max v.
Proof.
  unfold numberAccepted, integerUpTo, outOfBounds. split.
  - intros Hc.
    assert (Hd : v = JUndefined ∨ isDefined v = true) by (destruct v; eauto).
    destruct Hd as [-> | Hd]; [by left | right].
    rewrite Hd in Hc. cbn in Hc.
    destruct (asInteger v) as [z |]; [| discriminate Hc].
    exists z. split; [done | lia].
  - intros [-> | (z & Hz & Hr)]; [done |]. rewrite Hz.
    apply andb_false_iff. right. lia.
Qed.

Lemma numberRejected_check max v :
  isDefined v && outOfBounds v max = true ↔ ¬ numberAccepted max v.
Proof.
  rewrite <- numberAccepted_check.
  destruct (isDefined v && outOfBounds v max); split; intros H; done.
Qed.

(** X15: the error [get] throws names the first option that fails, in the
    order [retries], [interval], [updateInterval], [strategy], whatever is
    wrong with the later ones; its message gives the bound of that option,
    which validation accepts itself, as the value to stay under. When
    the three numbers pass, the option at fault is a strategy that is
    truthy and is neither name. *)
Theorem get_error_message (this : HttpRetryService) (url : string) (options : loc) (now : Z)
    (h : Heap) (e : Thrown) :
  (get this url options now h).2 = inl e →
  let v := mergedOption this options h in
  (¬ numberAccepted MAX_RETRIES (v "retries") →
   e = Error "Invalid value for retries. It must be a non-negative integer less than 10.")
  ∧ (numberAccepted MAX_RETRIES (v "retries") →
     ¬ numberAccepted MAX_RETRY_INTERVAL (v "interval") →
     e = Error "Invalid value for interval. It must be a non-negative integer less than 60000.")
  ∧ (numberAccepted MAX_RETRIES (v "retries") →
     numberAccepted MAX_RETRY_INTERVAL (v "interval") →
     ¬ numberAccepted MAX_UPDATE_INTERVAL (v "updateInterval") →
     e = Error
           "Invalid value for updateInterval. It must be a non-negative integer less than 10000.")
  ∧ (numberAccepted MAX_RETRIES (v "retries") →
     numberAccepted MAX_RETRY_INTERVAL (v "interval") →
     numberAccepted MAX_UPDATE_INTERVAL (v "updateInterval") →
     e = Error ("Invalid strategy. Valid values are " +:+ quoted "linear" +:+ " or "
                +:+ quoted "exponential" +:+ ".")
     ∧ truthy (v "strategy") = true ∧ ¬ isStrategyName (v "strategy")).
Proof.
  intros He v.
  rewrite <- !numberRejected_check, <- !numberAccepted_check.
  unfold get in He. unfold v, mergedOption.
  set (l := fresh (dom h)) in *. set (m := spread _ _) in *.
  rewrite <- !(readProp_insert l m _ h).
  destruct (validateOptions l (<[l:=m]> h)) as [e' | h'] eqn:E; [| discriminate He].
  cbn in He. injection He as ->.
  unfold validateOptions in E.
  destruct (isDefined (readProp l "retries" _) && outOfBounds _ MAX_RETRIES) eqn:Hr.
  { injection E as <-. repeat split; intros; congruence. }
  destruct (isDefined (readProp l "interval" _) && outOfBounds _ MAX_RETRY_INTERVAL) eqn:Hi.
  { injection E as <-. repeat split; intros; congruence. }
  destruct (isDefined (readProp l "updateInterval" _) && outOfBounds _ MAX_UPDATE_INTERVAL)
    eqn:Hu.
  { injection E as <-. repeat split; intros; congruence. }
  destruct (truthy (readProp l "strategy" _) && negb (includes _ _)) eqn:Hs; [| discriminate E].
  injection E as <-. split; [intros; congruence |]. split; [intros; congruence |].
  split; [intros; congruence |]. intros _ _ _. split; [reflexivity |].
  by apply strategy_rejected.
Qed.

(** ** The options of the engine *)

Lemma pow2_le a b : 0 ≤ a ≤ b → 2 ^ a ≤ 2 ^ b.
Proof. intros H. apply Z.pow_le_mono_r; lia. Qed.

Lemma validateOptions_flags (l : loc) (h h' : Heap) :
  validateOptions l h = inr h' →
  ∀ k, k ∈ flagNames → readProp l k h' = JBool (truthy (readProp l k h)).
Proof.
  intros H. unfold validateOptions in H.
  repeat match type of H with
         | (if ?c then _ else _) = _ => destruct c; [discriminate H |]
         end.
  injection H as <-. intros k Hk. unfold flagNames in Hk.
  repeat (apply elem_of_cons in Hk as [-> | Hk]);
    [| | | | by apply elem_of_nil in Hk];
    repeat first [ rewrite readProp_setProp_eq | rewrite readProp_setProp_ne by done ];
    reflexivity.
Qed.

Lemma strategy_accepted v :
  truthy v && negb (includes ["linear"; "exponential"] v) = false →
  truthy v = false ∨ isStrategyName v.
Proof.
  intros Hc. destruct (truthy v) eqn:Ht; [right | by left].
  cbn in Hc. apply negb_false_iff in Hc.
  destruct v as [| | b | q | | neg | s | props]; try discriminate Hc.
  cbn in Hc. apply bool_decide_eq_true in Hc.
  apply elem_of_cons in Hc as [-> | Hc]; [by left |].
  apply elem_of_cons in Hc as [-> | Hc]; [by right |].
  by apply elem_of_nil in Hc.
Qed.

Lemma asInteger_accepted max v :
  numberAccepted max v → is_Some (asInteger v) ↔ v ≠ JUndefined.
Proof.
  intros [-> | (z & Hz & _)].
  - split; [intros [z Hz]; discriminate Hz | done].
  - rewrite Hz. split; [| by eexists]. intros _ ->. discriminate Hz.
Qed.

(** X16: what [get] hands to the engine, for every options object it
    accepts. In the validated object each of [retries], [interval] and
    [updateInterval] is [undefined] or an integer within its bounds, and
    the strategy is falsy or one of the two names. The object has the
    types the engine reads its options with exactly when none of the
    three numbers is [undefined] and the strategy is a string; an accepted
    object in which a number is [undefined] has not. When it has, the
    numbers the engine reads are within the bounds; the strategy is one of
    the two names or the empty string, which passes validation as a falsy
    value and selects the exponential delays, as any strategy other than
    ['linear'] does; and every wait the engine starts, which it does only
    when fewer than [retries] retries were performed, lasts between 0 and
    [MAX_RETRY_INTERVAL * 2^9] milliseconds, a number the double
    arithmetic of the code computes exactly. *)
Theorem get_engine_options (this : HttpRetryService) (url : string) (options : loc) (now : Z)
    (h : Heap) (op : Operation) :
  (get this url options now h).2 = inr op →
  let validated := objectAt (op_options op) (get this url options now h).1 in
  let value k := default JUndefined (validated !! k) in
  numberAccepted MAX_RETRIES (value "retries")
  ∧ numberAccepted MAX_RETRY_INTERVAL (value "interval")
  ∧ numberAccepted MAX_UPDATE_INTERVAL (value "updateInterval")
  ∧ (truthy (value "strategy") = false ∨ isStrategyName (value "strategy"))
  ∧ (is_Some (readOptions validated) ↔
       value "retries" ≠ JUndefined ∧ value "interval" ≠ JUndefined
       ∧ value "updateInterval" ≠ JUndefined ∧ ∃ s, value "strategy" = JStr s)
  ∧ (∀ o, readOptions validated = Some o →
       0 ≤ retries o ≤ MAX_RETRIES
       ∧ 0 ≤ interval o ≤ MAX_RETRY_INTERVAL
       ∧ 0 ≤ updateInterval o ≤ MAX_UPDATE_INTERVAL
       ∧ (strategy o = "linear" ∨ strategy o = "exponential" ∨ strategy o = EmptyString)
       ∧ ∀ a : nat, Z.of_nat a < retries o →
           let D := calculateDelayBeforeRetry (interval o) a (strategy o) in
           calculateDelayBeforeRetryDouble (interval o) a (strategy o) = JInt D
           ∧ 0 ≤ D ≤ MAX_RETRY_INTERVAL * 2 ^ 9
           ∧ (strategy o = "linear" → D = interval o)
           ∧ (strategy o ≠ "linear" → D = interval o * 2 ^ Z.of_nat a)).
Proof.
  intros Hget validated value.
  assert (Htyped : ∀ o, readOptions validated = Some o →
       0 ≤ retries o ≤ MAX_RETRIES
       ∧ 0 ≤ interval o ≤ MAX_RETRY_INTERVAL
       ∧ 0 ≤ updateInterval o ≤ MAX_UPDATE_INTERVAL
       ∧ (strategy o = "linear" ∨ strategy o = "exponential" ∨ strategy o = EmptyString))
    by (intros o; apply (get_options_valid this url options now h op o Hget)).
  assert (Hfacts :
    numberAccepted MAX_RETRIES (value "retries")
    ∧ numberAccepted MAX_RETRY_INTERVAL (value "interval")
    ∧ numberAccepted MAX_UPDATE_INTERVAL (value "updateInterval")
    ∧ (truthy (value "strategy") = false ∨ isStrategyName (value "strategy"))
    ∧ ∀ k, k ∈ flagNames → ∃ b, value k = JBool b).
  { unfold value, validated. clear Htyped. unfold get in *.
    destruct (validateOptions _ _) as [e | h'] eqn:E; [discriminate Hget |].
    cbn [fst snd] in *. injection Hget as <-. cbn [op_options request].
    pose proof (validateOptions_inr _ _ _ E) as (Hr & Hi & Hu & Hs & Hsame).
    pose proof (validateOptions_flags _ _ _ E) as Hflags.
    set (l := fresh (dom h)) in *. cbv beta.
    assert (Hval : ∀ k, default JUndefined (objectAt l h' !! k) = readProp l k h')
      by reflexivity.
    rewrite !Hval, !Hsame by done.
    split; [by apply numberAccepted_check |]. split; [by apply numberAccepted_check |].
    split; [by apply numberAccepted_check |]. split; [by apply strategy_accepted |].
    intros k Hk. rewrite Hval, (Hflags k Hk). by eexists. }
  destruct Hfacts as (Hr & Hi & Hu & Hs & Hflags).
  split; [exact Hr |]. split; [exact Hi |]. split; [exact Hu |]. split; [exact Hs |].
  split.
  - rewrite <- (asInteger_accepted _ _ Hr), <- (asInteger_accepted _ _ Hi),
      <- (asInteger_accepted _ _ Hu).
    destruct (Hflags "retryOnServerFailure" ltac:(flag_in)) as [b1 Hb1].
    destruct (Hflags "retryOnUnexpectedFormat" ltac:(flag_in)) as [b2 Hb2].
    destruct (Hflags "liveUpdates" ltac:(flag_in)) as [b3 Hb3].
    destruct (Hflags "noUpdates" ltac:(flag_in)) as [b4 Hb4].
    unfold readOptions. fold (value "retries") (value "interval") (value "updateInterval")
      (value "strategy") (value "retryOnServerFailure") (value "retryOnUnexpectedFormat")
      (value "liveUpdates") (value "noUpdates").
    rewrite Hb1, Hb2, Hb3, Hb4.
    destruct (asInteger (value "retries")) as [r |];
      [| split; [intros [? ?]; discriminate | intros ([? ?] & _); discriminate]].
    destruct (asInteger (value "interval")) as [i |];
      [| split; [intros [? ?]; discriminate | intros (_ & [? ?] & _); discriminate]].
    destruct (asInteger (value "updateInterval")) as [u |];
      [| split; [intros [? ?]; discriminate | intros (_ & _ & [? ?] & _); discriminate]].
    destruct (value "strategy") as [| | b | q | | neg | s | props]; cbn;
      (split; [intros [? ?]; try discriminate; eauto 10
              | intros (_ & _ & _ & s' & Hs'); try discriminate Hs'; eauto]).
  - intros o Ho. destruct (Htyped o Ho) as (Hro & Hio & Huo & Hso).
    split; [done |]. split; [done |]. split; [done |]. split; [done |].
    intros a Ha D.
    assert (Hex : exactDelay (interval o) a)
      by (apply exactDelay_valid; [done | lia]).
    split; [by apply calculateDelayBeforeRetryDouble_exact |].
    assert (Hdelay : D = if decide (strategy o = "linear") then interval o
                         else interval o * 2 ^ Z.of_nat a).
    { unfold D, calculateDelayBeforeRetry.
      destruct (String.eqb_spec (strategy o) "linear") as [Heq | Hne];
        by destruct (decide (strategy o = "linear")). }
    unfold MAX_RETRIES, MAX_RETRY_INTERVAL in *.
    destruct (decide (strategy o = "linear")) as [Hlin | Hexp].
    + change (2 ^ 9) with 512. split; [lia |]. split; [done |]. by intros [].
    + split; [| split; [by intros ? | done]].
      pose proof (pow2_le (Z.of_nat a) 9 ltac:(lia)) as Hpow.
      assert (0 < 2 ^ Z.of_nat a) by (apply Z.pow_pos_nonneg; lia).
      rewrite Hdelay. split; nia.
Qed.

(** * The fields of the component *)

Lemma deliver_app l1 l2 f :
  deliver (l1 ++ l2) f = f' ← deliver l1 f; deliver l2 f'.
Proof.
  revert f. induction l1 as [| e l1 IH]; intros f; [done |].
  cbn [app deliver]. destruct (notify e.2.2 f) as [f1 |]; [apply IH | done].
Qed.

Lemma next_loadingEvent f :
  next loadingEvent f =
  Some {| data := JNull; errorMessage := errorMessage f;
          operationInProgress := operationInProgress f; requestLoading := JBool true |}.
Proof. reflexivity. Qed.

Lemma next_dataEvent body f :
  getProp "ready" body = JBool true →
  next (dataEvent body) f =
  Some {| data := getProp "data" body; errorMessage := EmptyString;
          operationInProgress := operationInProgress f; requestLoading := JBool false |}.
Proof.
  intros Hr. unfold next.
  change (isNullish (dataEvent body)) with false. cbv iota.
  rewrite loading_dataEvent, (ready_dataEvent body Hr), (data_dataEvent body Hr).
  reflexivity.
Qed.

Lemma errorEvent_fields code extra :
  getProp "loading" (errorEvent code extra) = JBool false
  ∧ getProp "ready" (errorEvent code extra) = JUndefined
  ∧ getProp "error" (errorEvent code extra) = JObj (spread (createErrorObject code) extra).
Proof. by destruct code. Qed.

Lemma next_errorEvent code extra f msg :
  getProp "errorMessage" (JObj (spread (createErrorObject code) extra))
  = JStr (ErrorMessages code) →
  orEmpty (getProp "message" (JObj (spread (createErrorObject code) extra))) = JStr msg →
  next (errorEvent code extra) f =
  Some {| data := JNull; errorMessage := ErrorMessages code +:+ " " +:+ msg;
          operationInProgress := operationInProgress f; requestLoading := JBool false |}.
Proof.
  intros He Hm. unfold next.
  change (isNullish (errorEvent code extra)) with false. cbv iota.
  destruct (errorEvent_fields code extra) as (-> & -> & ->).
  rewrite He, Hm.
  change (truthy JUndefined) with false. change (truthy (JObj _)) with true.
  change (isDefined (JBool false)) with true. cbv iota.
  assert (Ht : orEmpty (JStr (ErrorMessages code)) = JStr (ErrorMessages code))
    by (by destruct code).
  rewrite Ht. reflexivity.
Qed.

(** What [next] does with an event of the service. *)
Lemma next_serviceEvent ctx v f :
  serviceEvent ctx v →
  ∃ f', next v f = Some f'
        ∧ operationInProgress f' = operationInProgress f
        ∧ requestLoading f' = getProp "loading" v
        ∧ (∃ b, getProp "loading" v = JBool b)
        ∧ (getProp "loading" v = JBool true → v = loadingEvent).
Proof.
  intros [| body Hr Hd | code | code a | code rem a | code td a].
  - rewrite next_loadingEvent. eexists. split; [done |]. cbn. eauto 6.
  - rewrite (next_dataEvent body f Hr). eexists. split; [done |].
    rewrite loading_dataEvent. cbn. split; [done |]. split; [done |]. split; [eauto | done].
  - rewrite (next_errorEvent code ∅ f EmptyString); [| by destruct code | by destruct code].
    eexists. split; [done |]. cbn. split; [done |]. split; [done |]. split; [eauto | done].
  - rewrite (next_errorEvent code _ f
               ("Attempt " +:+ pretty (Z.of_nat a) +:+ " of " +:+ pretty (retries (options ctx))));
      [| by destruct code | by destruct code].
    eexists. split; [done |]. cbn. split; [done |]. split; [done |]. split; [eauto | done].
  - rewrite (next_errorEvent code _ f
               ("Retrying in " +:+ pretty (ceilSeconds rem)
                +:+ " seconds... (Attempt " +:+ pretty (Z.of_nat a)
                +:+ " of " +:+ pretty (retries (options ctx)) +:+ ")"));
      [| by destruct code | by destruct code].
    eexists. split; [done |]. cbn. split; [done |]. split; [done |]. split; [eauto | done].
  - rewrite (next_errorEvent code _ f
               ("Max retries reached. Retried " +:+ pretty (retries (options ctx))
                +:+ " times over " +:+ toFixed0 td +:+ " seconds."));
      [| by destruct code | by destruct code].
    eexists. split; [done |]. cbn. split; [done |]. split; [done |]. split; [eauto | done].
Qed.

Lemma lastEvent_serviceEvent ctx o d a : serviceEvent ctx (lastEvent ctx o d a).
Proof.
  unfold lastEvent. destruct (verdict ctx o) as [body | code | code] eqn:Hv.
  - assert (Hc : classify o = Ready body).
    { unfold verdict in Hv. destruct (classify o); try discriminate Hv.
      + by injection Hv as ->.
      + by destruct (retryOnUnexpectedFormat (options ctx)).
      + by destruct (retryOnServerFailure (options ctx)). }
    apply classify_Ready in Hc as (_ & Hr & Hd). by apply event_data.
  - apply event_error.
  - apply event_max.
Qed.

(** Every event in the trace of a run is one the service sends. *)
Lemma reachable_serviceEvents ctx t0 s :
  reachable ctx t0 s →
  Forall (λ e, ∀ v, e.2 = Next v → serviceEvent ctx v) (trace s).
Proof.
  revert s.
  assert (H : ∀ s, reachable ctx t0 s →
            phase s ∧ Forall (λ e, ∀ v, e.2 = Next v → serviceEvent ctx v) (trace s));
    [| intros s Hs; by apply H].
  apply (reachable_invariant ctx t0
           (λ s, Forall (λ e, ∀ v, e.2 = Next v → serviceEvent ctx v) (trace s))).
  - rewrite subscribe_eq. cbn [trace]. apply Forall_app. split.
    + destruct (noUpdates (options ctx)); [by apply Forall_nil |].
      apply Forall_singleton. intros v [= <-]. apply event_loading.
    + apply Forall_singleton. intros v. discriminate.
  - intros s s' _ Hall Hm.
    destruct Hm as [t a tr d o Hf | t a tr d o code Hv Hlt Hnu D
                   | t a tr d o code Hv Hlt Hnu Hlive D
                   | t a tr d o code Hv Hlt Hnu Hlive D | t a tr e d re code ts Hd Hts
                   | t a tr e d re code ts Hd Hts | t a tr e];
      cbn [trace] in *; try done.
    + apply Forall_app. split; [done |]. apply Forall_cons. split.
      * intros v [= <-]. apply lastEvent_serviceEvent.
      * apply Forall_singleton. intros v. discriminate.
    + apply Forall_app. split; [done |]. apply Forall_singleton.
      intros v [= <-]. apply event_attempts.
    + apply Forall_app. split; [done |]. apply Forall_singleton.
      intros v [= <-]. apply event_tick.
    + rewrite !Forall_app. split; [done |]. split.
      * destruct (noUpdates (options ctx)); [by apply Forall_nil |].
        apply Forall_singleton. intros v [= <-]. apply event_loading.
      * apply Forall_singleton. intros v. discriminate.
  - intros s t _ Hall _. rewrite cancel_eq. cbn [trace].
    apply Forall_app. split; [done |].
    destruct (isStopped s); [by apply Forall_nil |].
    apply Forall_singleton. intros v. discriminate.
Qed.

(** Delivering the events of a stream never fails. *)
Lemma deliver_serviceEvents ctx i tr : ∀ f,
  Forall (λ e, ∀ v, e.2 = Next v → serviceEvent ctx v) tr →
  ∃ f', deliver (pair i <$> tr) f = Some f'.
Proof.
  induction tr as [| [t a] tr IH]; intros f Hall; [by eexists |].
  apply Forall_cons in Hall as [Ha Hall]. cbn [fmap list_fmap deliver snd].
  destruct a as [v | | u]; cbn [notify].
  - destruct (next_serviceEvent ctx v f (Ha v eq_refl)) as (f1 & -> & _). cbn.
    by apply IH.
  - cbn. by apply IH.
  - cbn. by apply IH.
Qed.

Lemma deliver_snoc_next ctx i tr t v f f1 :
  deliver (pair i <$> tr) f = Some f1 → serviceEvent ctx v →
  ∃ f', deliver (pair i <$> (tr ++ [(t, Next v)])) f = Some f'
        ∧ operationInProgress f' = operationInProgress f1
        ∧ requestLoading f' = getProp "loading" v
        ∧ next v f1 = Some f'.
Proof.
  intros Hd Hv. rewrite fmap_app, deliver_app, Hd. cbn.
  destruct (next_serviceEvent ctx v f1 Hv) as (f' & Hn & Ho & Hl & _).
  rewrite Hn. cbn. eauto.
Qed.

Lemma deliver_snoc_get i tr t u f :
  deliver (pair i <$> (tr ++ [(t, HttpGet u)])) f = deliver (pair i <$> tr) f.
Proof. rewrite fmap_app, deliver_app. by destruct (deliver (pair i <$> tr) f). Qed.

Lemma deliver_snoc_complete i tr t f f1 :
  deliver (pair i <$> tr) f = Some f1 →
  deliver (pair i <$> (tr ++ [(t, Complete)])) f = Some (complete f1).
Proof. intros Hd. by rewrite fmap_app, deliver_app, Hd. Qed.

(** X17: a component that shows one stream keeps its flags in step with
    it. At every point of the run of a stream, cancelled or not, the
    callbacks have accepted every notification; [operationInProgress], once
    [loadData] has set it, is on exactly as long as the subscriber has not
    completed; and unless [noUpdates] is set, [requestLoading] is a
    boolean that is on whenever a request is in flight, and, when the
    updates are not live, only then. A completion turns both off. *)
Theorem fields_follow_stream (ctx : Context) (t0 : Z) (s : State) (i : nat) (f0 : Fields) :
  reachable ctx t0 s →
  ∃ f, deliver (pair i <$> trace s) f0 = Some f
       ∧ operationInProgress f = operationInProgress f0 && negb (isStopped s)
       ∧ (isStopped s = true → requestLoading f = JBool false)
       ∧ (noUpdates (options ctx) = false →
          (∃ b, requestLoading f = JBool b)
          ∧ (inFlight s = true → requestLoading f = JBool true)
          ∧ (liveUpdates (options ctx) = false → requestLoading f = JBool (inFlight s))).
Proof.
  revert s.
  assert (H : ∀ s, reachable ctx t0 s → phase s ∧
    ∃ f, deliver (pair i <$> trace s) f0 = Some f
       ∧ operationInProgress f = operationInProgress f0 && negb (isStopped s)
       ∧ (isStopped s = true → requestLoading f = JBool false)
       ∧ (noUpdates (options ctx) = false →
          (∃ b, requestLoading f = JBool b)
          ∧ (inFlight s = true → requestLoading f = JBool true)
          ∧ (liveUpdates (options ctx) = false → requestLoading f = JBool (inFlight s))));
    [| intros s Hs; by apply H].
  apply (reachable_invariant ctx t0 (λ s,
    ∃ f, deliver (pair i <$> trace s) f0 = Some f
       ∧ operationInProgress f = operationInProgress f0 && negb (isStopped s)
       ∧ (isStopped s = true → requestLoading f = JBool false)
       ∧ (noUpdates (options ctx) = false →
          (∃ b, requestLoading f = JBool b)
          ∧ (inFlight s = true → requestLoading f = JBool true)
          ∧ (liveUpdates (options ctx) = false → requestLoading f = JBool (inFlight s))))).
  - rewrite subscribe_eq. cbn [trace isStopped inFlight tasks].
    destruct (noUpdates (options ctx)) eqn:Hnu; cbn [app fmap list_fmap deliver notify snd].
    + exists f0. cbn. rewrite andb_true_r. repeat split; done.
    + rewrite next_loadingEvent. cbn. eexists. split; [reflexivity |]. cbn.
      rewrite andb_true_r. repeat split; try done; eauto.
  - intros s s' _ (f & Hdel & Hoip & Hstop & Hload) Hm.
    destruct Hm as [t a tr d o Hf | t a tr d o code Hv Hlt Hnu D
                   | t a tr d o code Hv Hlt Hnu Hlive D
                   | t a tr d o code Hv Hlt Hnu Hlive D | t a tr e d re code ts Hd Hts
                   | t a tr e d re code ts Hd Hts | t a tr e];
      cbn [trace isStopped inFlight tasks negb] in *; rewrite ?andb_true_r, ?andb_false_r in *.
    + destruct (deliver_snoc_next ctx i tr d _ f0 f Hdel (lastEvent_serviceEvent ctx o d a))
        as (f1 & Hd1 & Ho1 & Hl1 & _).
      exists (complete f1).
      split; [change [(d, Next (lastEvent ctx o d a)); (d, Complete)]
                with ([(d, Next (lastEvent ctx o d a))] ++ [(d, Complete)]);
              rewrite app_assoc; by apply deliver_snoc_complete |].
      cbn. repeat split; try done; eauto.
    + exists f. rewrite Hnu. repeat split; try done.
    + destruct (deliver_snoc_next ctx i tr d _ f0 f Hdel
                  (event_attempts ctx code a)) as (f1 & Hd1 & Ho1 & Hl1 & _).
      exists f1. split; [done |]. split; [congruence |]. split; [done |].
      intros _. rewrite Hl1. repeat split; try done; eauto.
    + exists f. destruct (Hload Hnu) as (Hb & _ & _).
      split; [done |]. split; [done |]. split; [done |].
      intros _. split; [done |]. split; [done |]. rewrite Hlive. done.
    + destruct (deliver_snoc_next ctx i tr d _ f0 f Hdel
                  (event_tick ctx code (Z.max (re - d) 0) a)) as (f1 & Hd1 & Ho1 & Hl1 & _).
      exists f1. split; [done |]. split; [congruence |]. split; [done |].
      intros _. rewrite Hl1.
      assert (Hin : inFlight (mkState d (S a) false (S a)
                [{| due := e; kind := TickStop a |}; {| due := e; kind := RetryTimer |};
                 {| due := d + tickPeriod (updateInterval (options ctx));
                    kind := Tick a re code |}]
                (tr ++ [(d, Next (errorEvent code
                   (liveUpdateData (Z.max (re - d) 0) a (retries (options ctx)))))])) = false)
        by reflexivity.
      repeat split; try done; eauto.
    + exists f. split; [done |]. split; [done |]. split; [done |].
      intros Hnu. destruct (Hload Hnu) as (Hb & _ & Hnl).
      split; [done |]. split; [done |]. intros Hlive.
      rewrite (Hnl Hlive). by destruct Hts as [-> | ->].
    + rewrite app_assoc, deliver_snoc_get.
      destruct (noUpdates (options ctx)) eqn:Hnu.
      * exists f. rewrite app_nil_r. repeat split; done.
      * destruct (deliver_snoc_next ctx i tr e _ f0 f Hdel (event_loading ctx))
          as (f1 & Hd1 & Ho1 & Hl1 & _).
        exists f1. split; [done |]. split; [congruence |]. split; [done |].
        intros _. rewrite Hl1. repeat split; try done; eauto.
  - intros s t _ (f & Hdel & Hoip & Hstop & Hload) _. rewrite cancel_eq.
    cbn [trace isStopped inFlight tasks negb]. rewrite andb_false_r.
    destruct (isStopped s) eqn:Hs.
    + exists f. rewrite app_nil_r. rewrite andb_false_r in Hoip.
      split; [done |]. split; [done |]. split; [by intros _; apply Hstop |].
      intros Hnu. rewrite (Hstop eq_refl). repeat split; try done; eauto.
    + exists (complete f). split; [by apply deliver_snoc_complete |].
      cbn. repeat split; try done; eauto.
Qed.

(** X18: what the component shows when a run has ended by itself. The
    callbacks accept the whole trace; both flags are off; and after a
    ready answer [data] is the data of its body and the error message is
    empty, while after a failure [data] is [null] and the message is the
    text of the error code followed by a space and by the [message] of the
    last event: nothing after a failure that is not retried, the
    max-retries sentence when the retries are used up. *)
Theorem fields_after_run (ctx : Context) (t0 : Z) (i : nat) (f0 : Fields) :
  ∃ n, ∀ fuel, (n ≤ fuel)%nat →
    let s := run ctx fuel (subscribe ctx 0 t0) in
    ∃ f t,
      requestTimes (trace s) !! attempts s = Some t
      ∧ deliver (pair i <$> trace s) f0 = Some f
      ∧ operationInProgress f = false
      ∧ requestLoading f = JBool false
      ∧ match verdict ctx (backend ctx (attempts s) t).2 with
        | Deliver body => data f = getProp "data" body ∧ errorMessage f = EmptyString
        | Fail errorCode =>
            data f = JNull ∧ errorMessage f = ErrorMessages errorCode +:+ " "
        | Retry errorCode =>
            data f = JNull
            ∧ errorMessage f =
              ErrorMessages errorCode +:+ " " +:+ "Max retries reached. Retried "
              +:+ pretty (retries (options ctx)) +:+ " times over "
              +:+ toFixed0 (now s - startTime ctx) +:+ " seconds."
        end.
Proof.
  destruct (complete_run_settled ctx t0) as [n Hn]. exists n.
  intros fuel Hfuel. destruct (Hn fuel Hfuel) as (Hset & Ht & Hs). cbn zeta.
  pose proof (reachable_serviceEvents ctx t0 _
                (reachable_run ctx t0 fuel _ (reachable_subscribe ctx t0))) as Hev.
  set (s := run ctx fuel (subscribe ctx 0 t0)) in *.
  destruct Hset as (pre & t & Hrq & Hlen & Htk & Hnow & Hf & Htr & Hmax & Hold).
  cbn zeta in *. rewrite Htr in Hev. apply Forall_app in Hev as [Hpre _].
  destruct (deliver_serviceEvents ctx i pre f0 Hpre) as [f1 Hf1].
  exists (complete
            match verdict ctx (backend ctx (attempts s) t).2 with
            | Deliver body =>
                {| data := getProp "data" body; errorMessage := EmptyString;
                   operationInProgress := operationInProgress f1;
                   requestLoading := JBool false |}
            | Fail code =>
                {| data := JNull; errorMessage := ErrorMessages code +:+ " ";
                   operationInProgress := operationInProgress f1;
                   requestLoading := JBool false |}
            | Retry code =>
                {| data := JNull;
                   errorMessage :=
                     ErrorMessages code +:+ " " +:+ "Max retries reached. Retried "
                     +:+ pretty (retries (options ctx)) +:+ " times over "
                     +:+ toFixed0 (now s - startTime ctx) +:+ " seconds.";
                   operationInProgress := operationInProgress f1;
                   requestLoading := JBool false |}
            end), t.
  split; [done |]. split.
  - rewrite Htr.
    change [(now s, Next (lastEvent ctx (backend ctx (attempts s) t).2 (now s) (attempts s)));
            (now s, Complete)]
      with ([(now s, Next (lastEvent ctx (backend ctx (attempts s) t).2 (now s) (attempts s)))]
            ++ [(now s, Complete)]).
    rewrite app_assoc. apply deliver_snoc_complete.
    rewrite fmap_app, deliver_app, Hf1. cbn.
    unfold lastEvent.
    destruct (verdict ctx (backend ctx (attempts s) t).2) as [body | code | code] eqn:Hv.
    + by rewrite (next_dataEvent body f1 (verdict_Deliver ctx _ body Hv)).
    + by rewrite (next_errorEvent code ∅ f1 EmptyString) by (by destruct code).
    + by rewrite (next_errorEvent code _ f1
                    ("Max retries reached. Retried " +:+ pretty (retries (options ctx))
                     +:+ " times over " +:+ toFixed0 (now s - startTime ctx) +:+ " seconds."))
        by (by destruct code).
  - by destruct (verdict ctx (backend ctx (attempts s) t).2).
Qed.

(** ** [loadData], [stopLoading] and [ngOnDestroy] *)

Lemma complete_idemp f : complete (complete f) = complete f.
Proof. reflexivity. Qed.

Lemma deliver_cancelFrom t streams : ∀ i f,
  deliver (cancelFrom i t streams).2 f =
  Some (if allStopped streams then f else complete f).
Proof.
  induction streams as [| st streams IH]; intros i f; [done |].
  cbn [cancelFrom snd allStopped forallb]. rewrite emitted_cancel, deliver_app.
  destruct (isStopped (st_state st)); cbn [deliver notify snd mbind option_bind andb].
  - apply IH.
  - rewrite IH. fold (allStopped streams). by destruct (allStopped streams).
Qed.

Lemma cancelFrom_ended t streams i : Forall ended (cancelFrom i t streams).1.
Proof. apply cancelFrom_spec. Qed.

Lemma ended_quiescent c c' : Forall ended (c_streams c) → rtc comp_step c c' → c' = c.
Proof.
  intros Hend Hsteps. destruct Hsteps as [| c c1 c2 Hstep _]; [done |].
  exfalso. destruct Hstep as [c i st s' Hi Hs].
  rewrite Forall_lookup in Hend.
  pose proof (ended_no_step st (Hend i st Hi)). congruence.
Qed.

Lemma added_app c l more :
  added c {| c_url := c_url c; c_retryOptions := c_retryOptions c;
             c_streams := l; c_seen := c_seen c ++ more |} = more.
Proof. unfold added. cbn. by rewrite drop_app_length. Qed.

(** X19: after [loadData] the flag [operationInProgress] is on exactly when
    no stream of the component was live when it was called. [loadData] sets
    the flag and then raises the cancel signal, and the completion that
    the signal sends to a live stream runs the [complete] callback, which
    turns the flag off again. So a call that replaces a live stream leaves
    the flag off although the stream it has started is live, with
    [requestLoading] on unless [noUpdates] is set; and a call whose
    options [get] rejects leaves the flag on, when nothing was live,
    although no stream is live afterwards. *)
Theorem loadData_flag (service : HttpRetryService) (transport : nat → Z → Z * Outcome)
    (t : Z) (c c' : Component) (h h' : Heap) (r : option Thrown) (f f' : Fields) :
  loadDataFields service transport t c h f = Some (c', h', r, f') →
  operationInProgress f' = allStopped (c_streams c)
  ∧ (r = None →
     ∃ st, c_streams c' = (cancelFrom 0 t (c_streams c)).1 ++ [st]
           ∧ live st = true
           ∧ (noUpdates (options (st_ctx st)) = false → requestLoading f' = JBool true))
  ∧ (r ≠ None → Forall ended (c_streams c')).
Proof.
  unfold loadDataFields, loadData.
  set (f1 := {| data := data f; errorMessage := errorMessage f;
                operationInProgress := true; requestLoading := requestLoading f |}).
  destruct (get service (c_url c) (c_retryOptions c) t h) as [h1 [e | op]] eqn:Hget.
  - cbn [mbind option_bind fst]. rewrite added_app, deliver_cancelFrom.
    cbn [mbind option_bind]. intros [= <- <- <- <-]. cbn [c_streams].
    split; [by destruct (allStopped (c_streams c)) |].
    split; [discriminate |]. intros _. apply cancelFrom_ended.
  - unfold subscribeOperation.
    destruct (readOptions (objectAt (op_options op) h1)) as [o |]; [| discriminate].
    cbn [mbind option_bind fst c_streams c_seen st_state].
    match goal with
    | |- context [added c ?x] =>
        replace (added c x) with
          ((cancelFrom 0 t (c_streams c)).2
           ++ (pair (length (cancelFrom 0 t (c_streams c)).1)
               <$> trace (subscribe {| url := op_url op; options := o;
                                       startTime := op_startTime op;
                                       backend := transport |} (op_attempts op) t)))
    end.
    2: { unfold added. cbn [c_seen]. by rewrite <- app_assoc, drop_app_length. }
    rewrite deliver_app, deliver_cancelFrom. cbn [mbind option_bind].
    rewrite trace_subscribe. cbn [options].
    destruct (noUpdates o) eqn:Hnu; cbn [app fmap list_fmap deliver notify snd];
      rewrite ?next_loadingEvent; cbn [mbind option_bind];
      intros [= <- <- <- <-]; cbn [c_streams].
    + split; [by destruct (allStopped (c_streams c)) |]. split; [| done].
      intros _. eexists. split; [reflexivity |]. split.
      * unfold live. cbn [st_state].
        by rewrite (proj1 (proj2 (proj2 (proj2 (subscribe_fields _ _ _))))).
      * cbn [st_ctx options]. congruence.
    + split; [by destruct (allStopped (c_streams c)) |]. split; [| done].
      intros _. eexists. split; [reflexivity |]. split.
      * unfold live. cbn [st_state].
        by rewrite (proj1 (proj2 (proj2 (proj2 (subscribe_fields _ _ _))))).
      * done.
Qed.

(** X20: [stopLoading] and [ngOnDestroy] always return, and leave every
    stream of the component ended with nothing pending, so that no request,
    timer or event can follow; what they add to the history is
    completions only. If a stream was live, its completion turns both flags
    off; if none was, the flags stay as they were. [stopLoading] also
    clears [data] and the error message; [ngOnDestroy] leaves them. *)
Theorem teardown_quiescent (t : Z) (c : Component) (f : Fields) :
  ∃ c' f' fd,
    stopLoading t c f = Some (c', f')
    ∧ ngOnDestroy t c f = Some (c', fd)
    ∧ Forall ended (c_streams c')
    ∧ (∀ c'', rtc comp_step c' c'' → c'' = c')
    ∧ (∃ completions, c_seen c' = c_seen c ++ completions
                      ∧ Forall (λ e, e.2.2 = Complete) completions)
    ∧ data f' = JNull ∧ errorMessage f' = EmptyString
    ∧ data fd = data f ∧ errorMessage fd = errorMessage f
    ∧ operationInProgress f' = operationInProgress fd
    ∧ requestLoading f' = requestLoading fd
    ∧ (if allStopped (c_streams c)
       then operationInProgress fd = operationInProgress f
            ∧ requestLoading fd = requestLoading f
       else operationInProgress fd = false ∧ requestLoading fd = JBool false).
Proof.
  unfold stopLoading, ngOnDestroy. rewrite deliver_cancelFrom. cbn [mbind option_bind].
  eexists _, _, _. split; [reflexivity |]. split; [reflexivity |]. cbn [c_streams c_seen].
  split; [apply cancelFrom_ended |].
  split.
  { intros c'' Hsteps. apply (ended_quiescent _ c''); [| exact Hsteps].
    cbn [c_streams]. apply cancelFrom_ended. }
  split.
  { eexists. split; [reflexivity |].
    destruct (cancelFrom_spec t (c_streams c) 0) as (_ & _ & Hseen).
    eapply Forall_impl; [exact Hseen |]. by intros e [_ ?]. }
  by destruct (allStopped (c_streams c)).
Qed.

(** * The test server *)

(** The routes of the test server exercise the four classes of outcome, as
    the comments of [server.js] announce, and leave the state of the server
    as it was. *)
Example routes_classified (currentTime : Z) (server : Server) :
  let outcome path := (λ r : Server * Reply, (r.1, classify (received r.2)))
                        <$> route path currentTime server in
  outcome "/valid-data" = Some (server, Ready welcome)
  ∧ outcome "/data-not-ready" = Some (server, NotReadyRetryable)
  ∧ outcome "/invalid-format-200" = Some (server, FormatInvalid)
  ∧ outcome "/invalid-format-404" = Some (server, ServerFailure)
  ∧ outcome "/server-error-500" = Some (server, ServerFailure).
Proof. cbv zeta. repeat split; vm_compute; reflexivity. Qed.

Lemma route_thenReady_first t :
  t ≠ 0 →
  route "/data-not-ready-then-ready" t newServer =
  Some ({| firstRequestTime := Some t |},
        {| reply_status := 404; reply_body := JObj {[ "ready" := JBool false ]} |}).
Proof. reflexivity. Qed.

Lemma route_thenReady_later first t :
  first ≠ 0 →
  route "/data-not-ready-then-ready" t {| firstRequestTime := Some first |} =
  Some ({| firstRequestTime := Some first |},
        if 10000 <=? t - first
        then {| reply_status := 200; reply_body := welcome |}
        else {| reply_status := 404; reply_body := JObj {[ "ready" := JBool false ]} |}).
Proof.
  intros Hne.
  assert (Hunset : unset (Some first) = false) by (by apply Z.eqb_neq).
  unfold route.
  change (String.eqb "/data-not-ready-then-ready" "/valid-data") with false.
  change (String.eqb "/data-not-ready-then-ready" "/data-not-ready") with false.
  change (String.eqb "/data-not-ready-then-ready" "/data-not-ready-then-ready") with true.
  cbv iota. cbn [firstRequestTime default]. rewrite Hunset. unfold id.
  by destruct (10000 <=? t - first).
Qed.

Lemma poll_thenReady_later first times :
  first ≠ 0 →
  poll "/data-not-ready-then-ready" times {| firstRequestTime := Some first |} =
  Some ({| firstRequestTime := Some first |},
        (λ t, if 10000 <=? t - first
              then {| reply_status := 200; reply_body := welcome |}
              else {| reply_status := 404; reply_body := JObj {[ "ready" := JBool false ]} |})
        <$> times).
Proof.
  intros Hne. induction times as [| t times IH]; [done |].
  cbn [poll]. rewrite (route_thenReady_later first t Hne). cbn [mbind option_bind fst snd].
  rewrite IH. reflexivity.
Qed.

(** X21: [/data-not-ready-then-ready] remembers the time of its first
    request, provided the clock did not read 0 then, which the handler
    takes for no time at all. Asked at [t1] and then at later times, a new
    server answers the first request not-ready and every later one by the
    time it is asked alone: ready, with the data, when 10 seconds or more
    have passed since [t1], and not-ready before. So once it has answered
    ready it answers ready to every request that comes later. *)
Theorem ready_after_ten_seconds (t1 : Z) (times : list Z) :
  t1 ≠ 0 →
  ∃ replies,
    poll "/data-not-ready-then-ready" (t1 :: times) newServer
    = Some ({| firstRequestTime := Some t1 |}, replies)
    ∧ classify ∘ received <$> replies
      = NotReadyRetryable
        :: ((λ t, if 10000 <=? t - t1 then Ready welcome else NotReadyRetryable) <$> times)
    ∧ (∀ i j t t',
         (i ≤ j)%nat → times !! i = Some t → times !! j = Some t' → t ≤ t' →
         (classify ∘ received <$> replies) !! S i = Some (Ready welcome) →
         (classify ∘ received <$> replies) !! S j = Some (Ready welcome)).
Proof.
  intros Hne.
  exists ({| reply_status := 404; reply_body := JObj {[ "ready" := JBool false ]} |}
          :: ((λ t, if 10000 <=? t - t1
                    then {| reply_status := 200; reply_body := welcome |}
                    else {| reply_status := 404;
                            reply_body := JObj {[ "ready" := JBool false ]} |})
              <$> times)).
  split.
  { cbn [poll]. rewrite (route_thenReady_first t1 Hne). cbn [mbind option_bind fst snd].
    rewrite (poll_thenReady_later t1 times Hne). reflexivity. }
  assert (Hmap : (classify ∘ received <$>
                   ((λ t, if 10000 <=? t - t1
                          then {| reply_status := 200; reply_body := welcome |}
                          else {| reply_status := 404;
                                  reply_body := JObj {[ "ready" := JBool false ]} |})
                    <$> times))
                 = ((λ t, if 10000 <=? t - t1 then Ready welcome else NotReadyRetryable)
                    <$> times)).
  { rewrite <- list_fmap_compose. apply list_fmap_ext. intros _ t _. cbn.
    by destruct (10000 <=? t - t1). }
  assert (Hall : (classify ∘ received <$>
                    {| reply_status := 404; reply_body := JObj {[ "ready" := JBool false ]} |}
                    :: ((λ t, if 10000 <=? t - t1
                              then {| reply_status := 200; reply_body := welcome |}
                              else {| reply_status := 404;
                                      reply_body := JObj {[ "ready" := JBool false ]} |})
                        <$> times))
                 = NotReadyRetryable
                   :: ((λ t, if 10000 <=? t - t1 then Ready welcome else NotReadyRetryable)
                       <$> times)).
  { rewrite fmap_cons, Hmap. reflexivity. }
  split; [exact Hall |].
  intros i j t t' Hij Hi Hj Hle. rewrite Hall.
  rewrite !lookup_cons_ne_0 by lia. cbn [pred].
  rewrite !list_lookup_fmap, Hi, Hj. cbn [fmap option_fmap option_map].
  destruct (Z.leb_spec 10000 (t - t1)); [| discriminate].
  destruct (Z.leb_spec 10000 (t' - t1)); [done | lia].
Qed.

(** ** Polling the route that becomes ready *)

Lemma thenReadyBackend_latency upstream latency t0 n t :
  (thenReadyBackend upstream latency t0 n t).1 = latency.
Proof.
  unfold thenReadyBackend. by destruct (route _ _ _) as [[? ?] |].
Qed.

Lemma thenReadyBackend_first upstream latency t0 t :
  (thenReadyBackend upstream latency t0 0 t).2
  = HttpErrorResponse 404 (JObj {[ "ready" := JBool false ]}).
Proof. reflexivity. Qed.

Lemma thenReadyBackend_later upstream latency t0 n t :
  t0 + upstream ≠ 0 →
  (thenReadyBackend upstream latency t0 (S n) t).2
  = if 10000 <=? t - t0 then HttpResponse 200 welcome
    else HttpErrorResponse 404 (JObj {[ "ready" := JBool false ]}).
Proof.
  intros Hne. unfold thenReadyBackend. cbn [Nat.eqb].
  rewrite (route_thenReady_later _ _ Hne).
  replace (t + upstream - (t0 + upstream)) with (t - t0) by lia.
  by destruct (10000 <=? t - t0).
Qed.

Lemma waitedBefore_mono o j k :
  0 ≤ interval o → (j ≤ k)%nat → waitedBefore o j ≤ waitedBefore o k.
Proof.
  intros Hi Hjk. induction Hjk as [| k _ IH]; [lia |].
  rewrite waitedBefore_S. pose proof (delay_nonneg (interval o) k (strategy o) Hi). lia.
Qed.

Lemma offset_mono o latency j k :
  0 ≤ interval o → 0 ≤ latency → (j ≤ k)%nat →
  offset o latency j ≤ offset o latency k.
Proof.
  intros Hi Hl Hjk. unfold offset. pose proof (waitedBefore_mono o j k Hi Hjk). nia.
Qed.

Lemma thenReady_verdict o start upstream latency t0 n tn :
  t0 + upstream ≠ 0 →
  let ctx := thenReadyContext o start upstream latency t0 in
  verdict ctx (backend ctx n tn).2 =
  match n with
  | O => Retry DATA_NOT_READY_YET
  | S _ => if 10000 <=? tn - t0 then Deliver welcome else Retry DATA_NOT_READY_YET
  end.
Proof.
  intros Hne ctx. cbn [backend ctx thenReadyContext]. destruct n as [| n].
  - by rewrite thenReadyBackend_first.
  - rewrite (thenReadyBackend_later _ _ _ _ _ Hne). by destruct (10000 <=? tn - t0).
Qed.

(** [thenReadyBackend] answers as the server does: serving, on a new
    server, the requests issued at the times [t0 :: times], in that order
    and each [upstream] after it was issued, gives the outcomes it gives. *)
Lemma thenReadyBackend_poll upstream latency t0 times :
  t0 + upstream ≠ 0 →
  ∃ server replies,
    poll "/data-not-ready-then-ready" ((λ t, t + upstream) <$> t0 :: times) newServer
    = Some (server, replies)
    ∧ received <$> replies
      = imap (λ n t, (thenReadyBackend upstream latency t0 n t).2) (t0 :: times).
Proof.
  intros Hne. rewrite fmap_cons. cbn [poll].
  rewrite (route_thenReady_first _ Hne). cbn [mbind option_bind fst snd].
  rewrite (poll_thenReady_later _ _ Hne). cbn [mbind option_bind fst snd].
  eexists _, _. split; [reflexivity |].
  rewrite imap_cons, fmap_cons. f_equal.
  rewrite <- !list_fmap_compose.
  rewrite (imap_ext _ (const (λ t, if 10000 <=? t - t0 then HttpResponse 200 welcome
                                   else HttpErrorResponse 404
                                          (JObj {[ "ready" := JBool false ]})))).
  - rewrite imap_const. apply list_fmap_ext. intros _ t _. cbn.
    replace (t + upstream - (t0 + upstream)) with (t - t0) by lia.
    by destruct (10000 <=? t - t0).
  - intros n t _. cbn. by rewrite (thenReadyBackend_later _ _ _ _ _ Hne).
Qed.

(** X22: the service polling [/data-not-ready-then-ready] on a server no
    one has asked before, when every request reaches the server after the
    same time and every answer takes the same time [latency], so that
    request [k] of the stream leaves [offset k] after the first: the
    outcomes of the requests are the replies the server gives when it
    serves them in turn. If 10
    seconds have passed at request [k], for some [k] from 1 to [retries],
    and not at request [k - 1], the run ends after [k + 1] requests with
    the data. If they have not passed at request [retries], the run uses
    the retries up and ends with the max-retries error, although the
    server would have answered ready later. *)
Theorem polling_then_ready (o : RetryOptions) (start upstream latency t0 : Z) :
  let ctx := thenReadyContext o start upstream latency t0 in
  0 ≤ interval o → 0 ≤ latency → t0 + upstream ≠ 0 →
  ∃ n, ∀ fuel, (n ≤ fuel)%nat →
    let s := run ctx fuel (subscribe ctx 0 t0) in
    tasks s = [] ∧ isStopped s = true
    ∧ (∃ server replies,
         poll (url ctx) ((λ t, t + upstream) <$> requestTimes (trace s)) newServer
         = Some (server, replies)
         ∧ received <$> replies
           = imap (λ n t, (backend ctx n t).2) (requestTimes (trace s)))
    ∧ (∀ k : nat,
         (1 ≤ k)%nat → Z.of_nat k ≤ retries o →
         offset o latency (pred k) < 10000 ≤ offset o latency k →
         gets (trace s) = S k
         ∧ ∃ pre, trace s = pre ++ [(now s, Next (dataEvent welcome)); (now s, Complete)])
    ∧ (0 ≤ retries o → offset o latency (Z.to_nat (retries o)) < 10000 →
       gets (trace s) = S (Z.to_nat (retries o))
       ∧ ∃ pre, trace s
                = pre ++ [(now s, Next (errorEvent DATA_NOT_READY_YET
                                          (maxRetriesData (now s - start)
                                             (Z.to_nat (retries o)) (retries o))));
                          (now s, Complete)]).
Proof.
  intros ctx Hi Hl Hne.
  destruct (complete_run_settled ctx t0) as [n Hn]. exists n.
  intros fuel Hfuel. destruct (Hn fuel Hfuel) as (Hset & Ht & Hs). cbn zeta.
  pose proof (requestTimes_closed ctx t0 latency fuel) as Hclosed.
  set (s := run ctx fuel (subscribe ctx 0 t0)) in *.
  destruct Hset as (pre & t & Hrq & Hlen & Htk & Hnow & Hf & Htr & Hmax & Hold).
  cbn zeta in *.
  assert (Htime : ∀ j tj, requestTimes (trace s) !! j = Some tj →
            tj - t0 = offset o latency j).
  { intros j tj Hj. rewrite (Hclosed j tj Hi (thenReadyBackend_latency _ _ _) Hj).
    unfold offset. cbn [options ctx thenReadyContext]. lia. }
  assert (Hverdict : ∀ j tj, requestTimes (trace s) !! j = Some tj →
            verdict ctx (backend ctx j tj).2 =
            match j with
            | O => Retry DATA_NOT_READY_YET
            | S _ => if 10000 <=? offset o latency j then Deliver welcome
                     else Retry DATA_NOT_READY_YET
            end).
  { intros j tj Hj. unfold ctx. rewrite (thenReady_verdict _ _ _ _ _ _ _ Hne).
    destruct j; [done |]. by rewrite (Htime _ _ Hj). }
  split; [done |]. split; [done |]. split; [| split].
  - pose proof (first_request ctx t0 fuel) as Hfirst. fold s in Hfirst.
    destruct (requestTimes (trace s)) as [| t1 times]; [discriminate Hfirst |].
    injection Hfirst as ->.
    apply (thenReadyBackend_poll upstream latency t0 times Hne).
  - intros k Hk1 HkM [Hbefore Hat].
    assert (Hatt : attempts s = k).
    { destruct (lt_eq_lt_dec (attempts s) k) as [[Hlt | Heq] | Hgt]; [| done |].
      - exfalso.
        assert (Hv : verdict ctx (backend ctx (attempts s) t).2 = Retry DATA_NOT_READY_YET).
        { rewrite (Hverdict _ _ Htk). destruct (attempts s) as [| a]; [done |].
          pose proof (offset_mono o latency (S a) (pred k) Hi Hl ltac:(lia)).
          destruct (Z.leb_spec 10000 (offset o latency (S a))); [lia | done]. }
        specialize (Hf _ Hv). cbn [options ctx thenReadyContext] in Hf. lia.
      - exfalso.
        assert (Hsome : is_Some (requestTimes (trace s) !! k)).
        { apply lookup_lt_is_Some. lia. }
        destruct Hsome as [tk Hk].
        destruct (Hold k tk Hgt Hk) as [code Hc]. rewrite (Hverdict _ _ Hk) in Hc.
        destruct k as [| k]; [lia |].
        destruct (Z.leb_spec 10000 (offset o latency (S k))); [discriminate | lia]. }
    rewrite Hatt in *. split; [by rewrite gets_requestTimes |].
    exists pre. rewrite Htr. unfold lastEvent. rewrite (Hverdict _ _ Htk).
    destruct k as [| k]; [lia |].
    destruct (Z.leb_spec 10000 (offset o latency (S k))); [done | lia].
  - intros HM Hbefore.
    assert (Hv : verdict ctx (backend ctx (attempts s) t).2 = Retry DATA_NOT_READY_YET).
    { rewrite (Hverdict _ _ Htk). destruct (attempts s) as [| a] eqn:Ea; [done |].
      cbn [options ctx thenReadyContext] in Hmax.
      pose proof (offset_mono o latency (S a) (Z.to_nat (retries o)) Hi Hl ltac:(lia)).
      destruct (Z.leb_spec 10000 (offset o latency (S a))); [lia | done]. }
    pose proof (Hf _ Hv) as Hge. cbn [options ctx thenReadyContext] in Hge, Hmax.
    assert (Hatt : attempts s = Z.to_nat (retries o)) by lia.
    split; [by rewrite gets_requestTimes, Hlen, Hatt |].
    exists pre. rewrite Htr. unfold lastEvent. rewrite Hv, Hatt. done.
Qed.

(** * The further statements at sample inputs *)

Lemma sampleRun_reachable n : reachable (sampleContext true false) 5 (sampleRun n).
Proof. apply reachable_run, reachable_subscribe. Defined.

Lemma sampleCancelled_reachable : reachable (sampleContext true false) 5 sampleCancelled.
Proof. apply reachable_cancel; [apply sampleRun_reachable | by vm_compute]. Defined.

Lemma neverReady_retried j t :
  ∃ errorCode,
    verdict (sampleContext true false) (backend (sampleContext true false) j t).2
    = Retry errorCode.
Proof. by exists DATA_NOT_READY_YET. Defined.



Lemma requests_announced_witness :
  reachable (sampleContext true false) 5 (sampleRun 5)
  ∧ announced (sampleContext true false) (trace (sampleRun 5)).
Proof.
  split; [apply sampleRun_reachable |].
  apply (requests_announced (sampleContext true false) 5), sampleRun_reachable.
Defined.

Lemma requests_bounded_witness :
  reachable (sampleContext true false) 5 (sampleRun 20)
  ∧ gets (trace (sampleRun 20)) = requests (sampleRun 20)
  ∧ (1 ≤ requests (sampleRun 20))%nat
  ∧ Z.of_nat (requests (sampleRun 20)) ≤ Z.max 2 0 + 1
  ∧ Z.of_nat (attempts (sampleRun 20)) ≤ Z.max 2 0.
Proof.
  split; [apply sampleRun_reachable |].
  exact (requests_bounded (sampleContext true false) 5 (sampleRun 20) (sampleRun_reachable 20)).
Defined.

Lemma clock_order_witness :
  (∀ n t, 0 ≤ (backend (sampleContext true false) n t).1)
  ∧ reachable (sampleContext true false) 5 sampleCancelled
  ∧ 5 ≤ now sampleCancelled
  ∧ chronological (trace sampleCancelled).
Proof.
  assert (Hlat : ∀ n t, 0 ≤ (backend (sampleContext true false) n t).1)
    by (intros n t; cbn; lia).
  split; [exact Hlat |]. split; [apply sampleCancelled_reachable |].
  destruct (clock_order (sampleContext true false) 5 sampleCancelled Hlat
              sampleCancelled_reachable) as (Hnow & _ & _ & Hord).
  split; [exact Hnow | exact Hord].
Defined.

(** Not ready, then ready: two requests. *)
Lemma ready_ends_run_witness :
  ∃ n, ∀ fuel, (n ≤ fuel)%nat →
    let s := run (sampleContextOf readyOnSecond) fuel
               (subscribe (sampleContextOf readyOnSecond) 0 5) in
    gets (trace s) = 2%nat
    ∧ ∃ pre, trace s = pre ++ [(now s, Next (dataEvent welcome)); (now s, Complete)].
Proof.
  destruct (ready_ends_run (sampleContextOf readyOnSecond) 5 1 welcome) as [n Hn].
  - intros j t Hj. exists DATA_NOT_READY_YET. destruct j; [reflexivity | lia].
  - intros t. reflexivity.
  - cbn. lia.
  - exists n. intros fuel Hfuel. destruct (Hn fuel Hfuel) as (_ & _ & Hg & Hpre & _).
    split; [exact Hg | exact Hpre].
Defined.

(** A server failure with [retryOnServerFailure] off: one request. *)
Lemma failure_ends_run_witness :
  ∃ n, ∀ fuel, (n ≤ fuel)%nat →
    let s := run (sampleContextOf serverError) fuel
               (subscribe (sampleContextOf serverError) 0 5) in
    gets (trace s) = 1%nat
    ∧ ∃ pre, trace s = pre ++ [(now s, Next (errorEvent UNKNOWN_ERROR ∅)); (now s, Complete)].
Proof.
  destruct (failure_ends_run (sampleContextOf serverError) 5 0 UNKNOWN_ERROR) as [n Hn].
  - intros j t Hj. lia.
  - intros t. right. repeat split; reflexivity.
  - cbn. lia.
  - exists n. intros fuel Hfuel. destruct (Hn fuel Hfuel) as (_ & _ & Hg & Hpre & _).
    split; [exact Hg | exact Hpre].
Defined.

Lemma retried_failures_exhaust_witness :
  ∃ n, ∀ fuel, (n ≤ fuel)%nat →
    gets (trace (run (sampleContext true false) fuel
                   (subscribe (sampleContext true false) 0 5))) = 3%nat.
Proof.
  destruct (retried_failures_exhaust (sampleContext true false) 5) as [n Hn].
  - cbn. lia.
  - apply neverReady_retried.
  - exists n. intros fuel Hfuel. destruct (Hn fuel Hfuel) as (_ & _ & Hg & _). exact Hg.
Defined.

Lemma request_schedule_witness :
  requestTimes (trace (sampleRun 20)) !! 2%nat = Some 6025
  ∧ 6025 = 5 + 2 * 10 + 2000 * (2 ^ 2 - 1).
Proof.
  assert (Hk : requestTimes (trace (sampleRun 20)) !! 2%nat = Some 6025) by (by vm_compute).
  split; [exact Hk |].
  destruct (request_schedule (sampleContext true false) 5 10 20 2 6025) as (_ & _ & Hexp).
  - cbn. lia.
  - intros n t'. reflexivity.
  - exact Hk.
  - exact (Hexp eq_refl).
Defined.

Lemma exhaustion_time_witness :
  ∃ n, ∀ fuel, (n ≤ fuel)%nat →
    now (run (sampleContext true false) fuel (subscribe (sampleContext true false) 0 5))
    = 5 + (3 * 10 + 2000 * (2 ^ 2 - 1)).
Proof.
  destruct (exhaustion_time (sampleContext true false) 5 10) as [n Hn].
  - apply sampleOptions_valid.
  - intros k t. reflexivity.
  - apply neverReady_retried.
  - exists n. intros fuel Hfuel. destruct (Hn fuel Hfuel) as [Hnow _]. exact Hnow.
Defined.

(** The second subscription makes one request. *)
Lemma resubscription_keeps_count_witness :
  ∃ n, ∀ fuel1 fuel2, (n ≤ fuel1)%nat → (n ≤ fuel2)%nat →
    let ctx := sampleContext true false in
    let s1 := run ctx fuel1 (subscribe ctx 0 5) in
    let s2 := run ctx fuel2 (resubscribe ctx s1 7000) in
    gets (trace s1) = 3%nat ∧ gets (trace s2) = 1%nat ∧ attempts s2 = 2%nat.
Proof.
  destruct (resubscription_keeps_count (sampleContext true false) 5 7000) as [n Hn].
  - cbn. lia.
  - apply neverReady_retried.
  - exists n. intros fuel1 fuel2 H1 H2.
    destruct (Hn fuel1 fuel2 H1 H2) as ((_ & Hg1) & _ & _ & Ha2 & Hg2 & _).
    split; [exact Hg1 |]. split; [exact Hg2 | exact Ha2].
Defined.

Lemma validateOptions_result_witness :
  ∃ h', validateOptions 2 (sampleHeap {[ "noUpdates" := JInt 1 ]}) = inr h'
        ∧ readProp 2 "noUpdates" h' = JBool true
        ∧ readProp 2 "liveUpdates" h' = JBool false
        ∧ validateOptions 2 h' = inr h'.
Proof.
  assert (Hsome : match validateOptions 2 (sampleHeap {[ "noUpdates" := JInt 1 ]}) with
                  | inr _ => True
                  | inl _ => False
                  end) by (vm_compute; exact Logic.I).
  destruct (validateOptions 2 (sampleHeap {[ "noUpdates" := JInt 1 ]})) as [e | h'] eqn:E;
    [destruct Hsome |].
  exists h'. split; [reflexivity |].
  destruct (validateOptions_result 2 (sampleHeap {[ "noUpdates" := JInt 1 ]}) h' E)
    as (Hflags & _ & _ & Hidem).
  split; [| split; [| exact Hidem]].
  - rewrite (Hflags "noUpdates") by flag_in. reflexivity.
  - rewrite (Hflags "liveUpdates") by flag_in. reflexivity.
Defined.

(** Two options are out of bounds: the error is about the first. *)
Lemma get_error_message_witness :
  let h := sampleHeap {[ "retries" := JInt 11; "interval" := JInt (-5) ]} in
  ∃ e, (get sampleService "/valid-data" 2 0 h).2 = inl e
       ∧ e = Error
               "Invalid value for retries. It must be a non-negative integer less than 10.".
Proof.
  cbv zeta.
  set (h := sampleHeap {[ "retries" := JInt 11; "interval" := JInt (-5) ]}).
  assert (Hsome : match (get sampleService "/valid-data" 2 0 h).2 with
                  | inl _ => True
                  | inr _ => False
                  end) by (vm_compute; exact Logic.I).
  destruct ((get sampleService "/valid-data" 2 0 h).2) as [e | op] eqn:E;
    [| destruct Hsome].
  exists e. split; [reflexivity |].
  apply (get_error_message sampleService "/valid-data" 2 0 h e E).
  intros [Hu | (z & Hz & Hr)].
  - vm_compute in Hu. discriminate Hu.
  - vm_compute in Hz. injection Hz as <-. unfold MAX_RETRIES in Hr. lia.
Defined.

Lemma get_engine_options_witness :
  (∃ op, (get sampleService "/valid-data" 2 0 (sampleHeap ∅)).2 = inr op
         ∧ readOptions (objectAt (op_options op)
                          (get sampleService "/valid-data" 2 0 (sampleHeap ∅)).1)
           = Some defaultRetryOptions)
  ∧ (∀ a : nat, Z.of_nat a < 3 →
       calculateDelayBeforeRetryDouble 3000 a "linear" = JInt 3000)
  ∧ (∃ op, (get sampleService "/valid-data" 2 0
              (sampleHeap {[ "retries" := JUndefined ]})).2 = inr op
           ∧ readOptions (objectAt (op_options op)
                            (get sampleService "/valid-data" 2 0
                               (sampleHeap {[ "retries" := JUndefined ]})).1) = None).
Proof.
  assert (Hget : (get sampleService "/valid-data" 2 0 (sampleHeap ∅)).2
                 = inr (request "/valid-data" 3 0)) by (vm_compute; reflexivity).
  assert (Hread : readOptions (objectAt 3 (get sampleService "/valid-data" 2 0 (sampleHeap ∅)).1)
                  = Some defaultRetryOptions) by (vm_compute; reflexivity).
  assert (Hget' : (get sampleService "/valid-data" 2 0
                     (sampleHeap {[ "retries" := JUndefined ]})).2
                  = inr (request "/valid-data" 3 0)) by (vm_compute; reflexivity).
  split; [exists (request "/valid-data" 3 0); by split |]. split.
  - destruct (get_engine_options sampleService "/valid-data" 2 0 (sampleHeap ∅) _ Hget)
      as (_ & _ & _ & _ & _ & Htyped).
    destruct (Htyped defaultRetryOptions Hread) as (_ & _ & _ & _ & Hwait).
    intros a Ha. destruct (Hwait a Ha) as (Hdouble & _).
    cbn [interval strategy defaultRetryOptions] in Hdouble.
    rewrite Hdouble. reflexivity.
  - exists (request "/valid-data" 3 0). split; [exact Hget' |].
    vm_compute. reflexivity.
Defined.

Lemma fields_follow_stream_witness :
  let f0 := {| data := JNull; errorMessage := EmptyString;
               operationInProgress := true; requestLoading := JBool false |} in
  reachable (sampleContext true false) 5 sampleCancelled
  ∧ ∃ f, deliver (pair 0%nat <$> trace sampleCancelled) f0 = Some f
         ∧ operationInProgress f = true && negb (isStopped sampleCancelled)
         ∧ requestLoading f = JBool false.
Proof.
  cbv zeta. split; [apply sampleCancelled_reachable |].
  destruct (fields_follow_stream (sampleContext true false) 5 sampleCancelled 0
              {| data := JNull; errorMessage := EmptyString;
                 operationInProgress := true; requestLoading := JBool false |}
              sampleCancelled_reachable) as (f & Hd & Ho & Hs & _).
  exists f. split; [exact Hd |]. split; [exact Ho |]. by apply Hs.
Defined.

(** [loadData] called while the first stream is waiting for its answer:
    the flag ends off. *)
Lemma loadData_flag_witness :
  let first := {| st_ctx := sampleContext true false;
                  st_state := subscribe (sampleContext true false) 0 5 |} in
  let c := {| c_url := "/data-not-ready"; c_retryOptions := 2%positive;
              c_streams := [first];
              c_seen := pair 0%nat <$> trace (st_state first) |} in
  let f := {| data := JNull; errorMessage := EmptyString;
              operationInProgress := true; requestLoading := JBool true |} in
  ∃ c' h' r f',
    loadDataFields sampleService neverReady 8 c (sampleHeap ∅) f = Some (c', h', r, f')
    ∧ operationInProgress f' = allStopped [first]
    ∧ allStopped [first] = false.
Proof.
  cbv zeta.
  match goal with
  | |- ∃ c' h' r f', loadDataFields ?sv ?tr ?t ?c ?h ?f = _ ∧ _ =>
      assert (Hsome : match loadDataFields sv tr t c h f with
                      | Some _ => True
                      | None => False
                      end) by (vm_compute; exact Logic.I);
      destruct (loadDataFields sv tr t c h f) as [[[[c' h'] r] f'] |] eqn:E;
        [| destruct Hsome];
      exists c', h', r, f'; split; [reflexivity |];
      destruct (loadData_flag sv tr t c c' h h' r f f' E) as (Hflag & _)
  end.
  split; [exact Hflag | reflexivity].
Defined.

Lemma ready_after_ten_seconds_witness :
  ∃ replies,
    poll "/data-not-ready-then-ready" [1000; 4000; 11000; 12000] newServer
    = Some ({| firstRequestTime := Some 1000 |}, replies)
    ∧ classify ∘ received <$> replies
      = [NotReadyRetryable; NotReadyRetryable; Ready welcome; Ready welcome].
Proof.
  destruct (ready_after_ten_seconds 1000 [4000; 11000; 12000]) as (replies & Hpoll & Hcl & _).
  - discriminate.
  - exists replies. split; [exact Hpoll | exact Hcl].
Defined.

(** With the default options and answers that take 100 ms, the retries
    are used up 9.3 seconds after the first request, before the data is
    ready; with answers that take 400 ms the fourth request finds it. *)
Lemma polling_then_ready_witness :
  (∃ n, ∀ fuel, (n ≤ fuel)%nat →
     let ctx := thenReadyContext defaultRetryOptions 0 50 100 5 in
     let s := run ctx fuel (subscribe ctx 0 5) in
     gets (trace s) = 4%nat
     ∧ ∃ pre, trace s
              = pre ++ [(now s, Next (errorEvent DATA_NOT_READY_YET
                                        (maxRetriesData (now s - 0) 3 3)));
                        (now s, Complete)])
  ∧ (∃ n, ∀ fuel, (n ≤ fuel)%nat →
       let ctx := thenReadyContext defaultRetryOptions 0 50 400 5 in
       let s := run ctx fuel (subscribe ctx 0 5) in
       gets (trace s) = 4%nat
       ∧ ∃ pre, trace s = pre ++ [(now s, Next (dataEvent welcome)); (now s, Complete)]).
Proof.
  split.
  - destruct (polling_then_ready defaultRetryOptions 0 50 100 5) as [n Hn];
      [cbn; lia | lia | lia |].
    exists n. intros fuel Hfuel. destruct (Hn fuel Hfuel) as (_ & _ & _ & _ & Hmax).
    apply Hmax; [cbn; lia | by vm_compute].
  - destruct (polling_then_ready defaultRetryOptions 0 50 400 5) as [n Hn];
      [cbn; lia | lia | lia |].
    exists n. intros fuel Hfuel. destruct (Hn fuel Hfuel) as (_ & _ & _ & Hdata & _).
    apply (Hdata 3%nat); [lia | cbn; lia | by vm_compute].
Defined.

(** The sample stream, unsubscribed from as soon as it is subscribed to,
    makes its three requests all the same, and delivers nothing after the
    [{loading: true}] event it had sent. *)
Example unsubscribed_sample :
  let s := run (sampleContext true false) 20 (unsubscribe (sampleRun 0)) in
  requestTimes (trace s) = [5; 2015; 6025] ∧ nexts (trace s) = 1%nat ∧ tasks s = [].
Proof. vm_compute. repeat split; reflexivity. Qed.

(** What the component shows when the sample stream, which reports the
    attempts only, has used its retries up. *)
Example fields_of_sample_run :
  deliver (pair 0%nat <$> trace (run (sampleContext false false) 20
                                   (subscribe (sampleContext false false) 0 5)))
    initialFields
  = Some {| data := JNull;
            errorMessage :=
              "Data not ready yet. Max retries reached. Retried 2 times over 6 seconds.";
            operationInProgress := false; requestLoading := JBool false |}.
Proof. vm_compute. reflexivity. Qed.
